(** * content_profiler: a shallow embedding and its checked properties

    The development follows the layout of the Python package
    [content_profiler]:

    - [http.py]          the retrying HTTP wrapper ([get_json], [get_text]);
    - [scraper.py]       page extraction (external libraries, kept abstract);
    - [openai_synth.py]  [truncate_sources], [synthesize_profile],
                         [render_markdown_outputs];
    - [pipeline.py]      [slugify] and the blocks of [run_pipeline];
    - [bulk.py]          [find_businesses].

    Part I holds the definitions, Part II the lemmas and theorems.

    Conventions.  Python [str] is modelled by [string]; a character is a
    code point below 256.  Where code points from 256 up change what the
    code does, in [slugify] through [str.lower], the text is a list of code
    points ([slugify_text]), and the two readings are proved to agree below
    256.  Python exceptions are values of [exn]; a call
    that may raise returns an [outcome].  Third-party libraries
    (requests, tenacity, tldextract, orjson, the language-model client)
    are either section variables or small models of their documented
    behaviour, and are marked as such where they appear. *)

From Stdlib Require Import ZArith NArith Ascii String List Bool Lia.
From stdpp Require Import base option list gmap strings.

Local Open Scope bool_scope.

(* ===================================================================== *)
(** * Part I: definitions                                                 *)
(* ===================================================================== *)

(** ** Python string operations *)

Definition str_is_empty (s : string) : bool :=
  match s with
  | EmptyString => true
  | String _ _ => false
  end.

(** [c] lies in the inclusive code-point range [lo..hi]. *)
Definition in_range (lo hi : N) (c : ascii) : bool :=
  let n := N_of_ascii c in (lo <=? n)%N && (n <=? hi)%N.

(** The regular-expression class [[a-z0-9]]. *)
Definition is_az09 (c : ascii) : bool :=
  in_range 97 122 c || in_range 48 57 c.

(** ASCII letters and digits. *)
Definition is_ascii_alnum (c : ascii) : bool :=
  in_range 97 122 c || in_range 65 90 c || in_range 48 57 c.

(** [str.lower] on one code point below 256: [A-Z] and the upper-case
    Latin-1 letters U+00C0..U+00DE (except the sign U+00D7) move up by 32. *)
Definition lower_char (c : ascii) : ascii :=
  if in_range 65 90 c
     || (in_range 192 222 c && negb (N_of_ascii c =? 215)%N)
  then ascii_of_N (N_of_ascii c + 32)
  else c.

Fixpoint lower (s : string) : string :=
  match s with
  | EmptyString => EmptyString
  | String c s' => String (lower_char c) (lower s')
  end.

(** [re.sub(r'[cls]+', repl, s)]: every maximal run of characters of the
    class [cls] is replaced by one copy of [repl].  [in_run] records that
    the previous character belonged to the run being replaced. *)
Fixpoint re_sub_class_plus (cls : ascii -> bool) (repl : string)
    (in_run : bool) (s : string) : string :=
  match s with
  | EmptyString => EmptyString
  | String c s' =>
      if cls c then
        if in_run then re_sub_class_plus cls repl true s'
        else repl +:+ re_sub_class_plus cls repl true s'
      else String c (re_sub_class_plus cls repl false s')
  end.

(** [s.lstrip(ch)], [s.rstrip(ch)] and [s.strip(ch)] for a one-character
    argument. *)
Fixpoint lstrip (ch : ascii) (s : string) : string :=
  match s with
  | EmptyString => EmptyString
  | String c s' => if Ascii.eqb c ch then lstrip ch s' else s
  end.

Fixpoint rstrip (ch : ascii) (s : string) : string :=
  match s with
  | EmptyString => EmptyString
  | String c s' =>
      let r := rstrip ch s' in
      if Ascii.eqb c ch && str_is_empty r then EmptyString else String c r
  end.

Definition strip (ch : ascii) (s : string) : string :=
  rstrip ch (lstrip ch s).

(** [needle in hay] for two strings. *)
Fixpoint str_contains (needle hay : string) : bool :=
  String.prefix needle hay ||
  match hay with
  | EmptyString => false
  | String _ hay' => str_contains needle hay'
  end.

(** [s.endswith(suffix)]. *)
Fixpoint str_endswith (suffix s : string) : bool :=
  String.eqb suffix s ||
  match s with
  | EmptyString => false
  | String _ s' => str_endswith suffix s'
  end.

(** [s[:n]]. *)
Fixpoint str_take (n : nat) (s : string) : string :=
  match n, s with
  | S n', String c s' => String c (str_take n' s')
  | _, _ => EmptyString
  end.

(** ** pipeline.py: [slugify] *)

Definition hyphen : ascii := "-"%char.

(** Lines 15-18 of pipeline.py. *)
Definition slugify (text : string) : string :=
  let text := lower text in
  let text := re_sub_class_plus (fun c => negb (is_az09 c)) "-" false text in
  strip hyphen (re_sub_class_plus (Ascii.eqb hyphen) "-" false text).

(** The specification's reading of a slug: the maximal runs of
    alphanumeric characters of the lower-cased text, in order, joined by
    single hyphens.  [alnum_runs] lists those runs. *)
Fixpoint alnum_runs (s : string) : list string :=
  match s with
  | EmptyString => []
  | String c s' =>
      if is_ascii_alnum c then
        match s' with
        | EmptyString => [String c EmptyString]
        | String d _ =>
            if is_ascii_alnum d then
              match alnum_runs s' with
              | w :: ws => String c w :: ws
              | [] => [String c EmptyString]
              end
            else String c EmptyString :: alnum_runs s'
        end
      else alnum_runs s'
  end.

Definition slug_spec (text : string) : string :=
  String.concat "-" (alnum_runs (lower text)).

(** A string without upper-case ASCII letters: on every character the two
    classes [is_ascii_alnum] and [is_az09] agree. *)
Fixpoint no_upper (s : string) : Prop :=
  match s with
  | EmptyString => True
  | String c s' => is_ascii_alnum c = is_az09 c /\ no_upper s'
  end.

(** ** Exceptions and effects *)

(** The exception classes that occur in the package.  All of them derive
    from Python's [Exception]. *)
Inductive exn :=
| HttpError (status : Z) (body_prefix : string)
    (* http.HttpError, message "<status>: <first 200 characters of the body>" *)
| RequestsHTTPError (status : Z)
    (* requests.HTTPError, raised by Response.raise_for_status *)
| RequestsConnectionError
    (* requests.ConnectionError / requests.Timeout: no response arrived *)
| JSONDecodeError
| TypeError
| AttributeError
| KeyError
| RuntimeError (msg : string).

Inductive outcome (A : Type) :=
| Ok (a : A)
| Raise (e : exn).
Arguments Ok {A} a.
Arguments Raise {A} e.

(** A computation over a world [W] that returns or raises. *)
Definition M (W A : Type) : Type := W -> outcome A * W.

Definition ret {W A} (a : A) : M W A := fun w => (Ok a, w).
Definition raise {W A} (e : exn) : M W A := fun w => (Raise e, w).
Definition bind {W A B} (m : M W A) (k : A -> M W B) : M W B :=
  fun w =>
    match m w with
    | (Ok a, w') => k a w'
    | (Raise e, w') => (Raise e, w')
    end.

Notation "'let*' x ':=' m 'in' k" := (bind m (fun x => k))
  (at level 10, x pattern, m at level 100, k at level 200).

Set Warnings "-register-all".

(** ** JSON values, as [orjson] and [requests] hand them to Python

    Objects keep their fields in insertion order, as Python dictionaries
    do.  Numbers are integers; fractional numbers do not occur in the code
    paths modelled here. *)
Inductive json :=
| JNull
| JBool (b : bool)
| JNum (n : Z)
| JStr (s : string)
| JArr (items : list json)
| JObj (fields : list (string * json)).

(** ** http.py *)

(** What [requests.get] can bring back: a response with a status code and a
    body, or a transport-level failure (connection refused, timeout after
    the 20 s limit, ...), which [requests] raises as an exception that is
    not an [HttpError]. *)
Record response := { status_code : Z; text : string }.

Inductive reply :=
| Response (r : response)
| TransportFailure.

(** The network as the wrapper sees it: how many requests were sent, and
    the pauses taken between attempts, oldest first, in milliseconds. *)
Record net := { sent : nat; pauses : list Z }.

Definition net0 : net := {| sent := 0; pauses := [] |}.

Section Http.

(** The request (URL, query parameters, headers). *)
Variable request : Type.
(** The server's reply to the [n]-th request sent, counting from 0. *)
Variable server : request -> nat -> reply.
(** [Response.json()]: decoding the body, which raises when the body is
    not JSON. *)
Variable resp_json : response -> outcome json.

Definition requests_get (req : request) : M net response :=
  fun w =>
    let w' := {| sent := S (sent w); pauses := pauses w |} in
    match server req (sent w) with
    | Response r => (Ok r, w')
    | TransportFailure => (Raise RequestsConnectionError, w')
    end.

Definition sleep (ms : Z) : M net unit :=
  fun w => (Ok tt, {| sent := sent w; pauses := pauses w ++ [ms] |}).

(** [Response.raise_for_status]: client and server error statuses raise
    [requests.HTTPError]. *)
Definition raise_for_status (r : response) : M net unit :=
  if (400 <=? status_code r)%Z && (status_code r <? 600)%Z
  then raise (RequestsHTTPError (status_code r))
  else ret tt.

(** The body shared by [get_json] and [get_text] (lines 12-16 and 21-25),
    before decoration; [decode] is [resp.json()] or [resp.text]. *)
Definition get_once {A} (decode : response -> outcome A) (req : request) : M net A :=
  let* resp := requests_get req in
  if (500 <=? status_code resp)%Z
  then raise (HttpError (status_code resp) (str_take 200 (text resp)))
  else
    let* _ := raise_for_status resp in
    fun w => (decode resp, w).

(** *** The tenacity decorator

    A model of [tenacity.retry(reraise=True, stop=stop_after_attempt(n),
    wait=w, retry=p)]: call the function; when it raises an exception
    accepted by [p], and fewer than [n] attempts were made, sleep
    [w attempt_number] and call again; otherwise re-raise the exception of
    the last attempt.  [remaining] is the number of further attempts
    allowed. *)
Fixpoint retry_from {A} (wait : nat -> Z) (retry_if : exn -> bool)
    (remaining attempt_number : nat) (f : M net A) : M net A :=
  fun w =>
    match f w with
    | (Ok a, w') => (Ok a, w')
    | (Raise e, w') =>
        if retry_if e then
          match remaining with
          | O => (Raise e, w')
          | S r =>
              match sleep (wait attempt_number) w' with
              | (_, w'') => retry_from wait retry_if r (S attempt_number) f w''
              end
          end
        else (Raise e, w')
    end.

Definition tenacity_retry {A} (stop_after_attempt : nat) (wait : nat -> Z)
    (retry_if : exn -> bool) (f : M net A) : M net A :=
  retry_from wait retry_if (stop_after_attempt - 1) 1 f.

(** [wait_exponential(multiplier, min, max)] with the default base 2,
    in milliseconds: [max(max(0, min), min(multiplier * 2**(n-1), max))]
    for attempt number [n]. *)
Definition wait_exponential (multiplier min_ms max_ms : Z) (attempt_number : nat) : Z :=
  Z.max (Z.max 0 min_ms)
        (Z.min (multiplier * 2 ^ (Z.of_nat attempt_number - 1)) max_ms).

(** [retry_if_exception_type(HttpError)]. *)
Definition is_HttpError (e : exn) : bool :=
  match e with
  | HttpError _ _ => true
  | _ => false
  end.

(** The decorator as written on lines 10 and 19:
    [stop_after_attempt(4)], [wait_exponential(multiplier=0.5, min=1, max=8)],
    [retry_if_exception_type(HttpError)]. *)
Definition http_retry {A} (f : M net A) : M net A :=
  tenacity_retry 4 (wait_exponential 500 1000 8000) is_HttpError f.

Definition get_with {A} (decode : response -> outcome A) (req : request) : M net A :=
  http_retry (get_once decode req).

(** Lines 10-16 and 19-25. *)
Definition get_json (req : request) : M net json := get_with resp_json req.
Definition get_text (req : request) : M net string :=
  get_with (fun r => Ok (text r)) req.

(** The retry policy in the words of the specification: an HTTP status of
    500 or more and a transport-level failure are both retried, and the
    backoff starts at 0.5 s and is capped at 8 s. *)
Definition spec_retryable (e : exn) : bool :=
  match e with
  | HttpError _ _ | RequestsConnectionError => true
  | _ => false
  end.

Definition spec_backoff (attempt_number : nat) : Z :=
  Z.min (500 * 2 ^ (Z.of_nat attempt_number - 1)) 8000.

Definition get_with_spec {A} (decode : response -> outcome A) (req : request) : M net A :=
  tenacity_retry 4 spec_backoff spec_retryable (get_once decode req).

Definition get_json_spec (req : request) : M net json := get_with_spec resp_json req.

End Http.

Arguments requests_get {request} server req w.
Arguments get_once {request} server {A} decode req w.
Arguments get_with {request} server {A} decode req w.
Arguments get_with_spec {request} server {A} decode req w.
Arguments get_json {request} server resp_json req w.
Arguments get_json_spec {request} server resp_json req w.
Arguments get_text {request} server req w.

(** The reply to request number [i] is a response with a status of 500 or
    more. *)
Definition server_error_at {request} (server : request -> nat -> reply)
    (req : request) (i : nat) : Prop :=
  exists r, server req i = Response r /\ (500 <= status_code r)%Z.

(** The retry behaviour of a wrapped call [call] that decodes a good
    response with [decode], started on a fresh network.  The first of the
    four replies that is not a server error decides the call:
    - between one and four requests are sent;
    - [k < 4] responses with a status of 500 or more followed by a response
      with a status in 400..499 raise [requests.HTTPError] for that response
      at once: [k + 1] requests, the [k] pauses taken before it, none after;
    - [k < 4] such responses followed by a transport failure raise it at once
      in the same way;
    - [k < 4] such responses followed by a response with a status below 400
      give the decoded response after [k] pauses of 1 s, 1 s and 2 s;
    - four responses with a status of 500 or more raise the [HttpError] of
      the fourth, after pauses of 1 s, 1 s and 2 s. *)
Definition retry_policy {request A} (server : request -> nat -> reply)
    (decode : response -> outcome A) (req : request) (call : M net A) : Prop :=
  (1 <= sent (snd (call net0)) <= 4)
  /\ (forall k r, k < 4 ->
        (forall i, i < k -> server_error_at server req i) ->
        server req k = Response r -> (400 <= status_code r < 500)%Z ->
        call net0 = (Raise (RequestsHTTPError (status_code r)),
                     {| sent := S k; pauses := take k [1000; 1000; 2000]%Z |}))
  /\ (forall k, k < 4 ->
        (forall i, i < k -> server_error_at server req i) ->
        server req k = TransportFailure ->
        call net0 = (Raise RequestsConnectionError,
                     {| sent := S k; pauses := take k [1000; 1000; 2000]%Z |}))
  /\ (forall k r, k < 4 ->
        (forall i, i < k -> server_error_at server req i) ->
        server req k = Response r -> (status_code r < 400)%Z ->
        call net0 = (decode r,
                     {| sent := S k; pauses := take k [1000; 1000; 2000]%Z |}))
  /\ ((forall i, i < 4 -> server_error_at server req i) ->
        exists r, server req 3 = Response r
          /\ call net0 = (Raise (HttpError (status_code r) (str_take 200 (text r))),
                          {| sent := 4; pauses := [1000; 1000; 2000]%Z |})).

(** [decode] never raises the package's own [HttpError]; true of
    [Response.json()] and of [Response.text], which know nothing of it. *)
Definition foreign_decoder {A} (decode : response -> outcome A) : Prop :=
  forall r e, decode r = Raise e -> is_HttpError e = false.

(** Two servers used as test inputs: three 503 responses and then a 200,
    and a connection that fails once before a 200 arrives. *)
Definition busy_then_ok (_ : unit) (n : nat) : reply :=
  if n <? 3 then Response {| status_code := 503; text := "busy" |}
  else Response {| status_code := 200; text := "payload" |}.

Definition not_found (_ : unit) (_ : nat) : reply :=
  Response {| status_code := 404; text := "missing" |}.

(** One 503 and then a 404; two 503 and then a connection that fails. *)
Definition busy_then_missing (_ : unit) (n : nat) : reply :=
  if n =? 0 then Response {| status_code := 503; text := "busy" |}
  else Response {| status_code := 404; text := "missing" |}.

Definition busy_then_down (_ : unit) (n : nat) : reply :=
  if n <? 2 then Response {| status_code := 503; text := "busy" |}
  else TransportFailure.

Definition flaky_then_ok (_ : unit) (n : nat) : reply :=
  if n =? 0 then TransportFailure
  else Response {| status_code := 200; text := "payload" |}.

(** A stand-in decoder for tests: the body as a JSON string. *)
Definition body_as_json (r : response) : outcome json := Ok (JStr (text r)).

(** ** Python truthiness and dictionary access *)

Definition str_truthy (s : string) : bool := negb (str_is_empty s).

(** Truthiness of an optional string: [None] and [''] are false. *)
Definition opt_truthy (o : option string) : bool :=
  match o with
  | Some s => str_truthy s
  | None => false
  end.

Definition json_truthy (v : json) : bool :=
  match v with
  | JNull => false
  | JBool b => b
  | JNum n => negb (n =? 0)%Z
  | JStr s => str_truthy s
  | JArr items => match items with [] => false | _ => true end
  | JObj fields => match fields with [] => false | _ => true end
  end.

(** Lookup in the field list of an object. *)
Fixpoint dict_get (fields : list (string * json)) (key : string) : option json :=
  match fields with
  | [] => None
  | (k, v) :: rest => if String.eqb k key then Some v else dict_get rest key
  end.

(** [any(s in dom for s in hosts)]. *)
Definition mentions_any (hosts : list string) (dom : string) : bool :=
  existsb (fun s => str_contains s dom) hosts.

(** ** pipeline.py: choosing the primary URL (lines 28-38) *)

(** One search result of [GoogleClients.search]; a field is [None] when the
    key is missing or null. *)
Record cse_item := {
  item_title : option string;
  item_link : option string;
  item_snippet : option string
}.

(** The list on line 35. *)
Definition primary_blocklist : list string :=
  ["facebook.com"; "instagram.com"; "linkedin.com"; "x.com"; "twitter.com"; "yelp.com"].

(** The social platforms named by the specification. *)
Definition spec_social_platforms : list string :=
  ["facebook.com"; "instagram.com"; "linkedin.com"; "x.com"; "twitter.com";
   "youtube.com"; "tiktok.com"].

(** A scraped page, the dictionary returned by [scraper.extract_text]. *)
Record page := {
  page_url : string;
  page_text : string;
  page_links : list string
}.

(** A social-profile stub (line 91). *)
Record social_profile := {
  social_url : string;
  social_platform : string
}.

(** The outcome of the scraping block (lines 52-94). *)
Record scrape_result := {
  scraped_pages : list page;
  social_profiles : list social_profile
}.

(** The list on line 71. *)
Definition social_hosts : list string :=
  ["facebook.com"; "instagram.com"; "linkedin.com"; "twitter.com"; "x.com";
   "youtube.com"; "tiktok.com"].

Section Pipeline.

(** [scraper.extract_domain], a wrapper of the tldextract library: the
    registrable domain of a URL. *)
Variable extract_domain : string -> string.

(** Lines 33-35: the test a search result passes to become the primary URL. *)
Definition official_link (item : cse_item) : bool :=
  let link := item_link item in
  let dom := if opt_truthy link then extract_domain (default EmptyString link)
             else EmptyString in
  str_truthy dom && negb (mentions_any primary_blocklist dom).

(** Lines 32-37: the loop with its [break]. *)
Fixpoint first_official (cse_items : list cse_item) : option string :=
  match cse_items with
  | [] => None
  | item :: rest =>
      if official_link item then item_link item else first_official rest
  end.

(** Lines 29-38. *)
Definition pick_primary_url (cse_items : list cse_item) : option string :=
  match cse_items with
  | [] => None
  | first :: _ =>
      match first_official cse_items with
      | Some link => Some link
      | None => item_link first
      end
  end.

(** The rule in the words of the specification: the first result whose
    registrable domain is not a known social platform, else the first
    result. *)
Definition spec_non_social (item : cse_item) : bool :=
  match item_link item with
  | Some link => negb (existsb (String.eqb (extract_domain link)) spec_social_platforms)
  | None => false
  end.

Definition pick_primary_spec (cse_items : list cse_item) : option string :=
  match cse_items with
  | [] => None
  | first :: _ =>
      match find spec_non_social cse_items with
      | Some item => item_link item
      | None => item_link first
      end
  end.

(** A result is eligible when it has a non-empty link whose registrable
    domain is non-empty and contains none of the names of
    [primary_blocklist]. *)
Definition eligible (item : cse_item) : Prop :=
  exists link,
    item_link item = Some link
    /\ link <> EmptyString
    /\ extract_domain link <> EmptyString
    /\ forall s, In s primary_blocklist -> str_contains s (extract_domain link) = false.

(** *** Scraping the primary site (lines 52-94) *)

Context {World : Type}.

(** [scraper.extract_text]: fetch and parse one page.  It reads the network,
    so it runs in the world, and it may raise. *)
Variable extract_text : string -> M World page.

(** Lines 65-72: the links of the first page on the primary domain, and
    those on a social host. *)
Definition is_internal (primary_url link : string) : bool :=
  String.eqb (extract_domain link) (extract_domain primary_url).

Definition is_social (primary_url link : string) : bool :=
  negb (is_internal primary_url link)
  && mentions_any social_hosts (extract_domain link).

Definition internal_links (primary_url : string) (first : page) : list string :=
  filter (fun link => is_internal primary_url link = true) (page_links first).

Definition social_links (primary_url : string) (first : page) : list string :=
  filter (fun link => is_social primary_url link = true) (page_links first).

(** Lines 76-85: the loop over the internal links.  A fetch that raises is
    skipped by [continue], which also skips the length test; a fetch that
    succeeds appends the page and leaves the loop once 12 pages are held. *)
Fixpoint scrape_internal (links : list string) (scraped : list page)
    (w : World) : list page * World :=
  match links with
  | [] => (scraped, w)
  | link :: rest =>
      match extract_text link w with
      | (Ok page_data, w') =>
          let scraped' := scraped ++ [page_data] in
          if 12 <=? length scraped' then (scraped', w')
          else scrape_internal rest scraped' w'
      | (Raise _, w') => scrape_internal rest scraped w'
      end
  end.

(** Lines 56-94, for a primary URL that is present. *)
Definition scrape_site (primary_url : string) : M World scrape_result :=
  let* first := extract_text primary_url in
  fun w =>
    let '(scraped, w') :=
      scrape_internal (take 12 (internal_links primary_url first)) [first] w in
    let socials :=
      map (fun link => {| social_url := link; social_platform := extract_domain link |})
          (take 5 (social_links primary_url first)) in
    (Ok {| scraped_pages := scraped; social_profiles := socials |}, w').

(** Lines 53-94: nothing is scraped when the primary URL is falsy. *)
Definition scrape_block (primary_url : option string) : M World scrape_result :=
  match primary_url with
  | Some url =>
      if str_truthy url then scrape_site url
      else ret {| scraped_pages := []; social_profiles := [] |}
  | None => ret {| scraped_pages := []; social_profiles := [] |}
  end.

(** Lines 115 and 167: [totalPagesScraped] and [pagesScraped]. *)
Definition pages_scraped (res : scrape_result) : nat := length (scraped_pages res).

End Pipeline.

(** The values of [extract_domain] on the URLs used as test inputs. *)
Definition sample_domain (url : string) : string :=
  if String.prefix "https://www.youtube.com/" url then "youtube.com"
  else if String.prefix "https://www.acme.com" url then "acme.com"
  else if String.prefix "https://www.facebook.com/" url then "facebook.com"
  else EmptyString.

Definition link_only (url : string) : cse_item :=
  {| item_title := None; item_link := Some url; item_snippet := None |}.

(** A test site: the home page links to fourteen pages of its own and to a
    social profile; the second page cannot be fetched.  The world counts the
    fetches made. *)
Definition acme_links : list string :=
  ["https://www.acme.com/p01"; "https://www.acme.com/p02";
   "https://www.acme.com/p03"; "https://www.acme.com/p04";
   "https://www.acme.com/p05"; "https://www.acme.com/p06";
   "https://www.acme.com/p07"; "https://www.acme.com/p08";
   "https://www.acme.com/p09"; "https://www.acme.com/p10";
   "https://www.acme.com/p11"; "https://www.acme.com/p12";
   "https://www.acme.com/p13"; "https://www.acme.com/p14";
   "https://www.facebook.com/acme"].

Definition acme_fetch (url : string) : M nat page :=
  fun fetches =>
    (if String.eqb url "https://www.acme.com"
     then Ok {| page_url := url; page_text := "Acme"; page_links := acme_links |}
     else if String.eqb url "https://www.acme.com/p02"
     then Raise (RequestsHTTPError 404)
     else Ok {| page_url := url; page_text := "page"; page_links := [] |},
     S fetches).

Definition video_first : list cse_item :=
  [link_only "https://www.youtube.com/@acme"; link_only "https://www.acme.com/"].

(** ** bulk.py: [find_businesses] (lines 13-62) *)

(** One entry of a nearby-places result.  [place_id] is [None] when the
    entry has no ['place_id'] key; a key that is present with an empty or
    null value is [Some ""]. *)
Record place := {
  place_id : option string;
  place_name : option string;
  place_vicinity : option string
}.

(** What the Places API returns for one radius: the first result page and
    the pages reached through each [next_page_token], or a request that
    raises. *)
Inductive nearby_pages :=
| NearbyFails (e : exn)
| LastPage (results : list place)
| MorePages (results : list place) (next_page_token : string) (rest : nearby_pages).

(** [l[:n]] for a Python integer [n]. *)
Definition slice_to {A} (n : Z) (l : list A) : list A :=
  if (0 <=? n)%Z then take (Z.to_nat n) l
  else take (length l - Z.to_nat (- n)) l.

Section Bulk.

(** A geocoded location (latitude and longitude). *)
Variable location : Type.
(** [GoogleClients.geocode_address], reduced to the locations of its
    results. *)
Variable geocode_address : string -> outcome (list location).
(** [GoogleClients.places_nearby] for a location, a radius in metres and a
    keyword, with the pages that follow. *)
Variable places_nearby : location -> Z -> string -> nearby_pages.

Variable target_count : Z.

(** Lines 34-38 and 45-49: entries with a ['place_id'] key are appended
    until [target_count] entries are held. *)
Fixpoint collect (items : list place) (businesses : list place) : list place :=
  match items with
  | [] => businesses
  | it :: rest =>
      match place_id it with
      | Some _ =>
          let businesses' := businesses ++ [it] in
          if (target_count <=? Z.of_nat (length businesses'))%Z then businesses'
          else collect rest businesses'
      | None => collect rest businesses
      end
  end.

(** Lines 32-50: the first page of a radius and then, while a page token is
    present and the target is not reached, the next page. *)
Fixpoint walk_pages (pages : nearby_pages) (businesses : list place)
    : outcome (list place) :=
  match pages with
  | NearbyFails e => Raise e
  | LastPage results => Ok (collect results businesses)
  | MorePages results token rest =>
      let businesses' := collect results businesses in
      if str_truthy token && (Z.of_nat (length businesses') <? target_count)%Z
      then walk_pages rest businesses'
      else Ok businesses'
  end.

(** Lines 31-52: the loop over radii; [rounds_left] is [6 - tried_radii]. *)
Fixpoint search_rounds (loc : location) (genre : string) (rounds_left : nat)
    (radius : Z) (businesses : list place) : outcome (list place) :=
  match rounds_left with
  | O => Ok businesses
  | S n =>
      if (Z.of_nat (length businesses) <? target_count)%Z && (radius <=? 100000)%Z
      then
        match walk_pages (places_nearby loc radius genre) businesses with
        | Ok businesses' => search_rounds loc genre n (radius * 2) businesses'
        | Raise e => Raise e
        end
      else Ok businesses
  end.

(** Lines 54-61: one entry per place id, the first seen. *)
Fixpoint dedupe (seen : gset string) (businesses : list place) : list place :=
  match businesses with
  | [] => []
  | b :: rest =>
      match place_id b with
      | Some pid =>
          if str_truthy pid && bool_decide (pid ∉ seen)
          then b :: dedupe ({[pid]} ∪ seen) rest
          else dedupe seen rest
      | None => dedupe seen rest
      end
  end.

(** The entries gathered by the radius loop, before de-duplication. *)
Definition gather (zip_code genre : string) : outcome (list place) :=
  match geocode_address zip_code with
  | Raise e => Raise e
  | Ok [] => Raise (RuntimeError ("Could not geocode " +:+ zip_code))
  | Ok (loc :: _) => search_rounds loc genre 6 5000 []
  end.

Definition find_businesses (zip_code genre : string) : outcome (list place) :=
  match gather zip_code genre with
  | Ok businesses => Ok (slice_to target_count (dedupe ∅ businesses))
  | Raise e => Raise e
  end.

End Bulk.

Arguments search_rounds {location} places_nearby target_count loc genre rounds_left
  radius businesses.
Arguments gather {location} geocode_address places_nearby target_count zip_code genre.
Arguments find_businesses {location} geocode_address places_nearby target_count
  zip_code genre.

(** No request of the page sequence raises. *)
Fixpoint pages_answer (pages : nearby_pages) : Prop :=
  match pages with
  | NearbyFails _ => False
  | LastPage _ => True
  | MorePages _ _ rest => pages_answer rest
  end.

(** The first entry of [businesses] that carries the place id [pid]. *)
Definition first_with_id (pid : string) (businesses : list place) : option place :=
  find (fun b => bool_decide (place_id b = Some pid)) businesses.

(** Test input: two result pages that share a place, then nothing new. *)
Definition shop (pid : string) : place :=
  {| place_id := Some pid; place_name := Some "Shop"; place_vicinity := None |}.

Definition unnamed_place : place :=
  {| place_id := None; place_name := Some "Kiosk"; place_vicinity := None |}.

Definition overlapping_pages (_ : unit) (_ : Z) (_ : string) : nearby_pages :=
  MorePages [shop "a"; unnamed_place; shop "b"] "t1"
    (LastPage [shop "b"; shop "c"; shop "a"; shop "d"]).

Definition one_location (_ : string) : outcome (list unit) := Ok [tt].

(** An entry with a ['place_id'] key (line 35). *)
Definition carries_id (b : place) : bool :=
  match place_id b with
  | Some _ => true
  | None => false
  end.

(** The entries of the result pages of one radius, in the order in which
    the service delivers them: a page is followed by the next one when it
    comes with a page token. *)
Fixpoint page_entries (pages : nearby_pages) : list place :=
  match pages with
  | NearbyFails _ => []
  | LastPage results => results
  | MorePages results token rest =>
      results ++ (if str_truthy token then page_entries rest else [])
  end.

(** The radii of the loop of lines 31-52: doubling from [radius], at most
    [rounds_left] of them and none above 100 km. *)
Fixpoint radii (rounds_left : nat) (radius : Z) : list Z :=
  match rounds_left with
  | O => []
  | S n => if (radius <=? 100000)%Z then radius :: radii n (radius * 2) else []
  end.

(** Everything the result pages hold for a location, nearest radius
    first. *)
Definition delivered {location} (places_nearby : location -> Z -> string -> nearby_pages)
    (loc : location) (genre : string) : list place :=
  flat_map (fun radius => page_entries (places_nearby loc radius genre))
           [5000; 10000; 20000; 40000; 80000]%Z.

(** [b] stands at position [j] of [bs] and no earlier entry has its place
    id: [b] is the first entry seen with that id. *)
Definition first_seen_at (bs : list place) (j : nat) (b : place) : Prop :=
  bs !! j = Some b
  /\ forall k b', k < j -> bs !! k = Some b' -> place_id b' <> place_id b.

(** ** Python method calls on JSON values *)

(** [v.get(key)]: only dictionaries have the method. *)
Definition py_get (v : json) (key : string) : outcome (option json) :=
  match v with
  | JObj fields => Ok (dict_get fields key)
  | _ => Raise AttributeError
  end.

(** [v.get(key, dflt)]. *)
Definition py_get_default (v : json) (key : string) (dflt : json) : outcome json :=
  match v with
  | JObj fields => Ok (default dflt (dict_get fields key))
  | _ => Raise AttributeError
  end.

(** The value of [d.get(key)] as JSON: a missing key gives [None]. *)
Definition opt_json (o : option json) : json := default JNull o.

Definition opt_str_json (o : option string) : json :=
  match o with
  | Some s => JStr s
  | None => JNull
  end.

(** [v or alt]. *)
Definition json_or (v alt : json) : json := if json_truthy v then v else alt.

(** ** pipeline.py: the JSON-LD document (lines 138-154) *)

Definition slash : ascii := "/"%char.

(** Line 144.  The conditional expression binds weaker than [or]:
    [(org.get('url','').rstrip('/') or primary_url.rstrip('/'))
       if primary_url else ''], followed by ["#organization"]. *)
Definition org_id (org : list (string * json)) (primary_url : option string)
    : outcome string :=
  if opt_truthy primary_url then
    match default (JStr EmptyString) (dict_get org "url") with
    | JStr url =>
        let stripped := rstrip slash url in
        Ok ((if str_truthy stripped then stripped
             else rstrip slash (default EmptyString primary_url))
            +:+ "#organization")
    | _ => Raise AttributeError
    end
  else Ok (EmptyString +:+ "#organization").

Definition org_node (org : list (string * json)) (primary_url : option string)
    (id : string) : list (string * json) :=
  [("@type", JStr "Organization");
   ("@id", JStr id);
   ("name", opt_json (dict_get org "name"));
   ("url", json_or (opt_json (dict_get org "url")) (opt_str_json primary_url));
   ("telephone", opt_json (dict_get org "phone"));
   ("description", opt_json (dict_get org "description"));
   ("sameAs", json_or (opt_json (dict_get org "social")) (JArr []));
   ("address", json_or (opt_json (dict_get org "address")) JNull);
   ("openingHoursSpecification", json_or (opt_json (dict_get org "hours")) JNull)].

Definition org_graph (profile : json) (primary_url : option string) : outcome json :=
  match py_get_default profile "organization" (JObj []) with
  | Raise e => Raise e
  | Ok (JObj org) =>
      match org_id org primary_url with
      | Raise e => Raise e
      | Ok id =>
          Ok (JObj [("@context", JStr "https://schema.org");
                    ("@graph", JArr [JObj (org_node org primary_url id)])])
      end
  | Ok _ => Raise AttributeError
  end.

(** The node in the words of the specification: the id is built from the
    organization URL, or from the primary URL when that is absent, and the
    seven fields are the profile's, null when absent. *)
Definition spec_org_node (org : list (string * json)) (primary_url : option string)
    : list (string * json) :=
  let base :=
    match dict_get org "url" with
    | Some (JStr url) => url
    | _ => default EmptyString primary_url
    end in
  [("@type", JStr "Organization");
   ("@id", JStr (rstrip slash base +:+ "#organization"));
   ("name", opt_json (dict_get org "name"));
   ("url", opt_json (dict_get org "url"));
   ("telephone", opt_json (dict_get org "phone"));
   ("description", opt_json (dict_get org "description"));
   ("sameAs", opt_json (dict_get org "social"));
   ("address", opt_json (dict_get org "address"));
   ("openingHoursSpecification", opt_json (dict_get org "hours"))].

(** Test input: a profile that names the organization and nothing else. *)
Definition name_only_org : list (string * json) := [("name", JStr "Acme")].
Definition name_only_profile : json := JObj [("organization", JObj name_only_org)].

(** ** pipeline.py: where the artifacts go (lines 126-135, 155) *)

(** A [pathlib] path as its components; an absolute path starts with the
    component ["/"]. *)
Definition path := list string.

Fixpoint split_slash (cur : string) (s : string) : list string :=
  match s with
  | EmptyString => [cur]
  | String c s' =>
      if Ascii.eqb c slash then cur :: split_slash EmptyString s'
      else split_slash (cur +:+ String c EmptyString) s'
  end.

(** The components a string contributes: empty components and ["."] are
    dropped. *)
Definition components (s : string) : list string :=
  List.filter (fun p => negb (String.eqb p EmptyString) && negb (String.eqb p "."))
              (split_slash EmptyString s).

(** [base / segment]: an absolute segment replaces the base. *)
Definition path_div (base : path) (segment : string) : path :=
  if String.prefix "/" segment then "/" :: components segment
  else base ++ components segment.

(** [Path(s)]. *)
Definition Path (s : string) : path := path_div [] s.

Inductive fs_op :=
| Mkdir (p : path)
| WriteFile (p : path) (content : string).

(** Line 126: the text the slug is made from,
    [profile.get('organization', {}).get('name') or query]; [slugify] then
    calls [lower] on it, which only strings have. *)
Definition slug_source (profile : json) (query : string) : outcome string :=
  match py_get_default profile "organization" (JObj []) with
  | Raise e => Raise e
  | Ok org =>
      match py_get org "name" with
      | Raise e => Raise e
      | Ok name =>
          if json_truthy (opt_json name) then
            match opt_json name with
            | JStr s => Ok s
            | _ => Raise AttributeError
            end
          else Ok query
      end
  end.

Definition output_base (out_dir : string) (profile : json) (query : string)
    : outcome path :=
  match slug_source profile query with
  | Raise e => Raise e
  | Ok text => Ok (path_div (Path out_dir) (slugify text))
  end.

(** Lines 127-135 and 155: the directories made and the files written under
    [base], in order.  The contents are the serialized artifacts. *)
Definition write_outputs (base : path) (sources profile training : string)
    (md : list (string * string)) (jsonld : string) : list fs_op :=
  [Mkdir (path_div base "content");
   Mkdir (path_div base "jsonld");
   WriteFile (path_div base "sources.json") sources;
   WriteFile (path_div base "profile.json") profile;
   WriteFile (path_div base "training.json") training]
  ++ map (fun '(name, body) => WriteFile (path_div (path_div base "content") name) body) md
  ++ [WriteFile (path_div (path_div base "jsonld") "organization.jsonld") jsonld].

(** ** Text outside Latin-1

    The strings above hold code points below 256.  A name or a query may
    hold any code point.  For [slugify] this matters through [str.lower]
    alone: the two regular expressions and [strip] treat every code point
    outside [[a-z0-9-]] alike. *)

(** The code points of a string. *)
Fixpoint points (s : string) : list N :=
  match s with
  | EmptyString => []
  | String c s' => N_of_ascii c :: points s'
  end.

(** The string of a list of code points below 256. *)
Fixpoint string_of_points (t : list N) : string :=
  match t with
  | [] => EmptyString
  | cp :: rest => String (ascii_of_N cp) (string_of_points rest)
  end.

(** The class [[a-z0-9]], and the ASCII letters and digits, on code
    points. *)
Definition is_az09_point (cp : N) : bool :=
  ((97 <=? cp)%N && (cp <=? 122)%N) || ((48 <=? cp)%N && (cp <=? 57)%N).

Definition is_ascii_alnum_point (cp : N) : bool :=
  ((97 <=? cp)%N && (cp <=? 122)%N) || ((65 <=? cp)%N && (cp <=? 90)%N)
  || ((48 <=? cp)%N && (cp <=? 57)%N).

Definition hyphen_point : N := 45.

(** [re.sub(r'[cls]+', repl, t)], [t.lstrip(ch)] and [t.rstrip(ch)] on code
    points, as [re_sub_class_plus], [lstrip] and [rstrip] above. *)
Fixpoint sub_points (cls : N -> bool) (repl : list N) (in_run : bool) (t : list N)
    : list N :=
  match t with
  | [] => []
  | cp :: rest =>
      if cls cp then
        if in_run then sub_points cls repl true rest
        else repl ++ sub_points cls repl true rest
      else cp :: sub_points cls repl false rest
  end.

Fixpoint lstrip_points (ch : N) (t : list N) : list N :=
  match t with
  | [] => []
  | cp :: rest => if (cp =? ch)%N then lstrip_points ch rest else t
  end.

Fixpoint rstrip_points (ch : N) (t : list N) : list N :=
  match t with
  | [] => []
  | cp :: rest =>
      let r := rstrip_points ch rest in
      if (cp =? ch)%N && (match r with [] => true | _ :: _ => false end)
      then [] else cp :: r
  end.

Section Unicode.

(** [str.lower] on a code point from 256 up other than U+0130 and U+212A,
    given the text before and after it (the lower-case form of U+03A3
    depends on its neighbours).  Its values come from the Unicode character
    database. *)
Variable unicode_lower : list N -> N -> list N -> list N.

(** [str.lower] on one code point.  Outside Latin-1 two code points
    lower-case into text that holds an ASCII letter: U+0130 gives ["i"]
    followed by U+0307, and U+212A, the Kelvin sign, gives ["k"]. *)
Definition lower_point (before : list N) (cp : N) (after : list N) : list N :=
  if (cp <? 256)%N then [N_of_ascii (lower_char (ascii_of_N cp))]
  else if (cp =? 304)%N then [105; 775]%N
  else if (cp =? 8490)%N then [107]%N
  else unicode_lower before cp after.

Fixpoint lower_from (before t : list N) : list N :=
  match t with
  | [] => []
  | cp :: rest => lower_point before cp rest ++ lower_from (before ++ [cp]) rest
  end.

Definition lower_text (t : list N) : list N := lower_from [] t.

(** Lines 15-18 of pipeline.py, on any text. *)
Definition slugify_text (t : list N) : list N :=
  let t := lower_text t in
  let t := sub_points (fun cp => negb (is_az09_point cp)) [hyphen_point] false t in
  rstrip_points hyphen_point
    (lstrip_points hyphen_point (sub_points (N.eqb hyphen_point) [hyphen_point] false t)).

(** Line 126, [Path(out_dir) / slugify(text)], for the text [t] that
    [profile.get('organization', {}).get('name') or query] gives. *)
Definition output_base_text (out_dir : string) (t : list N) : path :=
  path_div (Path out_dir) (string_of_points (slugify_text t)).

End Unicode.

(** Test inputs: a stand-in for the Unicode tables that leaves a code point
    as it is, the Kelvin sign, and the name U+00C7 U+0130 U+011F. *)
Definition keep_point (_ : list N) (cp : N) (_ : list N) : list N := [cp].
Definition kelvin_sign : list N := [8490%N].
Definition dotted_name : list N := [199; 304; 287]%N.

(** Every character of [s] satisfies [p]. *)
Fixpoint str_all (p : ascii -> bool) (s : string) : bool :=
  match s with
  | EmptyString => true
  | String c s' => p c && str_all p s'
  end.

(** ** Pure code that may raise *)

Definition bind_outcome {A B} (m : outcome A) (k : A -> outcome B) : outcome B :=
  match m with
  | Ok a => k a
  | Raise e => Raise e
  end.

Notation "'let?' x ':=' m 'in' k" := (bind_outcome m (fun x => k))
  (at level 10, x pattern, m at level 100, k at level 200).

(** A list comprehension whose element expression may raise: the elements
    are evaluated in order and the first exception ends the evaluation. *)
Fixpoint map_outcome {A B} (f : A -> outcome B) (l : list A) : outcome (list B) :=
  match l with
  | [] => Ok []
  | x :: rest =>
      let? y := f x in
      let? ys := map_outcome f rest in
      Ok (y :: ys)
  end.

(** The one-character strings of a string. *)
Fixpoint str_chars (s : string) : list string :=
  match s with
  | EmptyString => []
  | String c s' => String c EmptyString :: str_chars s'
  end.

(** Iterating over a value: a list gives its items, a string its
    characters, a dictionary its keys; nothing else is iterable. *)
Definition py_iter (v : json) : outcome (list json) :=
  match v with
  | JArr items => Ok items
  | JStr s => Ok (map JStr (str_chars s))
  | JObj fields => Ok (map (fun kv => JStr (fst kv)) fields)
  | _ => Raise TypeError
  end.

(** [sep.join(v)]: every item must be a string. *)
Definition py_join (sep : string) (v : json) : outcome string :=
  let? items := py_iter v in
  let? strs := map_outcome (fun x => match x with
                                     | JStr s => Ok s
                                     | _ => Raise TypeError
                                     end) items in
  Ok (String.concat sep strs).

(** ** openai_synth.py: [render_markdown_outputs] (lines 170-230) *)

Definition nl : string := String (ascii_of_nat 10) EmptyString.

Definition cat (pieces : list string) : string := String.concat EmptyString pieces.

Section Render.

(** The text of a value that is not a string inside an f-string
    ([str(None)], [str(3)], ...). *)
Variable py_repr : json -> string.
(** [str.title]. *)
Variable py_title : string -> string.

(** A value interpolated in an f-string. *)
Definition fmt (v : json) : string :=
  match v with
  | JStr s => s
  | _ => py_repr v
  end.

(** [d.get(key, '')] for a dictionary [d]. *)
Definition get_or_empty (d : list (string * json)) (key : string) : json :=
  default (JStr EmptyString) (dict_get d key).

(** [(text if d.get(key) else '')]. *)
Definition when_present (d : list (string * json)) (key : string)
    (text : outcome string) : outcome string :=
  if json_truthy (opt_json (dict_get d key)) then text else Ok EmptyString.

(** [heading + "\n- ".join(d.get(key) or []) + "\n\n"], when [d.get(key)]
    is truthy. *)
Definition bullet_list (d : list (string * json)) (key heading : string)
    : outcome string :=
  when_present d key
    (let? joined := py_join (nl +:+ "- ") (opt_json (dict_get d key)) in
     Ok (cat [heading; joined; nl; nl])).

(** Lines 181-189, the text of one service. *)
Definition service_md (s : json) : outcome string :=
  match s with
  | JObj d =>
      let? details := when_present d "details"
          (Ok (cat ["### Details"; nl; fmt (get_or_empty d "details"); nl; nl])) in
      let? bullets := bullet_list d "bullets" (cat ["### Key Features:"; nl; "- "]) in
      let? benefits := bullet_list d "benefits" (cat ["### Benefits:"; nl; "- "]) in
      let? duration := when_present d "duration"
          (Ok (cat ["**Duration:** "; fmt (opt_json (dict_get d "duration")); nl; nl])) in
      let? pricing := when_present d "pricing"
          (Ok (cat ["**Pricing:** "; fmt (opt_json (dict_get d "pricing")); nl; nl])) in
      Ok (cat ["## "; fmt (get_or_empty d "name"); nl; nl;
               fmt (get_or_empty d "summary"); nl; nl;
               details; bullets; benefits; duration; pricing])
  | _ => Raise AttributeError
  end.

(** Lines 191-194, one question and its answer. *)
Definition faq_md (f : json) : outcome string :=
  match f with
  | JObj d => Ok (cat ["### "; fmt (get_or_empty d "q"); nl; nl; fmt (get_or_empty d "a")])
  | _ => Raise AttributeError
  end.

(** Lines 201-205, one team member. *)
Definition member_md (member : json) : outcome string :=
  match member with
  | JObj d =>
      let? specialties := when_present d "specialties"
          (let? joined := py_join ", " (default (JArr []) (dict_get d "specialties")) in
           Ok (cat ["**Specialties:** "; joined; nl; nl])) in
      Ok (cat ["## "; fmt (get_or_empty d "name"); nl;
               "**"; fmt (get_or_empty d "role"); "**"; nl; nl;
               fmt (get_or_empty d "bio"); nl; nl; specialties])
  | _ => Raise AttributeError
  end.

(** Lines 210-216, one product.  The category is appended with [+], which
    only accepts a string. *)
Definition product_md (p : json) : outcome string :=
  match p with
  | JObj d =>
      let? category := when_present d "category"
          (match get_or_empty d "category" with
           | JStr c => Ok (cat ["**Category:** "; c; nl; nl])
           | _ => Raise TypeError
           end) in
      let? features := when_present d "features"
          (let? joined := py_join (nl +:+ "- ") (default (JArr []) (dict_get d "features")) in
           Ok (cat ["**Features:**"; nl; "- "; joined; nl; nl])) in
      let? pricing := when_present d "pricing"
          (Ok (cat ["**Pricing:** "; fmt (opt_json (dict_get d "pricing")); nl; nl])) in
      Ok (cat ["## "; fmt (get_or_empty d "name"); nl; nl;
               fmt (get_or_empty d "description"); nl; nl;
               category; features; pricing])
  | _ => Raise AttributeError
  end.

(** [heading + "\n\n".join([item_md(x) for x in v])]. *)
Definition section_md (heading : string) (item_md : json -> outcome string) (v : json)
    : outcome string :=
  let? items := py_iter v in
  let? texts := map_outcome item_md items in
  Ok (heading +:+ String.concat (nl +:+ nl) texts).

(** [(heading + ... ) if v else ""], lines 198-205 and 208-216. *)
Definition optional_section (heading : string) (item_md : json -> outcome string)
    (v : json) : outcome string :=
  if json_truthy v then section_md heading item_md v else Ok EmptyString.

Definition render_markdown_outputs (profile : json) : outcome (list (string * string)) :=
  let? org := py_get_default profile "organization" (JObj []) in
  let? services := py_get_default profile "services" (JArr []) in
  let? faqs := py_get_default profile "faqs" (JArr []) in
  let? voice := py_get_default profile "voice" (JObj []) in
  let? team := py_get_default profile "team" (JArr []) in
  let? products := py_get_default profile "products" (JArr []) in
  let? org_name := py_get_default org "name" (JStr EmptyString) in
  let? org_description := py_get_default org "description" (JStr EmptyString) in
  let about := cat ["# About "; fmt org_name; nl; nl; fmt org_description; nl] in
  let? services_md := section_md (cat ["# Services"; nl; nl]) service_md services in
  let? faqs_md := section_md (cat ["# Frequently Asked Questions"; nl; nl]) faq_md faqs in
  let? tone := py_get_default voice "tone" (JStr "Professional") in
  let? title := match tone with
                | JStr t => Ok (py_title t)
                | _ => Raise AttributeError
                end in
  let hero_md := cat ["# "; title; " "; fmt org_name; nl; nl; fmt org_description; nl] in
  let? team_md := optional_section (cat ["# Our Team"; nl; nl]) member_md team in
  let? products_md := optional_section (cat ["# Products"; nl; nl]) product_md products in
  Ok ([("about.md", about);
       ("services.md", services_md);
       ("faqs.md", faqs_md);
       ("homepage-hero.md", hero_md)]
      ++ (if str_truthy team_md then [("team.md", team_md)] else [])
      ++ (if str_truthy products_md then [("products.md", products_md)] else [])).

End Render.

(** *** Profiles that follow the schema of the system prompt

    Every key may be missing.  A key that is present holds a value of the
    type the prompt gives it; the fields the code only reads after testing
    them for truth may also hold null or any other false value. *)

Definition is_obj (v : json) : bool :=
  match v with JObj _ => true | _ => false end.

Definition is_str (v : json) : bool :=
  match v with JStr _ => true | _ => false end.

Definition is_str_list (v : json) : bool :=
  match v with JArr items => forallb is_str items | _ => false end.

(** A false value, or one that satisfies [check]. *)
Definition falsy_or (check : json -> bool) (v : json) : bool :=
  negb (json_truthy v) || check v.

(** The field [key] of [d], when present, satisfies [check]. *)
Definition field_ok (d : list (string * json)) (key : string) (check : json -> bool)
    : bool :=
  match dict_get d key with
  | Some v => check v
  | None => true
  end.

(** A list of objects whose fields pass [fields_ok]. *)
Definition is_obj_list (fields_ok : list (string * json) -> bool) (v : json) : bool :=
  match v with
  | JArr items =>
      forallb (fun x => match x with JObj d => fields_ok d | _ => false end) items
  | _ => false
  end.

Definition service_ok (d : list (string * json)) : bool :=
  field_ok d "bullets" (falsy_or is_str_list)
  && field_ok d "benefits" (falsy_or is_str_list).






(** *** The rendering in the words of the specification

    Each file is built from the fields of the profile.  A field that is
    missing reads as the empty text, and an optional part is rendered only
    when its field is present with a value that is not false. *)






Section SpecRender.

Variable py_repr : json -> string.
Variable py_title : string -> string.









End SpecRender.


(** Test inputs: stand-ins for [str] and [str.title] that agree with Python
    on the values used, and a profile with a team and no products. *)
Definition repr_none (_ : json) : string := "None".
Definition title_id (s : string) : string := s.


(** ** The object store

    [truncate_sources] works on dictionaries and lists that are shared
    between the caller's bundle and the copy it returns, so these objects
    live in a store and values refer to them by location. *)

Definition loc := nat.

Inductive val :=
| VNone
| VBool (b : bool)
| VInt (n : Z)
| VStr (s : string)
| VRef (l : loc).

Inductive obj :=
| ODict (fields : list (string * val))
| OList (items : list val).

Record heap := { store : gmap loc obj; next_loc : loc }.

Definition deref (l : loc) : M heap obj :=
  fun h =>
    match store h !! l with
    | Some o => (Ok o, h)
    | None => (Raise (RuntimeError "dangling reference"), h)
    end.

Definition alloc (o : obj) : M heap loc :=
  fun h =>
    (Ok (next_loc h),
     {| store := <[next_loc h := o]> (store h); next_loc := S (next_loc h) |}).

Definition assign (l : loc) (o : obj) : M heap unit :=
  fun h => (Ok tt, {| store := <[l := o]> (store h); next_loc := next_loc h |}).

Fixpoint vdict_get (fields : list (string * val)) (key : string) : option val :=
  match fields with
  | [] => None
  | (k, v) :: rest => if String.eqb k key then Some v else vdict_get rest key
  end.

(** [d[key] = v]: an existing key keeps its place, a new key goes last. *)
Fixpoint vdict_set (fields : list (string * val)) (key : string) (v : val)
    : list (string * val) :=
  match fields with
  | [] => [(key, v)]
  | (k, old) :: rest =>
      if String.eqb k key then (k, v) :: rest
      else (k, old) :: vdict_set rest key v
  end.

Definition is_str_val (key : string) (v : val) : bool :=
  match v with
  | VStr s => String.eqb s key
  | _ => false
  end.

(** [d.copy()]: a new dictionary with the same keys and the same values. *)
Definition dict_copy (d : val) : M heap val :=
  match d with
  | VRef l =>
      let* o := deref l in
      match o with
      | ODict fields => let* l' := alloc (ODict fields) in ret (VRef l')
      | OList _ => raise AttributeError
      end
  | _ => raise AttributeError
  end.

(** [key in container]. *)
Definition py_contains (key : string) (container : val) : M heap bool :=
  match container with
  | VRef l =>
      let* o := deref l in
      match o with
      | ODict fields => ret (match vdict_get fields key with Some _ => true | None => false end)
      | OList items => ret (existsb (is_str_val key) items)
      end
  | VStr s => ret (str_contains key s)
  | _ => raise TypeError
  end.

(** [container[key]] for a string key. *)
Definition py_getitem (container : val) (key : string) : M heap val :=
  match container with
  | VRef l =>
      let* o := deref l in
      match o with
      | ODict fields =>
          match vdict_get fields key with
          | Some v => ret v
          | None => raise KeyError
          end
      | OList _ => raise TypeError
      end
  | _ => raise TypeError
  end.

(** [container[key] = v]. *)
Definition py_setitem (container : val) (key : string) (v : val) : M heap unit :=
  match container with
  | VRef l =>
      let* o := deref l in
      match o with
      | ODict fields => assign l (ODict (vdict_set fields key v))
      | OList _ => raise TypeError
      end
  | _ => raise TypeError
  end.

(** [len(v)]. *)
Definition py_len (v : val) : M heap N :=
  match v with
  | VStr s => ret (N.of_nat (String.length s))
  | VRef l =>
      let* o := deref l in
      match o with
      | ODict fields => ret (N.of_nat (length fields))
      | OList items => ret (N.of_nat (length items))
      end
  | _ => raise TypeError
  end.

(** The items a [for] loop visits. *)
Definition py_iter_val (v : val) : M heap (list val) :=
  match v with
  | VStr s => ret (map VStr (str_chars s))
  | VRef l =>
      let* o := deref l in
      match o with
      | ODict fields => ret (map (fun kv => VStr (fst kv)) fields)
      | OList items => ret items
      end
  | _ => raise TypeError
  end.

Fixpoint for_each (body : val -> M heap unit) (items : list val) : M heap unit :=
  match items with
  | [] => ret tt
  | x :: rest => let* _ := body x in for_each body rest
  end.

(** [isinstance(v, dict)]. *)
Definition isinstance_dict (v : val) : M heap bool :=
  match v with
  | VRef l =>
      let* o := deref l in
      ret (match o with ODict _ => true | OList _ => false end)
  | _ => ret false
  end.

(** ** openai_synth.py: [truncate_sources] (lines 25-46) *)

(** Lines 32-33 and 38-39:
    [if key in item and len(item[key]) > limit:
       item[key] = item[key][:limit] + marker].
    The assignment goes to the dictionary [item] refers to. *)
Definition truncate_field (key : string) (limit : N) (marker : string) (item : val)
    : M heap unit :=
  let* present := py_contains key item in
  if present then
    let* v := py_getitem item key in
    let* n := py_len v in
    if (limit <? n)%N then
      match v with
      | VStr s => py_setitem item key (VStr (str_take (N.to_nat limit) s +:+ marker))
      | _ => raise TypeError
      end
    else ret tt
  else ret tt.

(** Lines 30-33 and 36-39: the loop over [truncated[key]]. *)
Definition truncate_each (truncated : val) (list_key field : string) (limit : N)
    (marker : string) : M heap unit :=
  let* present := py_contains list_key truncated in
  if present then
    let* container := py_getitem truncated list_key in
    let* items := py_iter_val container in
    for_each (truncate_field field limit marker) items
  else ret tt.

(** Lines 42-44. *)
Definition truncate_pagespeed (truncated : val) : M heap unit :=
  let* present := py_contains "pagespeed" truncated in
  if present then
    let* psi := py_getitem truncated "pagespeed" in
    let* is_dict := isinstance_dict psi in
    if is_dict then
      let* has_report := py_contains "lighthouseResult" psi in
      if has_report then
        let* summary :=
          alloc (ODict [("summary",
                         VStr "PageSpeed data available but truncated for processing")]) in
        py_setitem truncated "pagespeed" (VRef summary)
      else ret tt
    else ret tt
  else ret tt.

Definition truncate_sources (sources : val) : M heap val :=
  let* truncated := dict_copy sources in
  let* _ := truncate_each truncated "scraped" "text" 8000 "... [truncated]" in
  let* _ := truncate_each truncated "cse" "snippet" 500 "..." in
  let* _ := truncate_pagespeed truncated in
  ret truncated.

(** The value a reference stands for, as [orjson.dumps] walks it.  The
    encoder gives up below 255 levels of nesting with a [JSONEncodeError],
    a subclass of [TypeError]; [depth] counts the levels left. *)
Fixpoint snapshot (depth : nat) (h : heap) (v : val) : outcome json :=
  match v with
  | VNone => Ok JNull
  | VBool b => Ok (JBool b)
  | VInt n => Ok (JNum n)
  | VStr s => Ok (JStr s)
  | VRef l =>
      match depth with
      | O => Raise TypeError
      | S depth' =>
          match store h !! l with
          | Some (ODict fields) =>
              let? fields' :=
                map_outcome (fun kv => let? v' := snapshot depth' h (snd kv) in
                                       Ok (fst kv, v')) fields in
              Ok (JObj fields')
          | Some (OList items) =>
              let? items' := map_outcome (snapshot depth' h) items in
              Ok (JArr items')
          | None => Raise (RuntimeError "dangling reference")
          end
      end
  end.

Definition orjson_dumps (h : heap) (v : val) : outcome json := snapshot 255 h v.

(** ** openai_synth.py: [synthesize_profile] (lines 49-66) *)

Section Synthesize.

(** The chat-completion call: from the serialized truncated bundle to the
    content of the first choice ([None] when the model sent none), or an
    exception of the client. *)
Variable chat_completion : json -> outcome (option string).
(** [orjson.loads]. *)
Variable orjson_loads : string -> outcome json.

(** Line 66: [orjson.loads(content) if content else {}]. *)
Definition parse_content (content : option string) : outcome json :=
  if opt_truthy content then orjson_loads (default EmptyString content)
  else Ok (JObj []).

Definition synthesize_profile (sources : val) : M heap json :=
  let* truncated_sources := truncate_sources sources in
  fun h =>
    (let? request := orjson_dumps h truncated_sources in
     let? content := chat_completion request in
     parse_content content, h).

End Synthesize.

(** *** Test inputs *)

Fixpoint str_repeat (c : ascii) (n : nat) : string :=
  match n with
  | O => EmptyString
  | S n' => String c (str_repeat c n')
  end.

Definition long_text : string := str_repeat "x" (N.to_nat 8001).
Definition long_snippet : string := str_repeat "s" (N.to_nat 501).

(** A bundle as [run_pipeline] builds it: at location 1 the bundle, whose
    ['scraped'] list (location 4) holds one page (location 5) with a text of
    8001 characters, whose ['cse'] list (location 2) holds one result
    (location 3) with a snippet of 501 characters, and whose page-speed
    report (location 6) has a ['lighthouseResult']. *)
Definition bundle_heap : heap :=
  {| store :=
       list_to_map
         [(1, ODict [("query", VStr "acme"); ("cse", VRef 2);
                     ("pagespeed", VRef 6); ("scraped", VRef 4)]);
          (2, OList [VRef 3]);
          (3, ODict [("link", VStr "https://www.acme.com/"); ("snippet", VStr long_snippet)]);
          (4, OList [VRef 5]);
          (5, ODict [("url", VStr "https://www.acme.com"); ("text", VStr long_text)]);
          (6, ODict [("lighthouseResult", VNone)])];
     next_loc := 7 |}.

(** The bundle of [bundle_heap] as a value, before any call. *)
Definition bundle_before : json :=
  JObj [("query", JStr "acme");
        ("cse", JArr [JObj [("link", JStr "https://www.acme.com/");
                            ("snippet", JStr long_snippet)]]);
        ("pagespeed", JObj [("lighthouseResult", JNull)]);
        ("scraped", JArr [JObj [("url", JStr "https://www.acme.com");
                                ("text", JStr long_text)]])].

(** The same bundle with the page text and the snippet cut. *)
Definition bundle_cut : json :=
  JObj [("query", JStr "acme");
        ("cse", JArr [JObj [("link", JStr "https://www.acme.com/");
                            ("snippet", JStr (str_repeat "s" (N.to_nat 500) +:+ "..."))]]);
        ("pagespeed", JObj [("lighthouseResult", JNull)]);
        ("scraped", JArr [JObj [("url", JStr "https://www.acme.com");
                                ("text", JStr (str_repeat "x" (N.to_nat 8000)
                                               +:+ "... [truncated]"))]])].

(** Stand-ins for the language model and for [orjson.loads] that agree
    with them on the inputs used: the model answers with text that is not
    JSON, and the parser accepts the empty object only. *)
Definition chat_not_json (_ : json) : outcome (option string) := Ok (Some "not json").

Definition loads_empty_object_only (s : string) : outcome json :=
  if String.eqb s "{}" then Ok (JObj []) else Raise JSONDecodeError.

(** ** The shape of a slug *)

(** [slug_tail prev_hyphen s]: [s] continues a slug whose previous character
    was a hyphen (or that has not begun) when [prev_hyphen] holds: only
    [[a-z0-9]] and single hyphens occur, and the text does not end in a
    hyphen. *)
Fixpoint slug_tail (prev_hyphen : bool) (s : string) : bool :=
  match s with
  | EmptyString => negb prev_hyphen
  | String c s' =>
      if Ascii.eqb c hyphen then negb prev_hyphen && slug_tail true s'
      else is_az09 c && slug_tail false s'
  end.

(** Empty, or made of runs of [[a-z0-9]] separated by single hyphens, with
    no hyphen at either end. *)
Definition well_formed_slug (s : string) : bool :=
  str_is_empty s || slug_tail true s.

(** The last character of a string. *)
Fixpoint str_last (s : string) : option ascii :=
  match s with
  | EmptyString => None
  | String c s' => match s' with
                   | EmptyString => Some c
                   | String _ _ => str_last s'
                   end
  end.

(** ** scraper.py: [normalize_url] and [extract_links] *)

(** The parts of [urllib.parse.urlparse] the scraper reads. *)
Record parsed_url := {
  url_scheme : string;
  url_netloc : string;
  url_path : string
}.

(** [list(dict.fromkeys(links))]: the first occurrence of every link, in
    order.  [seen] holds the keys already in the dictionary. *)
Fixpoint fromkeys (seen : gset string) (links : list string) : list string :=
  match links with
  | [] => []
  | link :: rest =>
      if bool_decide (link ∈ seen) then fromkeys seen rest
      else link :: fromkeys ({[link]} ∪ seen) rest
  end.

(** [link] stands at position [j] of [links] and nowhere before it. *)
Definition first_at (links : list string) (j : nat) (link : string) : Prop :=
  links !! j = Some link /\ forall k, k < j -> links !! k <> Some link.

Section Scraper.

(** [urllib.parse.urlparse]. *)
Variable urlparse : string -> parsed_url.
(** The [href] attributes of the anchors [soup.select('a[href]')] finds in
    a document, in document order (BeautifulSoup with the lxml parser). *)
Variable anchor_hrefs : string -> list string.

(** Lines 11-17 of scraper.py. *)
Definition normalize_url (url : string) : string :=
  let parsed := urlparse url in
  let scheme := if str_truthy (url_scheme parsed) then url_scheme parsed else "https" in
  scheme +:+ "://" +:+ url_netloc parsed +:+ rstrip slash (url_path parsed).

(** Lines 29-36: what one [href] adds to the list, if anything. *)
Definition resolve_href (base_url href : string) : option string :=
  if String.prefix "#" href || String.prefix "mailto:" href || String.prefix "tel:" href
  then None
  else if String.prefix "http" href then Some href
  else if String.prefix "/" href then
    let parsed := urlparse base_url in
    Some (url_scheme parsed +:+ "://" +:+ url_netloc parsed +:+ href)
  else None.

(** Lines 25-37. *)
Definition extract_links (html base_url : string) : list string :=
  fromkeys ∅ (omap (resolve_href base_url) (anchor_hrefs html)).

End Scraper.

(** ** __main__.py: the bulk query (lines 20-24) *)

(** [str.isspace] on a code point below 256. *)
Definition is_space (c : ascii) : bool :=
  in_range 9 13 c || in_range 28 32 c
  || (N_of_ascii c =? 133)%N || (N_of_ascii c =? 160)%N.

Fixpoint lstrip_space (s : string) : string :=
  match s with
  | EmptyString => EmptyString
  | String c s' => if is_space c then lstrip_space s' else s
  end.

Fixpoint rstrip_space (s : string) : string :=
  match s with
  | EmptyString => EmptyString
  | String c s' =>
      let r := rstrip_space s' in
      if is_space c && str_is_empty r then EmptyString else String c r
  end.

(** [s.strip()]. *)
Definition strip_space (s : string) : string := rstrip_space (lstrip_space s).

Definition bar : ascii := "|"%char.

(** [s.split('|', 1)]: one part when there is no bar, else the text before
    the first bar and the text after it. *)
Fixpoint split_bar (s : string) : string * option string :=
  match s with
  | EmptyString => (EmptyString, None)
  | String c s' =>
      if Ascii.eqb c bar then (EmptyString, Some s')
      else let '(before, after) := split_bar s' in (String c before, after)
  end.

(** Lines 21-24: the ZIP code and the genre, or [None] where the unpacking
    fails and the program exits with a usage message. *)
Definition parse_bulk_query (query : string) : option (string * string) :=
  match split_bar query with
  | (before, Some after) => Some (strip_space before, strip_space after)
  | (_, None) => None
  end.

(** ** config.py and the keys of google_clients.py *)

Record AppConfig := {
  openai_api_key : string;
  google_api_key : string;
  google_cse_id : string;
  pagespeed_api_key : option string;
  places_api_key : option string
}.

(** [os.getenv(name, dflt)]. *)
Definition getenv_default (env : string -> option string) (name : string)
    (dflt : option string) : option string :=
  match env name with
  | Some v => Some v
  | None => dflt
  end.

(** Lines 16-36 of config.py, on the environment as [load_dotenv] leaves
    it. *)
Definition load_config (env : string -> option string) : outcome AppConfig :=
  let openai := env "OPENAI_API_KEY" in
  let google := env "GOOGLE_API_KEY" in
  let cse := env "GOOGLE_CSE_ID" in
  let pagespeed := getenv_default env "GOOGLE_PAGESPEED_API_KEY" google in
  let places := getenv_default env "GOOGLE_PLACES_API_KEY" google in
  if negb (opt_truthy openai) then Raise (RuntimeError "OPENAI_API_KEY is required")
  else if negb (opt_truthy google) then Raise (RuntimeError "GOOGLE_API_KEY is required")
  else if negb (opt_truthy cse) then Raise (RuntimeError "GOOGLE_CSE_ID is required")
  else Ok {| openai_api_key := default EmptyString openai;
             google_api_key := default EmptyString google;
             google_cse_id := default EmptyString cse;
             pagespeed_api_key := pagespeed;
             places_api_key := places |}.

Record GoogleClients := {
  api_key : string;
  cse_id : string;
  pagespeed_key : option string;
  places_key : option string
}.

(** Lines 23-26 of pipeline.py and 15 of bulk.py. *)
Definition make_clients (cfg : AppConfig) : GoogleClients :=
  {| api_key := google_api_key cfg;
     cse_id := google_cse_id cfg;
     pagespeed_key := pagespeed_api_key cfg;
     places_key := places_api_key cfg |}.

(** [override or self.api_key], the key each request is sent with. *)
Definition key_or (override : option string) (fallback : string) : string :=
  if opt_truthy override then default EmptyString override else fallback.

(** Line 21 of google_clients.py. *)
Definition pagespeed_request_key (c : GoogleClients) : string :=
  key_or (pagespeed_key c) (api_key c).

(** Lines 26, 31, 36 and 41 of google_clients.py. *)
Definition places_request_key (c : GoogleClients) : string :=
  key_or (places_key c) (api_key c).

(** Line 17 of google_clients.py: the search uses the primary key. *)
Definition search_request_key (c : GoogleClients) : string := api_key c.

(** Test input: an environment with the three required keys and an empty
    page-speed key. *)
Definition sample_env (name : string) : option string :=
  if String.eqb name "OPENAI_API_KEY" then Some "sk-test"
  else if String.eqb name "GOOGLE_API_KEY" then Some "g-key"
  else if String.eqb name "GOOGLE_CSE_ID" then Some "cse"
  else if String.eqb name "GOOGLE_PAGESPEED_API_KEY" then Some ""
  else None.

(** ** pipeline.py: the Places block (lines 40-50) *)

(** [v[0]]: the first item of a list, the first character of a string; a
    dictionary has no key [0] here (its keys are strings), and nothing else
    can be indexed. *)
Definition py_first (v : json) : outcome json :=
  match v with
  | JArr (x :: _) => Ok x
  | JArr [] => Raise (RuntimeError "IndexError")
  | JStr (String c _) => Ok (JStr (String c EmptyString))
  | JStr EmptyString => Raise (RuntimeError "IndexError")
  | JObj _ => Raise KeyError
  | _ => Raise TypeError
  end.

(** [key in v] for a JSON value. *)
Definition json_contains (key : string) (v : json) : outcome bool :=
  match v with
  | JObj fields => Ok (match dict_get fields key with Some _ => true | None => false end)
  | JArr items =>
      Ok (existsb (fun x => match x with JStr s => String.eqb s key | _ => false end) items)
  | JStr s => Ok (str_contains key s)
  | _ => Raise TypeError
  end.

(** [v[key]] for a string key. *)
Definition json_getitem (v : json) (key : string) : outcome json :=
  match v with
  | JObj fields =>
      match dict_get fields key with
      | Some x => Ok x
      | None => Raise KeyError
      end
  | _ => Raise TypeError
  end.

(** Line 45: [(places.get('results') or [None])[0]]. *)
Definition first_place (places : json) : outcome json :=
  let? results := py_get places "results" in
  py_first (json_or (opt_json results) (JArr [JNull])).

(** Line 46: [place and 'place_id' in place]. *)
Definition has_place_id (place : json) : outcome bool :=
  if json_truthy place then json_contains "place_id" place else Ok false.

Section Lookups.

Context {World : Type}.
(** [GoogleClients.places_text_search] and [place_details]. *)
Variable places_text_search : string -> M World json.
Variable place_details : json -> M World json.
(** [str(e)]. *)
Variable exn_text : exn -> string.

Definition lift {A} (o : outcome A) : M World A := fun w => (o, w).

(** Lines 44-47, the body of the [try]: the values [places] and
    [place_details] hold when it completes. *)
Definition places_try (query : string) : M World (json * json) :=
  let* places := places_text_search query in
  let* place := lift (first_place places) in
  let* wanted := lift (has_place_id place) in
  if wanted then
    let* pid := lift (json_getitem place "place_id") in
    let* details := place_details pid in
    ret (places, details)
  else ret (places, JObj []).

(** Lines 41-50.  [place_details] is only assigned by the last statement of
    the [try], so after any exception it still holds its initial [{}],
    while [places] is replaced by the error. *)
Definition places_block (query : string) (w : World) : (json * json) * World :=
  match places_try query w with
  | (Ok result, w') => (result, w')
  | (Raise e, w') => ((JObj [("error", JStr (exn_text e))], JObj []), w')
  end.

End Lookups.

(** ** openai_synth.py: [generate_training_data] (lines 69-167) *)

Section Training.

Variable py_repr : json -> string.

Definition str_list (items : list string) : json := JArr (map JStr items).

(** Lines 98-103: the pair made from one FAQ. *)
Definition faq_pair (faq : json) : outcome json :=
  match faq with
  | JObj d =>
      Ok (JObj [("question", opt_json (dict_get d "q"));
                ("answer", opt_json (dict_get d "a"));
                ("category", default (JStr "general") (dict_get d "category"));
                ("context_needed", str_list ["business_info"])])
  | _ => Raise AttributeError
  end.

(** Lines 107-120: the two pairs made from one service. *)
Definition service_pairs (service : json) : outcome (list json) :=
  match service with
  | JObj d =>
      let name := fmt py_repr (opt_json (dict_get d "name")) in
      let? benefits := py_join ". " (default (JArr []) (dict_get d "benefits")) in
      Ok [JObj [("question", JStr (cat ["What is "; name; "?"]));
                ("answer", get_or_empty d "summary");
                ("category", JStr "services");
                ("context_needed", str_list ["services"; "business_info"])];
          JObj [("question", JStr (cat ["What are the benefits of "; name; "?"]));
                ("answer", JStr benefits);
                ("category", JStr "services");
                ("context_needed", str_list ["services"])]]
  | _ => Raise AttributeError
  end.

(** Lines 123-129 and 132-138: the contact and location pairs. *)
Definition contact_pairs (org : list (string * json)) : list json :=
  (if json_truthy (opt_json (dict_get org "phone")) then
     [JObj [("question", JStr "How can I contact you?");
            ("answer",
             JStr (cat ["You can reach us at "; fmt py_repr (opt_json (dict_get org "phone"));
                        " or visit our website at "; fmt py_repr (get_or_empty org "url")]));
            ("category", JStr "contact");
            ("context_needed", str_list ["contact_info"])]]
   else [])
  ++ (if json_truthy (opt_json (dict_get org "address")) then
        [JObj [("question", JStr "Where are you located?");
               ("answer",
                JStr (cat ["We're located at ";
                           fmt py_repr (opt_json (dict_get org "address"))]));
               ("category", JStr "location");
               ("context_needed", str_list ["contact_info"])]]
      else []).

(** Line 142: [member.get('name') and member.get('bio')]. *)
Definition has_name_and_bio (d : list (string * json)) : bool :=
  json_truthy (opt_json (dict_get d "name")) && json_truthy (opt_json (dict_get d "bio")).

(** Lines 141-148: the pair made from one team member, if any. *)
Definition member_pairs (member : json) : outcome (list json) :=
  match member with
  | JObj d =>
      Ok (if has_name_and_bio d then
            [JObj [("question",
                    JStr (cat ["Tell me about "; fmt py_repr (opt_json (dict_get d "name"))]));
                   ("answer", opt_json (dict_get d "bio"));
                   ("category", JStr "team");
                   ("context_needed", str_list ["team_info"])]]
          else [])
  | _ => Raise AttributeError
  end.

(** [s.get('name')] for each service, line 82. *)
Definition service_name (s : json) : outcome json :=
  let? name := py_get s "name" in Ok (opt_json name).

(** Lines 164-165: the embedding candidates of services and FAQs. *)
Definition service_embedding (s : json) : outcome json :=
  match s with
  | JObj d =>
      Ok (JObj [("text", get_or_empty d "summary");
                ("metadata", JObj [("type", JStr "service");
                                   ("service_name", opt_json (dict_get d "name"))])])
  | _ => Raise AttributeError
  end.

Definition faq_embedding (f : json) : outcome json :=
  match f with
  | JObj d =>
      Ok (JObj [("text", get_or_empty d "a");
                ("metadata", JObj [("type", JStr "faq");
                                   ("question", opt_json (dict_get d "q"))])])
  | _ => Raise AttributeError
  end.

(** Lines 95-148: the question-and-answer pairs, in the order the loops
    append them. *)
Definition qa_pairs_of (org : list (string * json)) (services faqs team : json)
    : outcome (list json) :=
  let? faq_items := py_iter faqs in
  let? from_faqs := map_outcome faq_pair faq_items in
  let? service_items := py_iter services in
  let? from_services := map_outcome service_pairs service_items in
  let? members := py_iter team in
  let? from_team := map_outcome member_pairs members in
  Ok (from_faqs ++ concat from_services ++ contact_pairs org ++ concat from_team).

Definition generate_training_data (profile sources : json) : outcome json :=
  let? org_value := py_get_default profile "organization" (JObj []) in
  let? services := py_get_default profile "services" (JArr []) in
  let? faqs := py_get_default profile "faqs" (JArr []) in
  let? team := py_get_default profile "team" (JArr []) in
  match org_value with
  | JObj org =>
      let? service_items := py_iter services in
      let? names := map_outcome service_name service_items in
      let? stats := py_get_default sources "scrapingStats" (JObj []) in
      let? pages := py_get_default stats "totalPagesScraped" (JNum 0) in
      let context :=
        JObj [("business_name", opt_json (dict_get org "name"));
              ("business_description", opt_json (dict_get org "description"));
              ("services", JArr names);
              ("contact_info",
               JObj [("phone", opt_json (dict_get org "phone"));
                     ("email", opt_json (dict_get org "email"));
                     ("address", opt_json (dict_get org "address"));
                     ("website", opt_json (dict_get org "url"))]);
              ("social_media", default (JArr []) (dict_get org "social"));
              ("scraped_pages_count", pages)] in
      let? qa_pairs := qa_pairs_of org services faqs team in
      let? voice := py_get_default profile "voice" (JObj []) in
      let? service_texts := map_outcome service_embedding service_items in
      let? faq_items := py_iter faqs in
      let? faq_texts := map_outcome faq_embedding faq_items in
      Ok (JObj [("context", context);
                ("qa_pairs", JArr qa_pairs);
                ("training_instructions",
                 JObj [("personality", voice);
                       ("response_guidelines",
                        str_list ["Always be helpful and professional";
                                  "Use information only from the provided context";
                                  "If unsure, direct to contact information";
                                  "Match the business tone and voice"])]);
                ("embeddings_data",
                 JArr ([JObj [("text", get_or_empty org "description");
                              ("metadata", JObj [("type", JStr "business_description")])]]
                       ++ service_texts ++ faq_texts))])
  | _ => Raise AttributeError
  end.

(** Line 169 of pipeline.py: [len(training_data.get('qa_pairs', []))]. *)
Definition training_qa_count (training : json) : option nat :=
  match training with
  | JObj d => match dict_get d "qa_pairs" with
              | Some (JArr pairs) => Some (length pairs)
              | _ => None
              end
  | _ => None
  end.

End Training.

(** The number of team members that yield a pair. *)
Definition members_with_bio (team : list json) : nat :=
  length (List.filter (fun m => match m with
                                | JObj d => has_name_and_bio d
                                | _ => false
                                end) team).

Definition bool_count (b : bool) : nat := if b then 1 else 0.

(** The length of the list under [key] in an object. *)
Definition field_length (key : string) (v : json) : option nat :=
  match v with
  | JObj d => match dict_get d key with
              | Some (JArr items) => Some (length items)
              | _ => None
              end
  | _ => None
  end.

(** The error placeholder of line 50. *)
Definition error_entry (exn_text : exn -> string) (e : exn) : json :=
  JObj [("error", JStr (exn_text e))].

(* ===================================================================== *)
(** * Part II: lemmas and theorems                                        *)
(* ===================================================================== *)

(** ** Facts about [slugify] *)

Example slugify_joes : slugify "Joe's Plumbing & Co." = "joe-s-plumbing-co".
Proof. reflexivity. Qed.

Lemma append_hyphen (s : string) : "-" +:+ s = String hyphen s.
Proof. reflexivity. Qed.

Lemma az09_not_hyphen (c : ascii) : is_az09 c = true -> Ascii.eqb c hyphen = false.
Proof. destruct c as [[] [] [] [] [] [] [] []]; vm_compute; congruence. Qed.

Lemma lower_char_alnum (c : ascii) : is_az09 (lower_char c) = is_ascii_alnum c.
Proof. destruct c as [[] [] [] [] [] [] [] []]; reflexivity. Qed.

Lemma lower_char_no_upper (c : ascii) :
  is_ascii_alnum (lower_char c) = is_az09 (lower_char c).
Proof. destruct c as [[] [] [] [] [] [] [] []]; reflexivity. Qed.

Lemma lower_no_upper (s : string) : no_upper (lower s).
Proof.
  induction s as [|c s IH]; simpl; [exact I|].
  split; [apply lower_char_no_upper | exact IH].
Qed.

Section SlugifyFacts.

Let non_alnum : ascii -> bool := fun c => negb (is_az09 c).
Let sub1 := re_sub_class_plus non_alnum "-".
Let sub2 := re_sub_class_plus (Ascii.eqb hyphen) "-".

Lemma sub1_cons_sep b c s :
  is_az09 c = false ->
  sub1 b (String c s) = if b then sub1 true s else String hyphen (sub1 true s).
Proof.
  intros Hc. unfold sub1, non_alnum. simpl. rewrite Hc. simpl.
  destruct b; reflexivity.
Qed.

Lemma sub1_cons_alnum b c s :
  is_az09 c = true -> sub1 b (String c s) = String c (sub1 false s).
Proof. intros Hc. unfold sub1, non_alnum. simpl. rewrite Hc. reflexivity. Qed.

Lemma sub2_cons_hyphen b s :
  sub2 b (String hyphen s) = if b then sub2 true s else String hyphen (sub2 true s).
Proof. unfold sub2. simpl. destruct b; reflexivity. Qed.

Lemma sub2_cons_other b c s :
  Ascii.eqb c hyphen = false -> sub2 b (String c s) = String c (sub2 false s).
Proof.
  intros Hc. unfold sub2. cbn [re_sub_class_plus].
  rewrite Ascii.eqb_sym, Hc. reflexivity.
Qed.

(** After the first substitution no two hyphens are adjacent, so the second
    substitution [re.sub(r'-+', '-', _)] changes nothing. *)
Lemma sub2_sub1_id (s : string) :
  sub2 false (sub1 false s) = sub1 false s
  /\ sub2 false (sub1 true s) = sub1 true s
  /\ sub2 true (sub1 true s) = sub1 true s.
Proof.
  induction s as [|c s (IHa & IHb & IHc)]; [repeat split|].
  destruct (is_az09 c) eqn:Hc.
  - rewrite !sub1_cons_alnum by exact Hc.
    rewrite !sub2_cons_other by (apply az09_not_hyphen; exact Hc).
    rewrite IHa. repeat split.
  - rewrite !sub1_cons_sep by exact Hc.
    rewrite sub2_cons_hyphen, IHb, IHc. repeat split.
Qed.

Lemma lstrip_sub1_true (s : string) : lstrip hyphen (sub1 true s) = sub1 true s.
Proof.
  induction s as [|c s IH]; [reflexivity|].
  destruct (is_az09 c) eqn:Hc.
  - rewrite sub1_cons_alnum by exact Hc. simpl.
    rewrite (az09_not_hyphen c Hc). reflexivity.
  - rewrite sub1_cons_sep by exact Hc. exact IH.
Qed.

Lemma lstrip_sub1_false (s : string) : lstrip hyphen (sub1 false s) = sub1 true s.
Proof.
  destruct s as [|c s]; [reflexivity|].
  destruct (is_az09 c) eqn:Hc.
  - rewrite !sub1_cons_alnum by exact Hc. simpl.
    rewrite (az09_not_hyphen c Hc). reflexivity.
  - rewrite !sub1_cons_sep by exact Hc. simpl. apply lstrip_sub1_true.
Qed.

Lemma rstrip_cons_other c s :
  Ascii.eqb c hyphen = false -> rstrip hyphen (String c s) = String c (rstrip hyphen s).
Proof. intros Hc. simpl. rewrite Hc. reflexivity. Qed.

Lemma rstrip_cons_hyphen s :
  rstrip hyphen (String hyphen s)
  = if str_is_empty (rstrip hyphen s) then EmptyString
    else String hyphen (rstrip hyphen s).
Proof. reflexivity. Qed.

Lemma alnum_runs_cons_alnum (c : ascii) (s : string) :
  is_ascii_alnum c = true ->
  alnum_runs (String c s)
  = match s with
    | EmptyString => [String c EmptyString]
    | String d _ =>
        if is_ascii_alnum d then
          match alnum_runs s with
          | w :: ws => String c w :: ws
          | [] => [String c EmptyString]
          end
        else String c EmptyString :: alnum_runs s
    end.
Proof. intros Hc. cbn [alnum_runs]. rewrite Hc. destruct s; reflexivity. Qed.

Lemma alnum_runs_cons_sep (c : ascii) (s : string) :
  is_ascii_alnum c = false -> alnum_runs (String c s) = alnum_runs s.
Proof. intros Hc. cbn [alnum_runs]. rewrite Hc. reflexivity. Qed.

Lemma alnum_runs_nonempty (s : string) : Forall (fun w => w <> EmptyString) (alnum_runs s).
Proof.
  induction s as [|c s IH]; simpl; [constructor|].
  destruct (is_ascii_alnum c); [|exact IH].
  destruct s as [|d s']; [repeat constructor; discriminate|].
  destruct (is_ascii_alnum d).
  - destruct (alnum_runs (String d s')) as [|w ws] eqn:E.
    + repeat constructor; discriminate.
    + inversion IH; subst. constructor; [discriminate | assumption].
  - constructor; [discriminate | exact IH].
Qed.

Lemma alnum_runs_head (d : ascii) (s : string) :
  is_ascii_alnum d = true -> alnum_runs (String d s) <> [].
Proof.
  intros Hd. simpl. rewrite Hd.
  destruct s as [|e s']; [discriminate|].
  destruct (is_ascii_alnum e); [|discriminate].
  destruct (alnum_runs (String e s')); discriminate.
Qed.

Lemma concat_hyphen_empty (ws : list string) :
  Forall (fun w => w <> EmptyString) ws ->
  str_is_empty (String.concat "-" ws) = match ws with [] => true | _ => false end.
Proof.
  intros H. destruct H as [|w ws Hw Hws]; [reflexivity|].
  destruct w as [|c w]; [congruence|].
  destruct ws; reflexivity.
Qed.

Lemma concat_hyphen_cons_char c w ws :
  String.concat "-" (String c w :: ws) = String c (String.concat "-" (w :: ws)).
Proof. destruct ws; reflexivity. Qed.

(** The heart of the refinement: once leading separators are gone, trimming
    the trailing hyphen leaves the alphanumeric runs joined by hyphens. *)
Lemma rstrip_sub1_runs (s : string) :
  no_upper s ->
  rstrip hyphen (sub1 true s) = String.concat "-" (alnum_runs s).
Proof.
  induction s as [|c s IH]; intros Hs; [reflexivity|].
  destruct Hs as [Hc Hs]. specialize (IH Hs).
  destruct (is_az09 c) eqn:Hz.
  - rewrite sub1_cons_alnum by exact Hz.
    rewrite rstrip_cons_other by (apply az09_not_hyphen; exact Hz).
    rewrite alnum_runs_cons_alnum by congruence.
    destruct s as [|d s']; [reflexivity|].
    destruct Hs as [Hd _]. cbv beta match. rewrite Hd.
    destruct (is_az09 d) eqn:Hzd.
    + rewrite (sub1_cons_alnum false d s' Hzd).
      rewrite <- (sub1_cons_alnum true d s' Hzd), IH.
      destruct (alnum_runs (String d s')) as [|w ws] eqn:E.
      * exfalso. revert E. apply alnum_runs_head. congruence.
      * symmetry. apply concat_hyphen_cons_char.
    + rewrite (sub1_cons_sep false d s' Hzd).
      rewrite (sub1_cons_sep true d s' Hzd) in IH.
      rewrite rstrip_cons_hyphen, IH.
      rewrite concat_hyphen_empty by apply alnum_runs_nonempty.
      destruct (alnum_runs (String d s')) as [|w ws]; reflexivity.
  - rewrite sub1_cons_sep by exact Hz.
    rewrite alnum_runs_cons_sep by congruence. exact IH.
Qed.

Lemma slugify_unfold (s : string) :
  slugify s = rstrip hyphen (sub1 true (lower s)).
Proof.
  unfold slugify, strip.
  change (re_sub_class_plus (fun c => negb (is_az09 c)) "-" false (lower s))
    with (sub1 false (lower s)).
  change (re_sub_class_plus (Ascii.eqb hyphen) "-" false (sub1 false (lower s)))
    with (sub2 false (sub1 false (lower s))).
  destruct (sub2_sub1_id (lower s)) as (-> & _ & _).
  rewrite lstrip_sub1_false. reflexivity.
Qed.

End SlugifyFacts.

(** C7.  For every input string, [slugify] returns the lower-cased string
    with each maximal run of non-alphanumeric characters turned into one
    hyphen and no hyphen left at either end, that is, the alphanumeric runs
    of the lower-cased text joined by single hyphens; and
    [slugify "Joe's Plumbing & Co."] is ["joe-s-plumbing-co"]. *)
Theorem slugify_spec :
  (forall text : string, slugify text = slug_spec text)
  /\ slugify "Joe's Plumbing & Co." = "joe-s-plumbing-co".
Proof.
  split; [|reflexivity].
  intros text. rewrite slugify_unfold. unfold slug_spec.
  apply rstrip_sub1_runs, lower_no_upper.
Qed.

(** ** Facts about the HTTP wrapper *)

Section HttpFacts.

Context {request A : Type}.
Variable server : request -> nat -> reply.
Variable decode : response -> outcome A.
Variable req : request.

Let bump (w : net) : net := {| sent := S (sent w); pauses := pauses w |}.

Lemma get_once_server_error w r :
  server req (sent w) = Response r -> (500 <= status_code r)%Z ->
  get_once server decode req w
  = (Raise (HttpError (status_code r) (str_take 200 (text r))), bump w).
Proof.
  intros Hs Hr. unfold get_once, bind, requests_get. rewrite Hs.
  destruct (Z.leb_spec 500 (status_code r)); [reflexivity | lia].
Qed.

Lemma get_once_client_error w r :
  server req (sent w) = Response r -> (400 <= status_code r < 500)%Z ->
  get_once server decode req w = (Raise (RequestsHTTPError (status_code r)), bump w).
Proof.
  intros Hs Hr. unfold get_once, bind, requests_get, raise_for_status. rewrite Hs.
  destruct (Z.leb_spec 500 (status_code r)); [lia|].
  destruct (Z.leb_spec 400 (status_code r)); [|lia].
  destruct (Z.ltb_spec (status_code r) 600); [reflexivity | lia].
Qed.

Lemma get_once_good w r :
  server req (sent w) = Response r -> (status_code r < 400)%Z ->
  get_once server decode req w = (decode r, bump w).
Proof.
  intros Hs Hr. unfold get_once, bind, requests_get, raise_for_status. rewrite Hs.
  destruct (Z.leb_spec 500 (status_code r)); [lia|].
  destruct (Z.leb_spec 400 (status_code r)); [lia | reflexivity].
Qed.

Lemma get_once_transport w :
  server req (sent w) = TransportFailure ->
  get_once server decode req w = (Raise RequestsConnectionError, bump w).
Proof.
  intros Hs. unfold get_once, bind, requests_get. rewrite Hs. reflexivity.
Qed.

(** One attempt sends exactly one request and takes no pause. *)
Lemma get_once_net w :
  snd (get_once server decode req w) = bump w.
Proof.
  unfold get_once, bind, requests_get, raise_for_status.
  destruct (server req (sent w)) as [r|]; [|reflexivity].
  destruct (500 <=? status_code r)%Z; [reflexivity|].
  destruct ((400 <=? status_code r)%Z && (status_code r <? 600)%Z); reflexivity.
Qed.

Lemma retry_from_sent wait retry_if remaining n w :
  sent w < sent (snd (retry_from wait retry_if remaining n (get_once server decode req) w))
         <= sent w + S remaining.
Proof.
  revert n w. induction remaining as [|r IH]; intros n w; cbn [retry_from];
    pose proof (get_once_net w) as Hn;
    destruct (get_once server decode req w) as [[a|e] w']; simpl in Hn; subst w';
    simpl; try lia.
  - destruct (retry_if e); simpl; lia.
  - destruct (retry_if e); simpl; [|lia].
    match goal with |- context [retry_from _ _ _ _ _ ?w1] => specialize (IH (S n) w1) end.
    simpl in IH. lia.
Qed.

Lemma retry_from_ok wait retry_if remaining n (f : M net A) w a w' :
  f w = (Ok a, w') -> retry_from wait retry_if remaining n f w = (Ok a, w').
Proof. intros H. destruct remaining; cbn [retry_from]; rewrite H; reflexivity. Qed.

Lemma retry_from_pass wait retry_if remaining n (f : M net A) w e w' :
  f w = (Raise e, w') -> retry_if e = false ->
  retry_from wait retry_if remaining n f w = (Raise e, w').
Proof.
  intros H He. destruct remaining; cbn [retry_from]; rewrite H, He; reflexivity.
Qed.

Lemma retry_from_again wait retry_if r n (f : M net A) w e w' :
  f w = (Raise e, w') -> retry_if e = true ->
  retry_from wait retry_if (S r) n f w
  = retry_from wait retry_if r (S n) f
      {| sent := sent w'; pauses := pauses w' ++ [wait n] |}.
Proof. intros H He. cbn [retry_from]. rewrite H, He. reflexivity. Qed.

Lemma retry_from_last wait retry_if n (f : M net A) w e w' :
  f w = (Raise e, w') -> retry_from wait retry_if 0 n f w = (Raise e, w').
Proof.
  intros H. cbn [retry_from]. rewrite H. destruct (retry_if e); reflexivity.
Qed.

End HttpFacts.

Lemma get_with_retry_policy {request A : Type} (server : request -> nat -> reply)
    (decode : response -> outcome A) (req : request) :
  foreign_decoder decode ->
  retry_policy server decode req (get_with server decode req).
Proof.
  intros Hdec.
  assert (Hgood : forall remaining n w r,
             server req (sent w) = Response r -> (status_code r < 400)%Z ->
             retry_from (wait_exponential 500 1000 8000) is_HttpError remaining n
               (get_once server decode req) w
             = (decode r, {| sent := S (sent w); pauses := pauses w |})).
  { intros remaining n w r Hs Hr.
    pose proof (get_once_good server decode req w r Hs Hr) as Hg.
    destruct (decode r) as [a|e] eqn:Hd.
    - eapply retry_from_ok; exact Hg.
    - eapply retry_from_pass; [exact Hg | eapply Hdec; exact Hd]. }
  assert (Hclient : forall remaining n w r,
             server req (sent w) = Response r -> (400 <= status_code r < 500)%Z ->
             retry_from (wait_exponential 500 1000 8000) is_HttpError remaining n
               (get_once server decode req) w
             = (Raise (RequestsHTTPError (status_code r)),
                {| sent := S (sent w); pauses := pauses w |})).
  { intros remaining n w r Hs Hr. eapply retry_from_pass; [|reflexivity].
    exact (get_once_client_error server decode req w r Hs Hr). }
  assert (Hdown : forall remaining n w,
             server req (sent w) = TransportFailure ->
             retry_from (wait_exponential 500 1000 8000) is_HttpError remaining n
               (get_once server decode req) w
             = (Raise RequestsConnectionError,
                {| sent := S (sent w); pauses := pauses w |})).
  { intros remaining n w Hs. eapply retry_from_pass; [|reflexivity].
    exact (get_once_transport server decode req w Hs). }
  assert (Hagain : forall remaining n w,
             server_error_at server req (sent w) ->
             retry_from (wait_exponential 500 1000 8000) is_HttpError (S remaining) n
               (get_once server decode req) w
             = retry_from (wait_exponential 500 1000 8000) is_HttpError remaining (S n)
                 (get_once server decode req)
                 {| sent := S (sent w);
                    pauses := pauses w ++ [wait_exponential 500 1000 8000 n] |}).
  { intros remaining n w (r & Hs & Hr).
    pose proof (get_once_server_error server decode req w r Hs Hr) as Hg.
    rewrite (retry_from_again _ _ _ _ _ _ _ _ Hg eq_refl). reflexivity. }
  unfold retry_policy, get_with, http_retry, tenacity_retry.
  change (4 - 1) with 3.
  split; [|split; [|split; [|split]]].
  - pose proof (retry_from_sent server decode req (wait_exponential 500 1000 8000)
                  is_HttpError 3 1 net0) as H.
    change (sent net0) with 0 in H. lia.
  - intros k r Hk Herr Hs Hr.
    destruct k as [|[|[|[|k]]]]; [| | | |lia];
      repeat (rewrite Hagain by (apply Herr; simpl; lia));
      erewrite Hclient by eassumption; reflexivity.
  - intros k Hk Herr Hs.
    destruct k as [|[|[|[|k]]]]; [| | | |lia];
      repeat (rewrite Hagain by (apply Herr; simpl; lia));
      rewrite Hdown by exact Hs; reflexivity.
  - intros k r Hk Herr Hs Hr.
    destruct k as [|[|[|[|k]]]]; [| | | |lia];
      repeat (rewrite Hagain by (apply Herr; simpl; lia));
      erewrite Hgood by eassumption; reflexivity.
  - intros Herr.
    destruct (Herr 3 ltac:(lia)) as (r & Hs & Hr).
    exists r. split; [exact Hs|].
    rewrite Hagain by (apply Herr; simpl; lia).
    rewrite Hagain by (apply Herr; simpl; lia).
    rewrite Hagain by (apply Herr; simpl; lia).
    erewrite retry_from_last; [reflexivity|].
    apply get_once_server_error; assumption.
Qed.

(** C3 (as amended).  Every call through [get_json] or [get_text] sends at
    most four requests; only a response with a status of 500 or more is
    retried, after pauses of 1 s, 1 s and 2 s (multiplier 0.5 s, floor 1 s,
    cap 8 s); a status in 400..499 and a transport failure are raised at
    once, on the first attempt and on every later one, with no further
    request and no further pause; when all four attempts meet a server error
    the last one is raised.  In particular three 503 responses followed by a
    200 give the 200 payload, and a single 404 surfaces immediately. *)
Theorem http_retry_policy {request : Type} (server : request -> nat -> reply)
    (resp_json : response -> outcome json) (req : request) :
  foreign_decoder resp_json ->
  retry_policy server resp_json req (get_json server resp_json req)
  /\ retry_policy server (fun r => Ok (text r)) req (get_text server req).
Proof.
  intros Hdec. split.
  - apply get_with_retry_policy, Hdec.
  - apply get_with_retry_policy. intros r e H. discriminate H.
Qed.

Lemma body_as_json_foreign : foreign_decoder body_as_json.
Proof. intros r e H. discriminate H. Qed.

Lemma http_retry_policy_witness :
  foreign_decoder body_as_json
  /\ get_json busy_then_ok body_as_json tt net0
     = (Ok (JStr "payload"), {| sent := 4; pauses := [1000; 1000; 2000]%Z |})
  /\ get_text not_found tt net0
     = (Raise (RequestsHTTPError 404), {| sent := 1; pauses := [] |})
  /\ get_json busy_then_missing body_as_json tt net0
     = (Raise (RequestsHTTPError 404), {| sent := 2; pauses := [1000%Z] |})
  /\ get_text busy_then_down tt net0
     = (Raise RequestsConnectionError, {| sent := 3; pauses := [1000; 1000]%Z |}).
Proof.
  split; [exact body_as_json_foreign|].
  destruct (http_retry_policy busy_then_ok body_as_json tt body_as_json_foreign)
    as [(_ & _ & _ & Hok & _) _].
  destruct (http_retry_policy not_found body_as_json tt body_as_json_foreign)
    as [_ (_ & H4 & _)].
  destruct (http_retry_policy busy_then_missing body_as_json tt body_as_json_foreign)
    as [(_ & Hmissing & _) _].
  destruct (http_retry_policy busy_then_down body_as_json tt body_as_json_foreign)
    as [_ (_ & _ & Hdown & _)].
  split; [|split; [|split]].
  - apply (Hok 3 {| status_code := 200; text := "payload" |}).
    + lia.
    + intros i Hi. exists {| status_code := 503; text := "busy" |}.
      destruct i as [|[|[|i]]]; [split; [reflexivity | simpl; lia] .. | lia].
    + reflexivity.
    + simpl. lia.
  - apply (H4 0 {| status_code := 404; text := "missing" |}).
    + lia.
    + intros i Hi. lia.
    + reflexivity.
    + simpl. lia.
  - apply (Hmissing 1 {| status_code := 404; text := "missing" |}).
    + lia.
    + intros i Hi. exists {| status_code := 503; text := "busy" |}.
      destruct i as [|i]; [split; [reflexivity | simpl; lia] | lia].
    + reflexivity.
    + simpl. lia.
  - apply (Hdown 2).
    + lia.
    + intros i Hi. exists {| status_code := 503; text := "busy" |}.
      destruct i as [|[|i]]; [split; [reflexivity | simpl; lia] .. | lia].
    + reflexivity.
Defined.

(** C3, counterexample.  The claim has a transport failure retried and the
    backoff start at 0.5 s.  When the connection fails once and would then
    deliver a 200, [get_json] sends a single request and raises, whereas the
    policy of the claim would return the payload; and after a first server
    error the code pauses 1 s where the claim has 0.5 s. *)
Lemma http_retry_counterexample :
  get_json flaky_then_ok body_as_json tt net0
    = (Raise RequestsConnectionError, {| sent := 1; pauses := [] |})
  /\ get_json_spec flaky_then_ok body_as_json tt net0
    = (Ok (JStr "payload"), {| sent := 2; pauses := [500%Z] |})
  /\ pauses (snd (get_json busy_then_ok body_as_json tt net0)) = [1000; 1000; 2000]%Z
  /\ pauses (snd (get_json_spec busy_then_ok body_as_json tt net0)) = [500; 1000; 2000]%Z.
Proof. repeat split. Qed.

(** ** Facts about the choice of the primary URL *)

Section PrimaryFacts.

Variable extract_domain : string -> string.

Lemma str_truthy_true (s : string) : str_truthy s = true <-> s <> EmptyString.
Proof. destruct s; cbn; split; intros H; try discriminate; try reflexivity; congruence. Qed.

Lemma mentions_none (hosts : list string) (dom : string) :
  mentions_any hosts dom = false
  <-> forall s, In s hosts -> str_contains s dom = false.
Proof.
  unfold mentions_any. split.
  - intros H s Hs. destruct (str_contains s dom) eqn:E; [|reflexivity].
    assert (existsb (fun s => str_contains s dom) hosts = true) as Ht
      by (apply existsb_exists; exists s; split; assumption).
    congruence.
  - intros H. destruct (existsb _ hosts) eqn:E; [|reflexivity].
    apply existsb_exists in E as (s & Hs & Hc). rewrite (H s Hs) in Hc. discriminate.
Qed.

Lemma official_link_eligible (item : cse_item) :
  official_link extract_domain item = true <-> eligible extract_domain item.
Proof.
  unfold official_link, eligible.
  destruct (item_link item) as [link|]; cbn [opt_truthy from_option id].
  - destruct (str_truthy link) eqn:Hl.
    + rewrite andb_true_iff, negb_true_iff, str_truthy_true, mentions_none.
      apply str_truthy_true in Hl. split.
      * intros [Hd Hn]. exists link. repeat split; assumption.
      * intros (l & [= <-] & _ & Hd & Hn). split; assumption.
    + split; [discriminate|].
      intros (l & [= <-] & Hne & _). apply str_truthy_true in Hne. congruence.
  - split; [discriminate|]. intros (l & Hl & _). discriminate.
Qed.

Lemma first_official_none (items : list cse_item) :
  Forall (fun x => ~ eligible extract_domain x) items ->
  first_official extract_domain items = None.
Proof.
  induction 1 as [|x items Hx _ IH]; [reflexivity|].
  simpl. destruct (official_link extract_domain x) eqn:E; [|exact IH].
  apply official_link_eligible in E. contradiction.
Qed.

Lemma first_official_found (pre : list cse_item) (it : cse_item) (post : list cse_item) :
  Forall (fun x => ~ eligible extract_domain x) pre ->
  eligible extract_domain it ->
  first_official extract_domain (pre ++ it :: post) = item_link it.
Proof.
  intros Hpre Hit. induction Hpre as [|x pre Hx _ IH]; simpl.
  - apply official_link_eligible in Hit. rewrite Hit. reflexivity.
  - destruct (official_link extract_domain x) eqn:E; [|exact IH].
    apply official_link_eligible in E. contradiction.
Qed.

End PrimaryFacts.

(** C4 (as amended).  With no search result the primary URL is absent, and
    the scraping block that follows returns at once with nothing scraped.
    Otherwise the primary URL is the link of the first result that has a
    non-empty link whose registrable domain is non-empty and contains none of
    facebook.com, instagram.com, linkedin.com, x.com, twitter.com and
    yelp.com; when no result is of that kind it is the link of the first
    result. *)
Theorem pick_primary_url_rule (extract_domain : string -> string)
    (cse_items : list cse_item) :
  pick_primary_url extract_domain [] = None
  /\ (forall (World : Type) (extract_text : string -> M World page) (w : World),
        scrape_block extract_domain extract_text (pick_primary_url extract_domain []) w
        = (Ok {| scraped_pages := []; social_profiles := [] |}, w))
  /\ (forall pre it post,
        cse_items = pre ++ it :: post ->
        Forall (fun x => ~ eligible extract_domain x) pre ->
        eligible extract_domain it ->
        pick_primary_url extract_domain cse_items = item_link it)
  /\ (forall first rest,
        cse_items = first :: rest ->
        Forall (fun x => ~ eligible extract_domain x) cse_items ->
        pick_primary_url extract_domain cse_items = item_link first).
Proof.
  split; [reflexivity|]. split; [reflexivity|]. split.
  - intros pre it post -> Hpre Hit.
    pose proof (first_official_found extract_domain pre it post Hpre Hit) as Hf.
    unfold pick_primary_url. rewrite Hf.
    destruct Hit as (link & Hl & _). rewrite Hl.
    destruct pre; reflexivity.
  - intros first rest -> Hall.
    unfold pick_primary_url.
    rewrite (first_official_none extract_domain _ Hall). reflexivity.
Qed.

Lemma pick_primary_url_rule_witness :
  pick_primary_url sample_domain
    [link_only "https://www.facebook.com/acme"; link_only "https://www.acme.com/"]
  = Some "https://www.acme.com/".
Proof.
  destruct (pick_primary_url_rule sample_domain
              [link_only "https://www.facebook.com/acme";
               link_only "https://www.acme.com/"]) as (_ & _ & Hfound & _).
  apply (Hfound [link_only "https://www.facebook.com/acme"]
                (link_only "https://www.acme.com/") []).
  - reflexivity.
  - constructor; [|constructor].
    intros H. apply official_link_eligible in H. discriminate H.
  - apply official_link_eligible. reflexivity.
Defined.

(** C4, counterexample.  A result on youtube.com ahead of the business's own
    site: the claim counts youtube.com as a social platform and would pick
    the second result, the code picks the first. *)
Lemma pick_primary_url_counterexample :
  pick_primary_url sample_domain video_first = Some "https://www.youtube.com/@acme"
  /\ pick_primary_spec sample_domain video_first = Some "https://www.acme.com/".
Proof. split; reflexivity. Qed.

(** ** Facts about the scraping block *)

Section ScrapeFacts.

Variable extract_domain : string -> string.
Context {World : Type}.
Variable extract_text : string -> M World page.





End ScrapeFacts.



(** On the test site the home page and eleven further pages are kept; the
    fetch of p02 fails and is skipped, p13 and p14 are never requested: one
    fetch for the home page and twelve for links. *)
Example acme_scrape :
  match scrape_site sample_domain acme_fetch "https://www.acme.com" 0 with
  | (Ok res, fetches) =>
      pages_scraped res = 12 /\ fetches = 13
      /\ length (social_profiles res) = 1
  | _ => False
  end.
Proof. vm_compute. repeat split. Qed.

(** ** Facts about [find_businesses] *)

Section DedupeFacts.

Lemma dedupe_ids (seen : gset string) (bs : list place) (b : place) :
  b ∈ dedupe seen bs ->
  exists pid, place_id b = Some pid /\ pid <> EmptyString /\ pid ∉ seen.
Proof.
  revert seen. induction bs as [|x bs IH]; intros seen Hb; cbn [dedupe] in Hb.
  - apply elem_of_nil in Hb. contradiction.
  - destruct (place_id x) as [pid|] eqn:Hx; [|apply IH; exact Hb].
    destruct (str_truthy pid) eqn:Ht; cbn [andb] in Hb; [|apply IH; exact Hb].
    destruct (bool_decide_reflect (pid ∉ seen)) as [Hs|Hs]; [|apply IH; exact Hb].
    apply elem_of_cons in Hb as [->|Hb].
    + exists pid. repeat split; [exact Hx | | exact Hs].
      apply str_truthy_true. exact Ht.
    + destruct (IH _ Hb) as (q & Hq & Hne & Hns).
      exists q. repeat split; [exact Hq | exact Hne | set_solver].
Qed.

Lemma dedupe_sublist (seen : gset string) (bs : list place) :
  sublist (dedupe seen bs) bs.
Proof.
  revert seen. induction bs as [|x bs IH]; intros seen; cbn [dedupe].
  - constructor.
  - destruct (place_id x) as [pid|]; [|apply sublist_cons, IH].
    destruct (str_truthy pid && bool_decide (pid ∉ seen)).
    + apply sublist_skip, IH.
    + apply sublist_cons, IH.
Qed.

Lemma dedupe_NoDup (seen : gset string) (bs : list place) :
  NoDup (place_id <$> dedupe seen bs).
Proof.
  revert seen. induction bs as [|x bs IH]; intros seen; cbn [dedupe].
  - constructor.
  - destruct (place_id x) as [pid|] eqn:Hx; [|apply IH].
    destruct (str_truthy pid && bool_decide (pid ∉ seen)); [|apply IH].
    rewrite fmap_cons. constructor; [|apply IH].
    intros Hin. apply list_elem_of_fmap in Hin as (b & Hb & Hin).
    apply dedupe_ids in Hin as (q & Hq & _ & Hns).
    rewrite Hx in Hb. rewrite Hq in Hb. injection Hb as ->. set_solver.
Qed.

Lemma dedupe_first (seen : gset string) (bs : list place) (b : place) (pid : string) :
  b ∈ dedupe seen bs -> place_id b = Some pid -> first_with_id pid bs = Some b.
Proof.
  unfold first_with_id.
  revert seen. induction bs as [|x bs IH]; intros seen Hb Hpid; cbn [dedupe] in Hb.
  - apply elem_of_nil in Hb. contradiction.
  - cbn [find].
    assert (Hskip : forall seen', b ∈ dedupe seen' bs ->
              place_id x <> Some pid ->
              (if bool_decide (place_id x = Some pid) then Some x
               else find (fun b0 => bool_decide (place_id b0 = Some pid)) bs) = Some b).
    { intros seen' Hb' Hne. rewrite bool_decide_eq_false_2 by exact Hne.
      eapply IH; eassumption. }
    destruct (place_id x) as [q|] eqn:Hx.
    + destruct (str_truthy q) eqn:Ht; cbn [andb] in Hb.
      * destruct (bool_decide_reflect (q ∉ seen)) as [Hs|Hs].
        -- apply elem_of_cons in Hb as [->|Hb].
           ++ rewrite bool_decide_eq_true_2; [reflexivity | congruence].
           ++ apply (Hskip _ Hb).
              apply dedupe_ids in Hb as (r & Hr & _ & Hns).
              rewrite Hpid in Hr. injection Hr as <-.
              intros [= ->]. set_solver.
        -- apply (Hskip _ Hb).
           apply dedupe_ids in Hb as (r & Hr & _ & Hns).
           rewrite Hpid in Hr. injection Hr as <-.
           intros [= ->]. apply Hs. exact Hns.
      * apply (Hskip _ Hb).
        apply dedupe_ids in Hb as (r & Hr & Hne & _).
        rewrite Hpid in Hr. injection Hr as <-.
        intros [= ->]. apply str_truthy_true in Hne. congruence.
    + apply (Hskip _ Hb). discriminate.
Qed.

Lemma dedupe_complete (seen : gset string) (bs : list place) (b : place) (pid : string) :
  b ∈ bs -> place_id b = Some pid -> pid <> EmptyString -> pid ∉ seen ->
  exists b', b' ∈ dedupe seen bs /\ place_id b' = Some pid.
Proof.
  revert seen. induction bs as [|x bs IH]; intros seen Hb Hpid Hne Hseen.
  - apply elem_of_nil in Hb. contradiction.
  - cbn [dedupe].
    assert (Hx : x = b \/ (b ∈ bs)).
    { apply elem_of_cons in Hb as [->|Hb]; [left; reflexivity | right; exact Hb]. }
    destruct (place_id x) as [q|] eqn:Hq.
    + destruct (str_truthy q) eqn:Ht; cbn [andb].
      * destruct (bool_decide_reflect (q ∉ seen)) as [Hs|Hs].
        -- destruct (String.eqb_spec q pid) as [->|Hqp].
           ++ exists x. split; [left | exact Hq].
           ++ destruct Hx as [->|Hin]; [congruence|].
              assert (Hfresh : pid ∉ {[q]} ∪ seen).
              { intros [Hin'|Hin']%elem_of_union; [|contradiction].
                apply elem_of_singleton in Hin'. congruence. }
              destruct (IH ({[q]} ∪ seen) Hin Hpid Hne Hfresh) as (b' & Hb' & Hp').
              exists b'. split; [right; exact Hb' | exact Hp'].
        -- destruct Hx as [->|Hin].
           ++ exfalso. apply Hs. congruence.
           ++ exact (IH seen Hin Hpid Hne Hseen).
      * destruct Hx as [->|Hin].
        -- exfalso. rewrite Hpid in Hq. injection Hq as <-.
           apply str_truthy_true in Hne. congruence.
        -- exact (IH seen Hin Hpid Hne Hseen).
    + destruct Hx as [->|Hin]; [congruence|].
      exact (IH seen Hin Hpid Hne Hseen).
Qed.

Lemma first_seen_at_shift (x : place) (bs : list place) (j : nat) (b : place) :
  first_seen_at bs j b -> place_id x <> place_id b -> first_seen_at (x :: bs) (S j) b.
Proof.
  intros [Hj Hfirst] Hx. split; [exact Hj|].
  intros k b' Hk Hb'. destruct k as [|k]; [injection Hb' as <-; exact Hx|].
  apply (Hfirst k b'); [lia | exact Hb'].
Qed.

(** What [dedupe] does with the head of the list: it keeps it and records
    its id, or drops it; either way no entry kept later has the id of the
    head. *)
Lemma dedupe_cons_cases (seen : gset string) (x : place) (bs : list place) :
  (exists pid, dedupe seen (x :: bs) = x :: dedupe ({[pid]} ∪ seen) bs
               /\ forall b, b ∈ dedupe ({[pid]} ∪ seen) bs -> place_id x <> place_id b)
  \/ (dedupe seen (x :: bs) = dedupe seen bs
      /\ forall b, b ∈ dedupe seen bs -> place_id x <> place_id b).
Proof.
  cbn [dedupe]. destruct (place_id x) as [pid|] eqn:Hx.
  - destruct (str_truthy pid) eqn:Ht; cbn [andb].
    + destruct (bool_decide_reflect (pid ∉ seen)) as [Hs|Hs].
      * left. exists pid. split; [reflexivity|]. intros b Hb.
        apply dedupe_ids in Hb as (q & Hq & _ & Hns). rewrite Hq. intros [= ->].
        apply Hns. apply elem_of_union. left. apply elem_of_singleton. reflexivity.
      * right. split; [reflexivity|]. intros b Hb.
        apply dedupe_ids in Hb as (q & Hq & _ & Hns). rewrite Hq. intros [= ->].
        exact (Hs Hns).
    + right. split; [reflexivity|]. intros b Hb.
      apply dedupe_ids in Hb as (q & Hq & Hne & _). rewrite Hq. intros [= ->].
      apply str_truthy_true in Hne. congruence.
  - right. split; [reflexivity|]. intros b Hb.
    apply dedupe_ids in Hb as (q & Hq & _ & _). rewrite Hq. discriminate.
Qed.

Lemma dedupe_seen_at (seen : gset string) (bs : list place) (i : nat) (b : place) :
  dedupe seen bs !! i = Some b -> exists j, first_seen_at bs j b.
Proof.
  revert seen i. induction bs as [|x bs IH]; intros seen i Hb; [discriminate Hb|].
  destruct (dedupe_cons_cases seen x bs) as [(pid & Heq & Hd)|[Heq Hd]];
    rewrite Heq in Hb.
  - destruct i as [|i].
    + injection Hb as <-. exists 0. split; [reflexivity|]. intros k b' Hk. lia.
    + change (dedupe ({[pid]} ∪ seen) bs !! i = Some b) in Hb.
      destruct (IH _ _ Hb) as [j Hj]. exists (S j).
      apply first_seen_at_shift; [exact Hj|].
      apply Hd. exact (list_elem_of_lookup_2 _ _ _ Hb).
  - destruct (IH _ _ Hb) as [j Hj]. exists (S j).
    apply first_seen_at_shift; [exact Hj|].
    apply Hd. exact (list_elem_of_lookup_2 _ _ _ Hb).
Qed.

(** The entries kept stand in the order of their first appearance. *)
Lemma dedupe_order (seen : gset string) (bs : list place) (i i' : nat) (b b' : place) :
  i < i' -> dedupe seen bs !! i = Some b -> dedupe seen bs !! i' = Some b' ->
  exists j j', j < j' /\ first_seen_at bs j b /\ first_seen_at bs j' b'.
Proof.
  revert seen i i'. induction bs as [|x bs IH]; intros seen i i' Hlt Hb Hb';
    [discriminate Hb|].
  destruct (dedupe_cons_cases seen x bs) as [(pid & Heq & Hd)|[Heq Hd]];
    rewrite Heq in Hb, Hb'.
  - destruct i' as [|i']; [lia|].
    change (dedupe ({[pid]} ∪ seen) bs !! i' = Some b') in Hb'.
    pose proof (Hd b' (list_elem_of_lookup_2 _ _ _ Hb')) as Hx'.
    destruct i as [|i].
    + injection Hb as <-.
      destruct (dedupe_seen_at _ _ _ _ Hb') as [j' Hj'].
      exists 0, (S j'). split; [lia|]. split.
      * split; [reflexivity|]. intros k b0 Hk. lia.
      * apply first_seen_at_shift; assumption.
    + change (dedupe ({[pid]} ∪ seen) bs !! i = Some b) in Hb.
      pose proof (Hd b (list_elem_of_lookup_2 _ _ _ Hb)) as Hx.
      destruct (IH _ i i' ltac:(lia) Hb Hb') as (j & j' & Hjj & Hj & Hj').
      exists (S j), (S j'). split; [lia|].
      split; apply first_seen_at_shift; assumption.
  - pose proof (Hd b (list_elem_of_lookup_2 _ _ _ Hb)) as Hx.
    pose proof (Hd b' (list_elem_of_lookup_2 _ _ _ Hb')) as Hx'.
    destruct (IH _ i i' Hlt Hb Hb') as (j & j' & Hjj & Hj & Hj').
    exists (S j), (S j'). split; [lia|].
    split; apply first_seen_at_shift; assumption.
Qed.

End DedupeFacts.

Section BulkFacts.

Variable location : Type.
Variable geocode_address : string -> outcome (list location).
Variable places_nearby : location -> Z -> string -> nearby_pages.
Variable target_count : Z.

Lemma walk_pages_answers (pages : nearby_pages) (businesses : list place) :
  pages_answer pages -> exists bs, walk_pages target_count pages businesses = Ok bs.
Proof.
  revert businesses. induction pages as [e|results|results token rest IH];
    intros businesses Hp; cbn [walk_pages].
  - destruct Hp.
  - eexists; reflexivity.
  - destruct (_ && _); [apply IH; exact Hp | eexists; reflexivity].
Qed.

Lemma search_rounds_answers (loc : location) (genre : string) (rounds : nat)
    (radius : Z) (businesses : list place) :
  (forall r, pages_answer (places_nearby loc r genre)) ->
  exists bs, search_rounds places_nearby target_count loc genre rounds radius businesses
             = Ok bs.
Proof.
  intros Hp. revert radius businesses.
  induction rounds as [|n IH]; intros radius businesses; cbn [search_rounds].
  - eexists; reflexivity.
  - destruct (_ && _); [|eexists; reflexivity].
    destruct (walk_pages_answers (places_nearby loc radius genre) businesses (Hp radius))
      as [bs ->].
    apply IH.
Qed.

(** With a target of zero or less the radius loop is not entered. *)
Lemma search_rounds_no_target (loc : location) (genre : string) (rounds : nat) (radius : Z) :
  (target_count <= 0)%Z ->
  search_rounds places_nearby target_count loc genre rounds radius [] = Ok [].
Proof.
  intros Ht. destruct rounds; cbn [search_rounds]; [reflexivity|].
  destruct (Z.ltb_spec (Z.of_nat (length (@nil place))) target_count) as [H|H];
    [simpl in H; lia | reflexivity].
Qed.

Lemma take_take_app {A} (n : nat) (x y : list A) :
  take n (take n x ++ y) = take n (x ++ y).
Proof.
  destruct (Nat.le_gt_cases n (length x)) as [H|H].
  - rewrite (take_app_le x y n H).
    rewrite take_app_le by (rewrite length_take; lia).
    rewrite take_take, Nat.min_id. reflexivity.
  - rewrite (take_ge x n) by lia. reflexivity.
Qed.

(** One page: the entries with a place id are appended in order until the
    target is reached. *)
Lemma collect_take (items businesses : list place) :
  length businesses < Z.to_nat target_count ->
  collect target_count items businesses
  = take (Z.to_nat target_count) (businesses ++ List.filter carries_id items).
Proof.
  revert businesses. induction items as [|it items IH]; intros businesses Hlt;
    cbn [collect List.filter].
  - rewrite app_nil_r, take_ge by lia. reflexivity.
  - unfold carries_id at 1. destruct (place_id it) as [pid|].
    + destruct (Z.leb_spec target_count (Z.of_nat (length (businesses ++ [it]))))
        as [Hge|Hlt'];
        rewrite length_app in *; cbn [length] in *;
        rewrite (cons_middle it businesses (List.filter carries_id items)), app_assoc.
      * rewrite take_app_length'; [reflexivity|].
        rewrite length_app. cbn [length]. lia.
      * rewrite IH by (rewrite length_app; cbn [length]; lia). reflexivity.
    + apply IH. exact Hlt.
Qed.

Lemma walk_pages_take (pages : nearby_pages) (businesses bs : list place) :
  length businesses < Z.to_nat target_count ->
  walk_pages target_count pages businesses = Ok bs ->
  bs = take (Z.to_nat target_count)
         (businesses ++ List.filter carries_id (page_entries pages)).
Proof.
  revert businesses. induction pages as [e|results|results token rest IH];
    intros businesses Hlt; cbn [walk_pages page_entries].
  - discriminate.
  - intros [= <-]. apply collect_take. exact Hlt.
  - rewrite (collect_take results businesses Hlt).
    rewrite List.filter_app, app_assoc.
    set (held := businesses ++ List.filter carries_id results).
    destruct (str_truthy token); cbn [andb].
    + destruct (Z.ltb_spec (Z.of_nat (length (take (Z.to_nat target_count) held)))
                  target_count) as [Hroom|Hfull].
      * intros Hwalk. apply IH in Hwalk; [|lia].
        rewrite Hwalk. apply take_take_app.
      * intros [= <-]. rewrite length_take in Hfull.
        symmetry. apply take_app_le. lia.
    + intros [= <-]. cbn [List.filter]. rewrite app_nil_r. reflexivity.
Qed.

Lemma search_rounds_take (loc : location) (genre : string) (rounds : nat) (radius : Z)
    (businesses bs : list place) :
  length businesses <= Z.to_nat target_count ->
  search_rounds places_nearby target_count loc genre rounds radius businesses = Ok bs ->
  bs = take (Z.to_nat target_count)
         (businesses
          ++ List.filter carries_id
               (flat_map (fun r => page_entries (places_nearby loc r genre))
                         (radii rounds radius))).
Proof.
  revert radius businesses. induction rounds as [|n IH]; intros radius businesses Hle;
    cbn [search_rounds radii].
  - intros [= <-]. cbn [flat_map List.filter]. rewrite app_nil_r, take_ge by lia.
    reflexivity.
  - destruct (Z.ltb_spec (Z.of_nat (length businesses)) target_count) as [Hroom|Hfull];
      cbn [andb].
    + destruct (Z.leb_spec radius 100000) as [Hnear|Hfar].
      * destruct (walk_pages target_count (places_nearby loc radius genre) businesses)
          as [held|e] eqn:Hwalk; [|discriminate].
        apply walk_pages_take in Hwalk; [|lia].
        intros Hrest. apply IH in Hrest; [|rewrite Hwalk, length_take; lia].
        rewrite Hrest, Hwalk. cbn [flat_map].
        rewrite List.filter_app, app_assoc. apply take_take_app.
      * intros [= <-]. cbn [flat_map List.filter].
        rewrite app_nil_r, take_ge by lia. reflexivity.
    + intros [= <-]. rewrite take_app_le by lia. rewrite take_ge by lia. reflexivity.
Qed.

(** What [gather] returns: the first [target_count] entries with a place id
    of what the result pages hold. *)
Lemma gather_delivered (zip_code genre : string) (gathered : list place) :
  gather geocode_address places_nearby target_count zip_code genre = Ok gathered ->
  exists loc locs,
    geocode_address zip_code = Ok (loc :: locs)
    /\ gathered = take (Z.to_nat target_count)
                    (List.filter carries_id (delivered places_nearby loc genre)).
Proof.
  unfold gather.
  destruct (geocode_address zip_code) as [[|loc locs]|e]; try discriminate.
  intros H. exists loc, locs. split; [reflexivity|].
  apply search_rounds_take in H; [exact H | cbn [length]; lia].
Qed.

(** The final slice has nothing to cut: the entries gathered are already no
    more than the target. *)
Lemma slice_to_dedupe (gathered : list place) :
  length gathered <= Z.to_nat target_count ->
  slice_to target_count (dedupe ∅ gathered) = dedupe ∅ gathered.
Proof.
  intros Hle. pose proof (sublist_length _ _ (dedupe_sublist ∅ gathered)) as Hsub.
  unfold slice_to. destruct (Z.leb_spec 0 target_count) as [Hpos|Hneg].
  - apply take_ge. lia.
  - destruct gathered as [|b gathered]; [reflexivity | cbn [length] in Hle; lia].
Qed.

End BulkFacts.

(** C6.  Whenever [find_businesses] returns a list, the entries gathered
    are the first [target_count] entries with a place id of what the result
    pages hold, radius by radius and page by page; every entry of the list
    carries a non-empty place id; no place id occurs twice; every non-empty
    place id gathered is in the list; each entry is the first one gathered
    with its id, and the entries stand in the order in which these first
    appearances were gathered; and the list is no longer than
    [target_count].  It does return a list whenever the ZIP code is geocoded
    and no places request fails. *)
Theorem find_businesses_unique (location : Type)
    (geocode_address : string -> outcome (list location))
    (places_nearby : location -> Z -> string -> nearby_pages)
    (target_count : Z) (zip_code genre : string) :
  (forall l,
      find_businesses geocode_address places_nearby target_count zip_code genre
      = Ok l ->
      exists loc locs gathered,
        geocode_address zip_code = Ok (loc :: locs)
        /\ gather geocode_address places_nearby target_count zip_code genre
           = Ok gathered
        /\ gathered = take (Z.to_nat target_count)
                        (List.filter carries_id (delivered places_nearby loc genre))
        /\ Forall (fun b => exists pid, place_id b = Some pid /\ pid <> EmptyString) l
        /\ NoDup (place_id <$> l)
        /\ (forall b pid, b ∈ gathered -> place_id b = Some pid -> pid <> EmptyString ->
              exists b', b' ∈ l /\ place_id b' = Some pid)
        /\ sublist l gathered
        /\ (forall b pid, b ∈ l -> place_id b = Some pid ->
              first_with_id pid gathered = Some b)
        /\ (forall i i' b b',
              i < i' -> l !! i = Some b -> l !! i' = Some b' ->
              exists j j', j < j' /\ first_seen_at gathered j b
                           /\ first_seen_at gathered j' b')
        /\ (Z.of_nat (length l) <= Z.max 0 target_count)%Z)
  /\ (forall loc locs,
        geocode_address zip_code = Ok (loc :: locs) ->
        (forall radius, pages_answer (places_nearby loc radius genre)) ->
        exists l,
          find_businesses geocode_address places_nearby target_count
            zip_code genre = Ok l).
Proof.
  split.
  - intros l Hl. unfold find_businesses in Hl.
    destruct (gather _ _ _ _ _) as [gathered|e] eqn:Hg; [|discriminate].
    destruct (gather_delivered _ _ _ _ _ _ _ Hg) as (loc & locs & Hgeo & Hgathered).
    assert (Hlen : length gathered <= Z.to_nat target_count)
      by (rewrite Hgathered, length_take; lia).
    rewrite (slice_to_dedupe _ _ Hlen) in Hl. injection Hl as <-.
    exists loc, locs, gathered.
    split; [exact Hgeo|]. split; [reflexivity|]. split; [exact Hgathered|].
    split; [|split; [|split; [|split; [|split; [|split]]]]].
    + apply Forall_forall. intros b Hb.
      destruct (dedupe_ids _ _ _ Hb) as (pid & Hpid & Hne & _).
      exists pid. split; assumption.
    + apply dedupe_NoDup.
    + intros b pid Hb Hpid Hne.
      apply (dedupe_complete ∅ gathered b pid Hb Hpid Hne), not_elem_of_empty.
    + apply dedupe_sublist.
    + intros b pid Hb Hpid. eapply dedupe_first; eassumption.
    + intros i i' b b'. apply dedupe_order.
    + pose proof (sublist_length _ _ (dedupe_sublist ∅ gathered)). lia.
  - intros loc locs Hgeo Hpages. unfold find_businesses, gather. rewrite Hgeo.
    destruct (search_rounds_answers location places_nearby target_count loc genre
                6 5000 [] Hpages) as [bs ->].
    eexists; reflexivity.
Qed.

Lemma find_businesses_unique_witness :
  find_businesses one_location overlapping_pages 5 "78701" "dentist"
  = Ok [shop "a"; shop "b"; shop "c"]
  /\ exists loc locs gathered,
      one_location "78701" = Ok (loc :: locs)
      /\ gather one_location overlapping_pages 5 "78701" "dentist" = Ok gathered
      /\ gathered = take (Z.to_nat 5)
                      (List.filter carries_id (delivered overlapping_pages loc "dentist"))
      /\ Forall (fun b => exists pid, place_id b = Some pid /\ pid <> EmptyString)
           [shop "a"; shop "b"; shop "c"]
      /\ NoDup (place_id <$> [shop "a"; shop "b"; shop "c"])
      /\ (forall b pid, b ∈ gathered -> place_id b = Some pid -> pid <> EmptyString ->
            exists b', b' ∈ [shop "a"; shop "b"; shop "c"] /\ place_id b' = Some pid)
      /\ sublist [shop "a"; shop "b"; shop "c"] gathered
      /\ (forall b pid, b ∈ [shop "a"; shop "b"; shop "c"] -> place_id b = Some pid ->
            first_with_id pid gathered = Some b)
      /\ (forall i i' b b',
            i < i' -> [shop "a"; shop "b"; shop "c"] !! i = Some b ->
            [shop "a"; shop "b"; shop "c"] !! i' = Some b' ->
            exists j j', j < j' /\ first_seen_at gathered j b
                         /\ first_seen_at gathered j' b')
      /\ (Z.of_nat (length [shop "a"; shop "b"; shop "c"]) <= Z.max 0 5)%Z.
Proof.
  split; [vm_compute; reflexivity|].
  apply (proj1 (find_businesses_unique unit one_location overlapping_pages 5
                  "78701" "dentist")).
  vm_compute. reflexivity.
Defined.

(** ** Facts about the JSON-LD document *)

Lemma str_endswith_refl (s : string) : str_endswith s s = true.
Proof. destruct s; cbn [str_endswith]; rewrite String.eqb_refl; reflexivity. Qed.

Lemma str_endswith_app (x suffix : string) : str_endswith suffix (x +:+ suffix) = true.
Proof.
  induction x as [|c x IH].
  - apply str_endswith_refl.
  - change (String c x +:+ suffix) with (String c (x +:+ suffix)).
    cbn [str_endswith]. rewrite IH. apply orb_true_r.
Qed.

Lemma org_id_endswith (org : list (string * json)) (primary_url : option string)
    (id : string) :
  org_id org primary_url = Ok id -> str_endswith "#organization" id = true.
Proof.
  unfold org_id. destruct (opt_truthy primary_url).
  - destruct (default (JStr EmptyString) (dict_get org "url")); try discriminate.
    intros [= <-]. apply str_endswith_app.
  - intros [= <-]. apply str_endswith_app.
Qed.

(** C8 (as amended).  For a profile whose organization is an object with a
    url that is a string or absent, the JSON-LD document is a single-node
    [@graph] of [@type] Organization whose [@id] ends in ["#organization"];
    when a primary URL is present the [@id] is the organization URL with its
    trailing slashes stripped or, when that is empty, the primary URL with
    its trailing slashes stripped, followed by ["#organization"]; [name],
    [telephone] and [description] are the profile's values, null when
    absent; [url] is the profile's value or else the primary URL; [sameAs]
    is the profile's social list or else an empty list; [address] and
    [openingHoursSpecification] are the profile's values or else null. *)
Theorem org_graph_shape (profile : json) (org : list (string * json))
    (primary_url : option string) :
  py_get_default profile "organization" (JObj []) = Ok (JObj org) ->
  (forall v, dict_get org "url" = Some v -> exists url, v = JStr url) ->
  exists node id,
    org_graph profile primary_url
    = Ok (JObj [("@context", JStr "https://schema.org"); ("@graph", JArr [JObj node])])
    /\ dict_get node "@type" = Some (JStr "Organization")
    /\ dict_get node "@id" = Some (JStr id)
    /\ str_endswith "#organization" id = true
    /\ (forall p, primary_url = Some p -> p <> EmptyString ->
          id = (if str_truthy (rstrip slash
                                 (match dict_get org "url" with
                                  | Some (JStr url) => url
                                  | _ => EmptyString
                                  end))
                then rstrip slash (match dict_get org "url" with
                                   | Some (JStr url) => url
                                   | _ => EmptyString
                                   end)
                else rstrip slash p) +:+ "#organization")
    /\ dict_get node "name" = Some (opt_json (dict_get org "name"))
    /\ dict_get node "telephone" = Some (opt_json (dict_get org "phone"))
    /\ dict_get node "description" = Some (opt_json (dict_get org "description"))
    /\ dict_get node "url"
       = Some (match dict_get org "url" with
               | Some v => if json_truthy v then v else opt_str_json primary_url
               | None => opt_str_json primary_url
               end)
    /\ dict_get node "sameAs"
       = Some (match dict_get org "social" with
               | Some v => if json_truthy v then v else JArr []
               | None => JArr []
               end)
    /\ dict_get node "address"
       = Some (match dict_get org "address" with
               | Some v => if json_truthy v then v else JNull
               | None => JNull
               end)
    /\ dict_get node "openingHoursSpecification"
       = Some (match dict_get org "hours" with
               | Some v => if json_truthy v then v else JNull
               | None => JNull
               end).
Proof.
  intros Horg Hurl.
  assert (Hid : exists id, org_id org primary_url = Ok id).
  { unfold org_id. destruct (opt_truthy primary_url); [|eexists; reflexivity].
    destruct (dict_get org "url") as [v|] eqn:Hv; cbn [from_option Datatypes.id].
    - destruct (Hurl v eq_refl) as [url ->]. eexists; reflexivity.
    - eexists; reflexivity. }
  destruct Hid as [ident Hid].
  exists (org_node org primary_url ident), ident.
  split; [unfold org_graph; rewrite Horg, Hid; reflexivity|].
  split; [reflexivity|]. split; [reflexivity|].
  split; [eapply org_id_endswith; exact Hid|].
  split.
  - intros p -> Hp. unfold org_id in Hid.
    assert (opt_truthy (Some p) = true) as Ht by (apply str_truthy_true; exact Hp).
    rewrite Ht in Hid.
    destruct (dict_get org "url") as [v|] eqn:Hv; cbn [from_option Datatypes.id] in Hid.
    + destruct (Hurl v eq_refl) as [url ->]. injection Hid as <-. reflexivity.
    + injection Hid as <-. reflexivity.
  - unfold org_node, json_or, opt_json.
    repeat split; cbn [dict_get String.eqb Ascii.eqb Bool.eqb];
      try reflexivity.
    + destruct (dict_get org "url"); reflexivity.
    + destruct (dict_get org "social"); reflexivity.
    + destruct (dict_get org "address"); reflexivity.
    + destruct (dict_get org "hours"); reflexivity.
Qed.

Lemma org_graph_shape_witness :
  exists node id,
    org_graph name_only_profile (Some "https://www.acme.com/")
    = Ok (JObj [("@context", JStr "https://schema.org"); ("@graph", JArr [JObj node])])
    /\ dict_get node "@id" = Some (JStr id)
    /\ id = "https://www.acme.com#organization"
    /\ dict_get node "sameAs" = Some (JArr []).
Proof.
  destruct (org_graph_shape name_only_profile name_only_org
              (Some "https://www.acme.com/") eq_refl)
    as (node & id & Hdoc & _ & Hid & _ & Hval & _ & _ & _ & _ & Hsame & _).
  - intros v Hv. discriminate Hv.
  - exists node, id. repeat split; try assumption.
    apply (Hval "https://www.acme.com/" eq_refl). discriminate.
Defined.

(** C8, counterexample.  For a profile that names the organization and
    nothing else, the claim has [sameAs] and [url] null; the code writes an
    empty list and the primary URL. *)
Lemma org_graph_counterexample :
  org_graph name_only_profile (Some "https://www.acme.com/")
  = Ok (JObj [("@context", JStr "https://schema.org");
              ("@graph", JArr [JObj (org_node name_only_org
                                       (Some "https://www.acme.com/")
                                       "https://www.acme.com#organization")])])
  /\ dict_get (org_node name_only_org (Some "https://www.acme.com/")
                 "https://www.acme.com#organization") "sameAs" = Some (JArr [])
  /\ dict_get (spec_org_node name_only_org (Some "https://www.acme.com/")) "sameAs"
     = Some JNull
  /\ dict_get (org_node name_only_org (Some "https://www.acme.com/")
                 "https://www.acme.com#organization") "url"
     = Some (JStr "https://www.acme.com/")
  /\ dict_get (spec_org_node name_only_org (Some "https://www.acme.com/")) "url"
     = Some JNull.
Proof. repeat split. Qed.

(** ** Facts about the output directory *)

Lemma alnum_runs_none (s : string) :
  str_all (fun c => negb (is_ascii_alnum c)) s = true -> alnum_runs (lower s) = [].
Proof.
  induction s as [|c s IH]; [reflexivity|].
  cbn [str_all lower]. intros [Hc Hs]%andb_true_iff.
  apply negb_true_iff in Hc.
  rewrite alnum_runs_cons_sep; [apply IH; exact Hs|].
  rewrite lower_char_no_upper, lower_char_alnum. exact Hc.
Qed.

Lemma path_div_empty (base : path) : path_div base EmptyString = base.
Proof. unfold path_div. cbn. apply app_nil_r. Qed.

(** *** [slugify] on any text *)

Lemma points_app (a b : string) : points (a +:+ b) = points a ++ points b.
Proof.
  induction a as [|c a IH]; [reflexivity|].
  change (String c a +:+ b) with (String c (a +:+ b)).
  cbn [points app]. rewrite IH. reflexivity.
Qed.

Lemma eqb_points (c d : ascii) : (N_of_ascii c =? N_of_ascii d)%N = Ascii.eqb c d.
Proof.
  destruct (Ascii.eqb_spec c d) as [->|Hne]; [apply N.eqb_refl|].
  apply N.eqb_neq. intros H. apply Hne.
  rewrite <- (ascii_N_embedding c), <- (ascii_N_embedding d), H. reflexivity.
Qed.

Lemma sub_points_points (cls : ascii -> bool) (cls_point : N -> bool) (repl : string)
    (in_run : bool) (s : string) :
  (forall c, cls_point (N_of_ascii c) = cls c) ->
  sub_points cls_point (points repl) in_run (points s)
  = points (re_sub_class_plus cls repl in_run s).
Proof.
  intros Hcls. revert in_run. induction s as [|c s IH]; intros in_run; [reflexivity|].
  cbn [points sub_points re_sub_class_plus]. rewrite Hcls.
  destruct (cls c); [destruct in_run|].
  - apply IH.
  - rewrite points_app, IH. reflexivity.
  - cbn [points]. rewrite IH. reflexivity.
Qed.

Lemma lstrip_points_points (ch : ascii) (s : string) :
  lstrip_points (N_of_ascii ch) (points s) = points (lstrip ch s).
Proof.
  induction s as [|c s IH]; [reflexivity|].
  cbn [points lstrip_points lstrip]. rewrite eqb_points.
  destruct (Ascii.eqb c ch); [exact IH | reflexivity].
Qed.

Lemma rstrip_points_points (ch : ascii) (s : string) :
  rstrip_points (N_of_ascii ch) (points s) = points (rstrip ch s).
Proof.
  induction s as [|c s IH]; [reflexivity|].
  cbn [points rstrip_points rstrip]. rewrite eqb_points, IH.
  destruct (Ascii.eqb c ch); cbn [andb]; [|reflexivity].
  destruct (rstrip ch s); reflexivity.
Qed.

Lemma high_point_sep (cp : N) : (128 <= cp)%N -> is_az09_point cp = false.
Proof.
  intros H. unfold is_az09_point.
  apply orb_false_iff. split; apply andb_false_iff; right; apply N.leb_gt; lia.
Qed.

Section UnicodeFacts.

Variable unicode_lower : list N -> N -> list N -> list N.

Lemma lower_from_points (before : list N) (s : string) :
  lower_from unicode_lower before (points s) = points (lower s).
Proof.
  revert before. induction s as [|c s IH]; intros before; [reflexivity|].
  cbn [points lower_from lower]. rewrite IH. unfold lower_point.
  destruct (N.ltb_spec (N_of_ascii c) 256) as [_|Hge];
    [|pose proof (N_ascii_bounded c); lia].
  rewrite ascii_N_embedding. reflexivity.
Qed.

(** On code points below 256 the two readings of [slugify] agree. *)
Lemma slugify_text_points (s : string) :
  slugify_text unicode_lower (points s) = points (slugify s).
Proof.
  unfold slugify_text, slugify, lower_text, strip. rewrite lower_from_points.
  change [hyphen_point] with (points "-").
  change hyphen_point with (N_of_ascii hyphen).
  rewrite (sub_points_points (fun c => negb (is_az09 c))) by reflexivity.
  rewrite (sub_points_points (Ascii.eqb hyphen)) by (intros c; apply eqb_points).
  rewrite lstrip_points_points, rstrip_points_points. reflexivity.
Qed.

Hypothesis unicode_lower_high :
  forall before cp after,
    (256 <= cp)%N -> Forall (fun c => (128 <= c)%N) (unicode_lower before cp after).

Lemma lower_point_sep (before : list N) (cp : N) (after : list N) :
  is_ascii_alnum_point cp = false -> cp <> 304%N -> cp <> 8490%N ->
  Forall (fun c => is_az09_point c = false) (lower_point unicode_lower before cp after).
Proof.
  intros Halnum Hi Hk. unfold lower_point.
  destruct (N.ltb_spec cp 256) as [Hlow|Hhigh].
  - constructor; [|constructor].
    change (is_az09 (lower_char (ascii_of_N cp)) = false).
    rewrite lower_char_alnum.
    change (is_ascii_alnum_point (N_of_ascii (ascii_of_N cp)) = false).
    rewrite N_ascii_embedding by exact Hlow. exact Halnum.
  - destruct (N.eqb_spec cp 304); [contradiction|].
    destruct (N.eqb_spec cp 8490); [contradiction|].
    eapply Forall_impl; [apply unicode_lower_high; exact Hhigh|].
    intros c. apply high_point_sep.
Qed.

Lemma lower_from_sep (before t : list N) :
  Forall (fun cp => is_ascii_alnum_point cp = false /\ cp <> 304%N /\ cp <> 8490%N) t ->
  Forall (fun c => is_az09_point c = false) (lower_from unicode_lower before t).
Proof.
  intros Ht. revert before. induction Ht as [|cp t (Halnum & Hi & Hk) _ IH];
    intros before; cbn [lower_from]; [constructor|].
  apply Forall_app. split; [apply lower_point_sep; assumption | apply IH].
Qed.

Lemma sub_points_all_sep (in_run : bool) (t : list N) :
  Forall (fun c => is_az09_point c = false) t ->
  sub_points (fun cp => negb (is_az09_point cp)) [hyphen_point] in_run t
  = if in_run then [] else match t with [] => [] | _ :: _ => [hyphen_point] end.
Proof.
  intros Ht. revert in_run. induction Ht as [|cp t Hcp _ IH]; intros in_run;
    [destruct in_run; reflexivity|].
  cbn [sub_points]. rewrite Hcp. cbn [negb]. rewrite (IH true).
  destruct in_run; reflexivity.
Qed.

Lemma slugify_text_empty (t : list N) :
  Forall (fun cp => is_ascii_alnum_point cp = false /\ cp <> 304%N /\ cp <> 8490%N) t ->
  slugify_text unicode_lower t = [].
Proof.
  intros Ht. unfold slugify_text, lower_text.
  rewrite (sub_points_all_sep false _ (lower_from_sep [] t Ht)).
  destruct (lower_from unicode_lower [] t); reflexivity.
Qed.

End UnicodeFacts.

Lemma slugify_no_alnum (text : string) :
  str_all (fun c => negb (is_ascii_alnum c)) text = true -> slugify text = EmptyString.
Proof.
  intros Hall. rewrite slugify_unfold.
  rewrite (rstrip_sub1_runs _ (lower_no_upper text)).
  rewrite alnum_runs_none by exact Hall. reflexivity.
Qed.

(** C10 (as amended).  When the text the slug is made from has no ASCII
    letter or digit and holds neither U+0130 nor the Kelvin sign U+212A, the
    two code points that lower-case into an ASCII letter, [slugify] returns
    the empty string, the output base is the output directory itself, and
    the two directories and every file are created directly under it.  On
    code points below 256 this is [slugify] as modelled on strings, for which
    the same holds of the text taken from the profile or the query. *)
Theorem empty_slug_writes_under_out_dir
    (unicode_lower : list N -> N -> list N -> list N) (out_dir : string) (t : list N)
    (sources_json profile_json training_json jsonld : string)
    (md : list (string * string)) :
  (forall before cp after,
      (256 <= cp)%N -> Forall (fun c => (128 <= c)%N) (unicode_lower before cp after)) ->
  Forall (fun cp => is_ascii_alnum_point cp = false /\ cp <> 304%N /\ cp <> 8490%N) t ->
  slugify_text unicode_lower t = []
  /\ output_base_text unicode_lower out_dir t = Path out_dir
  /\ write_outputs (output_base_text unicode_lower out_dir t)
       sources_json profile_json training_json md jsonld
     = [Mkdir (path_div (Path out_dir) "content");
        Mkdir (path_div (Path out_dir) "jsonld");
        WriteFile (path_div (Path out_dir) "sources.json") sources_json;
        WriteFile (path_div (Path out_dir) "profile.json") profile_json;
        WriteFile (path_div (Path out_dir) "training.json") training_json]
       ++ map (fun '(name, body) =>
                 WriteFile (path_div (path_div (Path out_dir) "content") name) body) md
       ++ [WriteFile (path_div (path_div (Path out_dir) "jsonld") "organization.jsonld")
             jsonld]
  /\ (forall s, slugify_text unicode_lower (points s) = points (slugify s))
  /\ (forall query text profile,
        slug_source profile query = Ok text ->
        str_all (fun c => negb (is_ascii_alnum c)) text = true ->
        slugify text = EmptyString
        /\ output_base out_dir profile query = Ok (Path out_dir)).
Proof.
  intros Hhigh Ht.
  pose proof (slugify_text_empty unicode_lower Hhigh t Ht) as Hslug.
  assert (Hbase : output_base_text unicode_lower out_dir t = Path out_dir).
  { unfold output_base_text. rewrite Hslug. apply path_div_empty. }
  split; [exact Hslug|]. split; [exact Hbase|].
  split; [rewrite Hbase; reflexivity|].
  split; [apply slugify_text_points|].
  intros query text profile Hsrc Hall.
  pose proof (slugify_no_alnum text Hall) as Hs.
  split; [exact Hs|].
  unfold output_base. rewrite Hsrc, Hs, path_div_empty. reflexivity.
Qed.

Lemma empty_slug_writes_under_out_dir_witness :
  slugify_text keep_point [33; 8364; 33]%N = []
  /\ output_base_text keep_point "outputs" [33; 8364; 33]%N = ["outputs"]
  /\ write_outputs (output_base_text keep_point "outputs" [33; 8364; 33]%N)
       "s" "p" "t" [("about.md", "a")] "j"
     = [Mkdir ["outputs"; "content"];
        Mkdir ["outputs"; "jsonld"];
        WriteFile ["outputs"; "sources.json"] "s";
        WriteFile ["outputs"; "profile.json"] "p";
        WriteFile ["outputs"; "training.json"] "t";
        WriteFile ["outputs"; "content"; "about.md"] "a";
        WriteFile ["outputs"; "jsonld"; "organization.jsonld"] "j"].
Proof.
  destruct (empty_slug_writes_under_out_dir keep_point "outputs" [33; 8364; 33]%N
              "s" "p" "t" "j" [("about.md", "a")])
    as (Hslug & Hbase & Hwrites & _).
  - intros before cp after Hcp. constructor; [lia | constructor].
  - repeat constructor; lia.
  - split; [exact Hslug|]. split; [exact Hbase | exact Hwrites].
Defined.

(** C10, counterexample.  The claim takes every text without an ASCII
    letter or digit to the empty slug.  The Kelvin sign is no ASCII
    character, yet [lower] turns it into ["k"]: the slug is ["k"] and the
    run writes under [outputs/k].  Likewise the name U+00C7 U+0130 U+011F
    has the slug ["i"]. *)
Lemma empty_slug_counterexample :
  Forall (fun cp => is_ascii_alnum_point cp = false) kelvin_sign
  /\ slugify_text keep_point kelvin_sign = points "k"
  /\ output_base_text keep_point "outputs" kelvin_sign = ["outputs"; "k"]
  /\ Forall (fun cp => is_ascii_alnum_point cp = false) dotted_name
  /\ slugify_text keep_point dotted_name = points "i".
Proof.
  split; [repeat constructor|]. split; [reflexivity|]. split; [reflexivity|].
  split; [repeat constructor | reflexivity].
Qed.

(** ** Facts about [render_markdown_outputs] *)

Lemma bind_outcome_ok {A B} (m : outcome A) (k : A -> outcome B) (b : B) :
  bind_outcome m k = Ok b -> exists a, m = Ok a /\ k a = Ok b.
Proof. destruct m as [a|e]; [|discriminate]. intros H. exists a. split; [reflexivity | exact H]. Qed.

Lemma map_outcome_ok {A B} (f : A -> outcome B) (l : list A) :
  Forall (fun x => exists y, f x = Ok y) l -> exists ys, map_outcome f l = Ok ys.
Proof.
  induction 1 as [|x l [y Hy] _ [ys IH]]; [exists []; reflexivity|].
  exists (y :: ys). cbn [map_outcome]. rewrite Hy, IH. reflexivity.
Qed.

Lemma py_join_ok (sep : string) (v : json) :
  is_str_list v = true -> exists s, py_join sep v = Ok s.
Proof.
  destruct v as [| | | |items|]; try discriminate. cbn [is_str_list]. intros Hall.
  unfold py_join. cbn [py_iter bind_outcome].
  destruct (map_outcome_ok (fun x => match x with JStr s => Ok s | _ => Raise TypeError end)
              items) as [strs Hs].
  - apply Forall_forall. intros x Hx.
    rewrite forallb_forall in Hall. specialize (Hall x).
    rewrite <- list_elem_of_In in Hall. specialize (Hall Hx).
    destruct x; try discriminate. eexists; reflexivity.
  - rewrite Hs. eexists; reflexivity.
Qed.

Section RenderFacts.

Variable py_repr : json -> string.
Variable py_title : string -> string.

Lemma when_present_join_ok (d : list (string * json)) (key sep : string) (dflt : json)
    (wrap : string -> string) :
  field_ok d key (falsy_or is_str_list) = true ->
  exists s, when_present d key
              (let? joined := py_join sep (default dflt (dict_get d key)) in
               Ok (wrap joined)) = Ok s.
Proof.
  unfold field_ok, when_present, falsy_or.
  destruct (dict_get d key) as [v|]; cbn [opt_json from_option id].
  - intros Hv. destruct (json_truthy v); [|eexists; reflexivity].
    destruct (py_join_ok sep v Hv) as [s ->]. eexists; reflexivity.
  - intros _. eexists; reflexivity.
Qed.

Lemma bullet_list_ok (d : list (string * json)) (key heading : string) :
  field_ok d key (falsy_or is_str_list) = true ->
  exists s, bullet_list d key heading = Ok s.
Proof.
  intros H. unfold bullet_list, opt_json.
  apply (when_present_join_ok d key (nl +:+ "- ") JNull
           (fun joined => cat [heading; joined; nl; nl]) H).
Qed.

Lemma when_present_pure_ok (d : list (string * json)) (key text : string) :
  exists s, when_present d key (Ok text) = Ok s.
Proof. unfold when_present. destruct (json_truthy _); eexists; reflexivity. Qed.

Lemma service_md_ok (d : list (string * json)) :
  service_ok d = true -> exists s, service_md py_repr (JObj d) = Ok s.
Proof.
  unfold service_ok. intros [Hb Hn]%andb_true_iff. unfold service_md.
  edestruct (when_present_pure_ok d "details") as [s1 ->]. cbn [bind_outcome].
  edestruct (bullet_list_ok d "bullets") as [s2 ->]; [exact Hb|]. cbn [bind_outcome].
  edestruct (bullet_list_ok d "benefits") as [s3 ->]; [exact Hn|]. cbn [bind_outcome].
  edestruct (when_present_pure_ok d "duration") as [s4 ->]. cbn [bind_outcome].
  edestruct (when_present_pure_ok d "pricing") as [s5 ->]. cbn [bind_outcome].
  eexists; reflexivity.
Qed.

Lemma faq_md_ok (d : list (string * json)) : exists s, faq_md py_repr (JObj d) = Ok s.
Proof. eexists; reflexivity. Qed.

Lemma section_md_ok (heading : string) (item_md : json -> outcome string)
    (fields_ok : list (string * json) -> bool) (v : json) :
  (forall d, fields_ok d = true -> exists s, item_md (JObj d) = Ok s) ->
  is_obj_list fields_ok v = true ->
  exists s, section_md heading item_md v = Ok s.
Proof.
  intros Hitem Hv. destruct v as [| | | |items|]; try discriminate.
  cbn [is_obj_list] in Hv. unfold section_md. cbn [py_iter bind_outcome].
  destruct (map_outcome_ok item_md items) as [texts ->].
  - apply Forall_forall. intros x Hx.
    rewrite forallb_forall in Hv. specialize (Hv x).
    rewrite <- list_elem_of_In in Hv. specialize (Hv Hx).
    destruct x; try discriminate. apply Hitem. exact Hv.
  - eexists; reflexivity.
Qed.



Lemma append_empty_r (s : string) : s +:+ EmptyString = s.
Proof.
  induction s as [|c s IH]; [reflexivity|].
  change (String c s +:+ EmptyString) with (String c (s +:+ EmptyString)).
  rewrite IH. reflexivity.
Qed.



Lemma field_default_ok (d : list (string * json)) (key : string) (check : json -> bool)
    (dflt : json) :
  field_ok d key check = true -> check dflt = true ->
  check (default dflt (dict_get d key)) = true.
Proof.
  unfold field_ok. destruct (dict_get d key); cbn [from_option id]; auto.
Qed.

(** *** The code renders what the specification describes *)















End RenderFacts.




(** With every key missing, the four fixed files are produced and nothing
    raises. *)
Example render_empty_profile :
  map fst (match render_markdown_outputs repr_none title_id (JObj []) with
           | Ok files => files
           | Raise _ => []
           end)
  = ["about.md"; "services.md"; "faqs.md"; "homepage-hero.md"].
Proof. reflexivity. Qed.

(** ** Facts about [truncate_sources] *)

(** The assignment of the loop body lands in the dictionary the item refers
    to, whoever else holds a reference to it: when that dictionary has a
    string under [key] longer than [limit], it is rewritten in the store. *)
Lemma truncate_field_cuts (h : heap) (l : loc) (fields : list (string * val))
    (key marker s : string) (limit : N) :
  store h !! l = Some (ODict fields) ->
  vdict_get fields key = Some (VStr s) ->
  (limit < N.of_nat (String.length s))%N ->
  truncate_field key limit marker (VRef l) h
  = (Ok tt,
     {| store := <[l := ODict (vdict_set fields key
                                 (VStr (str_take (N.to_nat limit) s +:+ marker)))]>
                   (store h);
        next_loc := next_loc h |}).
Proof.
  intros Hl Hkey Hlen.
  unfold truncate_field, py_contains, py_getitem, py_len, py_setitem, bind, deref,
    ret, assign.
  repeat (first [rewrite Hl | rewrite Hkey]; cbv beta iota).
  destruct (N.ltb_spec limit (N.of_nat (String.length s))) as [_|Hge]; [|lia].
  repeat (rewrite Hl; cbv beta iota). reflexivity.
Qed.

(** A dictionary without the key, or with a short string under it, is left
    alone. *)
Lemma truncate_field_keeps (h : heap) (l : loc) (fields : list (string * val))
    (key marker : string) (limit : N) :
  store h !! l = Some (ODict fields) ->
  (vdict_get fields key = None
   \/ exists s, vdict_get fields key = Some (VStr s)
                /\ (N.of_nat (String.length s) <= limit)%N) ->
  truncate_field key limit marker (VRef l) h = (Ok tt, h).
Proof.
  intros Hl Hkey.
  unfold truncate_field, py_contains, py_getitem, py_len, py_setitem, bind, deref,
    ret, assign.
  destruct Hkey as [Hkey|(s & Hkey & Hlen)];
    repeat (first [rewrite Hl | rewrite Hkey]; cbv beta iota); [reflexivity|].
  destruct (N.ltb_spec limit (N.of_nat (String.length s))) as [Hlt|_]; [lia|].
  reflexivity.
Qed.

(** The two bundles differ in the length of the page text. *)
Lemma bundle_cut_differs : bundle_cut <> bundle_before.
Proof.
  intros H.
  apply (f_equal (fun j =>
           match j with
           | JObj [_; _; _; (_, JArr [JObj [_; (_, JStr t)]])] =>
               N.of_nat (String.length t)
           | _ => 0%N
           end)) in H.
  vm_compute in H. discriminate H.
Qed.

(** C1, the defect.  On a bundle whose scraped page has a text of 8001
    characters and whose search result has a snippet of 501 characters,
    [truncate_sources] returns a new dictionary (location 7), but the page
    and the search result it cuts are the caller's own: read through the
    caller's reference, the bundle now holds the cut text and the cut
    snippet.  Only the page-speed entry is replaced in the copy alone. *)
Theorem truncate_sources_mutates_bundle :
  orjson_dumps bundle_heap (VRef 1) = Ok bundle_before
  /\ fst (truncate_sources (VRef 1) bundle_heap) = Ok (VRef 7)
  /\ orjson_dumps (snd (truncate_sources (VRef 1) bundle_heap)) (VRef 1) = Ok bundle_cut
  /\ bundle_cut <> bundle_before
  /\ (let? copy := orjson_dumps (snd (truncate_sources (VRef 1) bundle_heap)) (VRef 7) in
      Ok (dict_get (match copy with JObj d => d | _ => [] end) "pagespeed"))
     = Ok (Some (JObj [("summary",
                        JStr "PageSpeed data available but truncated for processing")])).
Proof.
  split; [vm_compute; reflexivity|].
  split; [vm_compute; reflexivity|].
  split; [vm_compute; reflexivity|].
  split; [exact bundle_cut_differs|].
  vm_compute. reflexivity.
Qed.

(** ** Facts about [synthesize_profile] *)

(** C2 (as amended).  Once the request has been sent and answered,
    [synthesize_profile] returns the empty object when the content is
    missing or empty; for any other content it returns what [orjson.loads]
    returns and raises what [orjson.loads] raises. *)
Theorem synthesize_profile_result (chat_completion : json -> outcome (option string))
    (orjson_loads : string -> outcome json) (sources truncated : val) (h h' : heap)
    (request : json) (content : option string) :
  truncate_sources sources h = (Ok truncated, h') ->
  orjson_dumps h' truncated = Ok request ->
  chat_completion request = Ok content ->
  (opt_truthy content = false ->
     synthesize_profile chat_completion orjson_loads sources h = (Ok (JObj []), h'))
  /\ (forall s, content = Some s -> s <> EmptyString ->
        synthesize_profile chat_completion orjson_loads sources h = (orjson_loads s, h'))
  /\ (forall s e, content = Some s -> s <> EmptyString -> orjson_loads s = Raise e ->
        synthesize_profile chat_completion orjson_loads sources h = (Raise e, h')).
Proof.
  intros Htrunc Hdump Hchat.
  assert (Hrun : synthesize_profile chat_completion orjson_loads sources h
                 = (parse_content orjson_loads content, h')).
  { unfold synthesize_profile, bind. rewrite Htrunc, Hdump. cbn [bind_outcome].
    rewrite Hchat. reflexivity. }
  assert (Hsome : forall s, content = Some s -> s <> EmptyString ->
                    parse_content orjson_loads content = orjson_loads s).
  { intros s -> Hs. unfold parse_content.
    assert (opt_truthy (Some s) = true) as -> by (apply str_truthy_true; exact Hs).
    reflexivity. }
  split; [|split].
  - intros Hempty. rewrite Hrun. unfold parse_content. rewrite Hempty. reflexivity.
  - intros s Hc Hs. rewrite Hrun, (Hsome s Hc Hs). reflexivity.
  - intros s e Hc Hs He. rewrite Hrun, (Hsome s Hc Hs), He. reflexivity.
Qed.

Lemma synthesize_profile_result_witness :
  synthesize_profile chat_not_json loads_empty_object_only (VRef 1) bundle_heap
  = (Raise JSONDecodeError, snd (truncate_sources (VRef 1) bundle_heap))
  /\ synthesize_profile (fun _ => Ok None) loads_empty_object_only (VRef 1) bundle_heap
  = (Ok (JObj []), snd (truncate_sources (VRef 1) bundle_heap)).
Proof.
  assert (Htrunc : truncate_sources (VRef 1) bundle_heap
                   = (Ok (VRef 7), snd (truncate_sources (VRef 1) bundle_heap)))
    by (vm_compute; reflexivity).
  destruct (orjson_dumps (snd (truncate_sources (VRef 1) bundle_heap)) (VRef 7))
    as [request|e] eqn:Hdump; [|vm_compute in Hdump; discriminate Hdump].
  split.
  - destruct (synthesize_profile_result chat_not_json loads_empty_object_only
                (VRef 1) (VRef 7) bundle_heap _ request (Some "not json")
                Htrunc Hdump eq_refl) as (_ & _ & Hraise).
    apply (Hraise "not json" JSONDecodeError eq_refl); [discriminate | reflexivity].
  - destruct (synthesize_profile_result (fun _ => Ok None) loads_empty_object_only
                (VRef 1) (VRef 7) bundle_heap _ request None
                Htrunc Hdump eq_refl) as (Hempty & _).
    apply Hempty. reflexivity.
Defined.

(** C2, counterexample.  The model answers with text that is not JSON; the
    claim has [synthesize_profile] return the empty object, the code raises
    the parser's [JSONDecodeError]. *)
Lemma synthesize_profile_counterexample :
  loads_empty_object_only "not json" = Raise JSONDecodeError
  /\ fst (synthesize_profile chat_not_json loads_empty_object_only (VRef 1) bundle_heap)
     = Raise JSONDecodeError.
Proof. split; vm_compute; reflexivity. Qed.

(* ===================================================================== *)
(** * Further properties of the code                                      *)
(* ===================================================================== *)

(** ** [slugify]: the shape of its result *)

Section SlugShape.

Let sub1 := re_sub_class_plus (fun c => negb (is_az09 c)) "-".

Lemma slug_tail_alnum (b : bool) (c : ascii) (s : string) :
  is_az09 c = true -> slug_tail b (String c s) = slug_tail false s.
Proof.
  intros Hc. cbn [slug_tail]. rewrite (az09_not_hyphen c Hc), Hc. reflexivity.
Qed.

Lemma rstrip_sub1_shape (s : string) :
  (rstrip hyphen (sub1 true s) = EmptyString
   \/ slug_tail true (rstrip hyphen (sub1 true s)) = true)
  /\ slug_tail false (rstrip hyphen (sub1 false s)) = true.
Proof.
  induction s as [|c s [IHt IHf]]; [split; [left|]; reflexivity|].
  destruct (is_az09 c) eqn:Hc.
  - unfold sub1 in *. rewrite !sub1_cons_alnum by exact Hc.
    rewrite rstrip_cons_other by (apply az09_not_hyphen; exact Hc).
    rewrite !slug_tail_alnum by exact Hc. split; [right|]; exact IHf.
  - unfold sub1 in *. rewrite !sub1_cons_sep by exact Hc. split; [exact IHt|].
    rewrite rstrip_cons_hyphen.
    destruct IHt as [-> | IHt]; [reflexivity|].
    destruct (rstrip hyphen _) as [|d r] eqn:E; [reflexivity|].
    cbn [str_is_empty]. change (slug_tail false (String hyphen (String d r)))
      with (negb false && slug_tail true (String d r)).
    rewrite IHt. reflexivity.
Qed.

Lemma lower_char_slug (c : ascii) :
  is_az09 c || Ascii.eqb c hyphen = true -> lower_char c = c.
Proof. destruct c as [[] [] [] [] [] [] [] []]; vm_compute; congruence. Qed.

Lemma slug_tail_chars (b : bool) (s : string) :
  slug_tail b s = true -> str_all (fun c => is_az09 c || Ascii.eqb c hyphen) s = true.
Proof.
  revert b. induction s as [|c s IH]; intros b H; [reflexivity|].
  cbn [slug_tail] in H. cbn [str_all].
  destruct (Ascii.eqb c hyphen) eqn:Hh.
  - apply andb_true_iff in H as [_ H]. rewrite orb_true_r. exact (IH _ H).
  - apply andb_true_iff in H as [Hc H]. rewrite Hc. exact (IH _ H).
Qed.

Lemma lower_slug (s : string) :
  str_all (fun c => is_az09 c || Ascii.eqb c hyphen) s = true -> lower s = s.
Proof.
  induction s as [|c s IH]; [reflexivity|].
  cbn [str_all lower]. intros [Hc Hs]%andb_true_iff.
  rewrite (lower_char_slug c Hc), (IH Hs). reflexivity.
Qed.

Lemma slug_tail_fixed (s : string) :
  (slug_tail true s = true ->
     s <> EmptyString /\ rstrip hyphen (sub1 true s) = s)
  /\ (slug_tail false s = true -> rstrip hyphen (sub1 false s) = s).
Proof.
  induction s as [|c s [IHt IHf]]; [split; [discriminate | reflexivity]|].
  destruct (Ascii.eqb c hyphen) eqn:Hh.
  - apply Ascii.eqb_eq in Hh. subst c. split; [discriminate|].
    change (slug_tail false (String hyphen s)) with (negb false && slug_tail true s).
    cbn [negb andb]. intros H. destruct (IHt H) as [Hne Hs].
    unfold sub1 in *. rewrite sub1_cons_sep by reflexivity.
    rewrite rstrip_cons_hyphen, Hs. destruct s; [congruence | reflexivity].
  - assert (Hstep : forall b, slug_tail b (String c s) = true ->
              is_az09 c = true /\ slug_tail false s = true).
    { intros b H. cbn [slug_tail] in H. rewrite Hh in H.
      apply andb_true_iff in H. exact H. }
    assert (Hfix : forall b, slug_tail b (String c s) = true ->
              rstrip hyphen (sub1 b (String c s)) = String c s).
    { intros b H. destruct (Hstep b H) as [Hc Hs].
      unfold sub1 in *. rewrite sub1_cons_alnum by exact Hc.
      rewrite rstrip_cons_other by exact Hh. rewrite (IHf Hs). reflexivity. }
    split; intros H; [split; [discriminate|]|]; apply Hfix; exact H.
Qed.

Lemma slugify_shape (s : string) :
  slugify s = EmptyString \/ slug_tail true (slugify s) = true.
Proof. rewrite slugify_unfold. apply rstrip_sub1_shape. Qed.

Lemma slugify_fixed (s : string) :
  slug_tail true s = true -> slugify s = s.
Proof.
  intros H. rewrite slugify_unfold.
  rewrite (lower_slug s (slug_tail_chars true s H)).
  apply slug_tail_fixed. exact H.
Qed.

End SlugShape.

(** X1.  Every slug is safe as a directory name: it is empty or made of
    runs of [[a-z0-9]] separated by single hyphens, with no hyphen at either
    end; in particular it holds no character outside [[a-z0-9-]]. *)
Theorem slugify_well_formed (text : string) :
  well_formed_slug (slugify text) = true
  /\ str_all (fun c => is_az09 c || Ascii.eqb c hyphen) (slugify text) = true.
Proof.
  unfold well_formed_slug.
  destruct (slugify_shape text) as [-> | H]; [split; reflexivity|].
  rewrite H, orb_true_r. split; [reflexivity|].
  exact (slug_tail_chars true _ H).
Qed.

(** X2.  [slugify] is idempotent, and it leaves every well-formed slug as
    it is. *)
Theorem slugify_idempotent (text : string) :
  slugify (slugify text) = slugify text
  /\ (forall slug, well_formed_slug slug = true -> slugify slug = slug).
Proof.
  assert (Hfix : forall slug, well_formed_slug slug = true -> slugify slug = slug).
  { intros slug H. unfold well_formed_slug in H.
    destruct slug as [|c slug]; [reflexivity|].
    cbn [str_is_empty orb] in H. apply slugify_fixed. exact H. }
  split; [|exact Hfix].
  destruct (slugify_shape text) as [-> | H]; [reflexivity|].
  apply slugify_fixed. exact H.
Qed.

Lemma slugify_idempotent_witness :
  well_formed_slug "joe-s-plumbing-co" = true
  /\ slugify "joe-s-plumbing-co" = "joe-s-plumbing-co".
Proof.
  split; [reflexivity|].
  apply (proj2 (slugify_idempotent EmptyString)). reflexivity.
Defined.

(** ** The HTTP wrapper: how long a call can wait *)

Lemma wait_exponential_ge (n : nat) : (1000 <= wait_exponential 500 1000 8000 n)%Z.
Proof. unfold wait_exponential. lia. Qed.

Lemma wait_exponential_le (n : nat) : (wait_exponential 500 1000 8000 n <= 8000)%Z.
Proof. unfold wait_exponential. lia. Qed.

Lemma pow2_mono (a b : Z) : (a <= b)%Z -> (2 ^ a <= 2 ^ b)%Z.
Proof.
  intros Hab. destruct (Z.lt_ge_cases a 0) as [Ha|Ha].
  - rewrite (Z.pow_neg_r 2 a Ha). apply Z.pow_nonneg. lia.
  - apply Z.pow_le_mono_r; lia.
Qed.

(** X3.  Whatever the attempt number, the pause chosen by the decorator of
    [get_json] and [get_text] lies between 1 s and 8 s, and it never shrinks
    from one attempt to the next. *)
Theorem wait_exponential_bounds (n m : nat) :
  (1000 <= wait_exponential 500 1000 8000 n <= 8000)%Z
  /\ (n <= m ->
      (wait_exponential 500 1000 8000 n <= wait_exponential 500 1000 8000 m)%Z).
Proof.
  split; [split; [apply wait_exponential_ge | apply wait_exponential_le]|].
  intros Hnm. unfold wait_exponential.
  assert (2 ^ (Z.of_nat n - 1) <= 2 ^ (Z.of_nat m - 1))%Z by (apply pow2_mono; lia).
  lia.
Qed.

Lemma wait_exponential_bounds_witness :
  (wait_exponential 500 1000 8000 2 <= wait_exponential 500 1000 8000 5)%Z.
Proof. apply (proj2 (wait_exponential_bounds 2 5)). lia. Defined.

Section HttpCost.

Context {request A : Type}.
Variable server : request -> nat -> reply.
Variable decode : response -> outcome A.
Variable req : request.

(** The network after a retried call: one request per attempt, and between
    two attempts the pause of the earlier one. *)
Lemma retry_from_net (wait : nat -> Z) (retry_if : exn -> bool)
    (remaining n : nat) (w : net) :
  exists k,
    k <= remaining
    /\ snd (retry_from wait retry_if remaining n (get_once server decode req) w)
       = {| sent := sent w + S k; pauses := pauses w ++ map wait (seq n k) |}.
Proof.
  revert n w. induction remaining as [|r IH]; intros n w; cbn [retry_from];
    pose proof (get_once_net server decode req w) as Hn;
    destruct (get_once server decode req w) as [[a|e] w']; cbn [snd] in Hn; subst w'.
  - exists 0. split; [lia|]. cbn [snd seq map]. rewrite app_nil_r, Nat.add_1_r.
    reflexivity.
  - exists 0. split; [lia|]. destruct (retry_if e); cbn [snd seq map];
      rewrite app_nil_r, Nat.add_1_r; reflexivity.
  - exists 0. split; [lia|]. cbn [snd seq map]. rewrite app_nil_r, Nat.add_1_r.
    reflexivity.
  - destruct (retry_if e).
    + cbn [sleep sent pauses].
      destruct (IH (S n) {| sent := S (sent w); pauses := pauses w ++ [wait n] |})
        as (k & Hk & ->).
      exists (S k). split; [lia|]. cbn [sent pauses seq map].
      rewrite <- app_assoc. f_equal. lia.
    + exists 0. split; [lia|]. cbn [snd seq map]. rewrite app_nil_r, Nat.add_1_r.
      reflexivity.
Qed.

End HttpCost.

(** X4.  Whatever the server does, a call through [get_json] or [get_text]
    sends [k + 1] requests for some [k <= 3] and pauses exactly the first
    [k] of 1 s, 1 s, 2 s: a call never sleeps for more than 4 s in all. *)
Theorem get_with_total_pause {request A : Type} (server : request -> nat -> reply)
    (decode : response -> outcome A) (req : request) :
  exists k,
    k <= 3
    /\ sent (snd (get_with server decode req net0)) = S k
    /\ pauses (snd (get_with server decode req net0)) = take k [1000; 1000; 2000]%Z
    /\ (foldr Z.add 0 (pauses (snd (get_with server decode req net0))) <= 4000)%Z.
Proof.
  unfold get_with, http_retry, tenacity_retry. change (4 - 1) with 3.
  destruct (retry_from_net server decode req (wait_exponential 500 1000 8000)
              is_HttpError 3 1 net0) as (k & Hk & ->).
  exists k. cbn [sent pauses net0 app Nat.add].
  destruct k as [|[|[|[|k]]]]; [| | | |lia];
    (split; [lia|]; split; [reflexivity|]; split; [reflexivity|]);
    vm_compute; discriminate.
Qed.

(** ** The primary URL: always one of the search results *)

Lemma first_official_link (extract_domain : string -> string)
    (items : list cse_item) (link : string) :
  first_official extract_domain items = Some link ->
  exists item, item ∈ items /\ item_link item = Some link
               /\ official_link extract_domain item = true.
Proof.
  induction items as [|x items IH]; [discriminate|].
  cbn [first_official]. destruct (official_link extract_domain x) eqn:Hx.
  - intros H. exists x. split; [left | split; assumption].
  - intros H. destruct (IH H) as (item & Hin & Hl & Ho).
    exists item. split; [right; exact Hin | split; assumption].
Qed.

Lemma first_official_missing (extract_domain : string -> string)
    (items : list cse_item) :
  first_official extract_domain items = None ->
  forall item, item ∈ items ->
    official_link extract_domain item = false \/ item_link item = None.
Proof.
  induction items as [|x items IH]; intros H item Hin.
  - apply elem_of_nil in Hin. contradiction.
  - cbn [first_official] in H. destruct (official_link extract_domain x) eqn:Hx.
    + apply elem_of_cons in Hin as [-> | Hin]; [right; exact H|].
      apply official_link_eligible in Hx as (l & Hl & _). congruence.
    + apply elem_of_cons in Hin as [-> | Hin]; [left; exact Hx|].
      exact (IH H item Hin).
Qed.

(** X5.  The primary URL is never made up: when one is chosen it is the
    link of one of the search results, and when a result is eligible the
    URL chosen is the link of an eligible result, hence not empty. *)
Theorem pick_primary_url_member (extract_domain : string -> string)
    (cse_items : list cse_item) :
  (forall link,
      pick_primary_url extract_domain cse_items = Some link ->
      exists item, item ∈ cse_items /\ item_link item = Some link)
  /\ (forall item,
        item ∈ cse_items -> eligible extract_domain item ->
        exists chosen link,
          chosen ∈ cse_items /\ eligible extract_domain chosen
          /\ item_link chosen = Some link /\ link <> EmptyString
          /\ pick_primary_url extract_domain cse_items = Some link).
Proof.
  split.
  - intros link H. destruct cse_items as [|first rest]; [discriminate|].
    unfold pick_primary_url in H.
    destruct (first_official extract_domain (first :: rest)) as [l|] eqn:Hf.
    + injection H as ->.
      destruct (first_official_link _ _ _ Hf) as (item & Hin & Hl & _).
      exists item. split; assumption.
    + exists first. split; [left | exact H].
  - intros item Hin Hel. destruct cse_items as [|first rest].
    { apply elem_of_nil in Hin. contradiction. }
    unfold pick_primary_url.
    destruct (first_official extract_domain (first :: rest)) as [l|] eqn:Hf.
    + destruct (first_official_link _ _ _ Hf) as (chosen & Hc & Hl & Ho).
      apply official_link_eligible in Ho.
      exists chosen, l. repeat split; try assumption.
      destruct Ho as (l' & Hl' & Hne & _). congruence.
    + exfalso. destruct (first_official_missing _ _ Hf item Hin) as [Ho | Hn].
      * apply official_link_eligible in Hel. congruence.
      * destruct Hel as (l & Hl & _). congruence.
Qed.

Lemma pick_primary_url_member_witness :
  exists chosen link,
    chosen ∈ video_first /\ eligible sample_domain chosen
    /\ item_link chosen = Some link /\ link <> EmptyString
    /\ pick_primary_url sample_domain video_first = Some link.
Proof.
  apply (proj2 (pick_primary_url_member sample_domain video_first)
           (link_only "https://www.acme.com/")).
  - right. left.
  - apply official_link_eligible. reflexivity.
Defined.

(** ** The scraping block: social profiles *)

(** X6.  When the scraping block returns, it holds at most five social
    profiles; each is a link of the primary page, off the primary domain,
    whose registrable domain names a social host, and its platform is that
    registrable domain. *)
Theorem social_profiles_bounded {World : Type} (extract_domain : string -> string)
    (extract_text : string -> M World page) (primary_url : string)
    (w w1 w2 : World) (first : page) (res : scrape_result) :
  extract_text primary_url w = (Ok first, w1) ->
  scrape_site extract_domain extract_text primary_url w = (Ok res, w2) ->
  length (social_profiles res) <= 5
  /\ forall sp, sp ∈ social_profiles res ->
       social_url sp ∈ page_links first
       /\ social_platform sp = extract_domain (social_url sp)
       /\ extract_domain (social_url sp) <> extract_domain primary_url
       /\ mentions_any social_hosts (extract_domain (social_url sp)) = true.
Proof.
  intros Hfirst Hrun. unfold scrape_site, bind in Hrun. rewrite Hfirst in Hrun.
  destruct (scrape_internal extract_text _ [first] w1) as [scraped w'].
  injection Hrun as <- _. cbn [social_profiles]. split.
  - rewrite length_map, length_take. lia.
  - intros sp Hsp. apply list_elem_of_In in Hsp. apply in_map_iff in Hsp as (link & <- & Hin).
    apply list_elem_of_In in Hin.
    apply (subseteq_take 5) in Hin. unfold social_links in Hin.
    apply list_elem_of_filter in Hin as [Hsoc Hin].
    unfold is_social, is_internal in Hsoc.
    apply andb_true_iff in Hsoc as [Hne Hm]. apply negb_true_iff in Hne.
    cbn [social_url social_platform]. repeat split; try assumption.
    intros Heq. rewrite Heq, String.eqb_refl in Hne. discriminate.
Qed.

Lemma social_profiles_bounded_witness :
  match scrape_site sample_domain acme_fetch "https://www.acme.com" 0 with
  | (Ok res, _) => length (social_profiles res) <= 5
  | (Raise _, _) => True
  end.
Proof.
  destruct (scrape_site sample_domain acme_fetch "https://www.acme.com" 0)
    as [[res|e] w2] eqn:E; [|exact I].
  apply (proj1 (social_profiles_bounded sample_domain acme_fetch "https://www.acme.com"
                  0 1 w2
                  {| page_url := "https://www.acme.com"; page_text := "Acme";
                     page_links := acme_links |} res eq_refl E)).
Defined.

(** ** [find_businesses]: the radii it asks for, and its edge cases *)

Section BulkMore.

Context {location : Type}.
Variable geocode_address : string -> outcome (list location).
Variable target_count : Z.

Lemma search_rounds_agree (nearby nearby' : location -> Z -> string -> nearby_pages)
    (loc : location) (genre : string) (rounds : nat) (radius : Z)
    (businesses : list place) :
  (forall i, i < rounds -> (radius * 2 ^ Z.of_nat i <= 100000)%Z ->
     nearby loc (radius * 2 ^ Z.of_nat i)%Z genre
     = nearby' loc (radius * 2 ^ Z.of_nat i)%Z genre) ->
  search_rounds nearby target_count loc genre rounds radius businesses
  = search_rounds nearby' target_count loc genre rounds radius businesses.
Proof.
  revert radius businesses. induction rounds as [|n IH]; intros radius businesses H;
    [reflexivity|].
  cbn [search_rounds].
  destruct (Z.of_nat (length businesses) <? target_count)%Z; [|reflexivity].
  destruct (Z.leb_spec radius 100000) as [Hr|Hr]; [|reflexivity].
  cbn [andb].
  assert (H0 : nearby loc radius genre = nearby' loc radius genre).
  { specialize (H 0). cbn in H. rewrite Z.mul_1_r in H. apply H; lia. }
  rewrite H0.
  destruct (walk_pages target_count (nearby' loc radius genre) businesses) as [bs|e];
    [|reflexivity].
  apply IH. intros i Hi Hle.
  specialize (H (S i)).
  rewrite Nat2Z.inj_succ, Z.pow_succ_r, Z.mul_assoc in H by lia.
  apply H; [lia | exact Hle].
Qed.

Lemma collect_bound (items businesses : list place) :
  (Z.of_nat (length businesses) < target_count)%Z ->
  (Z.of_nat (length (collect target_count items businesses)) <= target_count)%Z.
Proof.
  revert businesses. induction items as [|it items IH]; intros businesses Hlt;
    cbn [collect]; [lia|].
  destruct (place_id it); [|apply IH; exact Hlt].
  destruct (Z.leb_spec target_count (Z.of_nat (length (businesses ++ [it]))))
    as [Hge|Hlt'].
  - rewrite length_app in *. cbn [length] in *. lia.
  - apply IH. exact Hlt'.
Qed.

Lemma walk_pages_bound (pages : nearby_pages) (businesses bs : list place) :
  (Z.of_nat (length businesses) < target_count)%Z ->
  walk_pages target_count pages businesses = Ok bs ->
  (Z.of_nat (length bs) <= target_count)%Z.
Proof.
  revert businesses. induction pages as [e|results|results token rest IH];
    intros businesses Hlt; cbn [walk_pages].
  - discriminate.
  - intros [= <-]. apply collect_bound. exact Hlt.
  - pose proof (collect_bound results businesses Hlt) as Hc.
    destruct (str_truthy token); cbn [andb].
    + destruct (Z.ltb_spec (Z.of_nat (length (collect target_count results businesses)))
                  target_count) as [Hlt'|_].
      * apply IH. exact Hlt'.
      * intros [= <-]. exact Hc.
    + intros [= <-]. exact Hc.
Qed.

Lemma search_rounds_bound (nearby : location -> Z -> string -> nearby_pages)
    (loc : location) (genre : string) (rounds : nat) (radius : Z)
    (businesses bs : list place) :
  (Z.of_nat (length businesses) <= Z.max 0 target_count)%Z ->
  search_rounds nearby target_count loc genre rounds radius businesses = Ok bs ->
  (Z.of_nat (length bs) <= Z.max 0 target_count)%Z.
Proof.
  revert radius businesses. induction rounds as [|n IH]; intros radius businesses Hle;
    cbn [search_rounds].
  - intros [= <-]. exact Hle.
  - destruct (Z.ltb_spec (Z.of_nat (length businesses)) target_count) as [Hlt|_];
      cbn [andb]; [|intros [= <-]; exact Hle].
    destruct (radius <=? 100000)%Z; [|intros [= <-]; exact Hle].
    destruct (walk_pages target_count (nearby loc radius genre) businesses)
      as [bs'|e] eqn:Hw; [|discriminate].
    apply IH. pose proof (walk_pages_bound _ _ _ Hlt Hw). lia.
Qed.

End BulkMore.

(** X7.  [find_businesses] only ever asks for the radii 5, 10, 20, 40 and
    80 km: two Places services that agree on these five radii give the same
    result, so the sixth round allowed by the counter never runs. *)
Theorem find_businesses_radii {location : Type}
    (geocode_address : string -> outcome (list location))
    (nearby nearby' : location -> Z -> string -> nearby_pages)
    (target_count : Z) (zip_code genre : string) :
  (forall loc radius,
      In radius [5000; 10000; 20000; 40000; 80000]%Z ->
      nearby loc radius genre = nearby' loc radius genre) ->
  find_businesses geocode_address nearby target_count zip_code genre
  = find_businesses geocode_address nearby' target_count zip_code genre.
Proof.
  intros H. unfold find_businesses, gather.
  destruct (geocode_address zip_code) as [[|loc locs]|e]; try reflexivity.
  rewrite (search_rounds_agree target_count nearby nearby' loc genre 6 5000 []);
    [reflexivity|].
  intros i Hi Hle. apply H.
  destruct i as [|[|[|[|[|[|i]]]]]]; try lia; cbn in *; try lia; auto 10.
Qed.

Lemma find_businesses_radii_witness :
  find_businesses one_location overlapping_pages 5 "78701" "dentist"
  = find_businesses one_location
      (fun loc radius genre =>
         if (radius <=? 80000)%Z then overlapping_pages loc radius genre
         else NearbyFails RequestsConnectionError)
      5 "78701" "dentist".
Proof.
  apply find_businesses_radii. intros loc radius Hin.
  cbn [In] in Hin.
  destruct Hin as [<-|[<-|[<-|[<-|[<-|[]]]]]]; reflexivity.
Defined.

(** X8.  The edge cases of [find_businesses]: an exception of the geocoder
    is passed on; a ZIP code that geocodes to nothing raises a
    [RuntimeError] that names it; with a target of zero or less the result
    is empty and no places request matters; a failure of the first places
    request is passed on when the target is positive; and the entries
    gathered before de-duplication never outnumber the target. *)
Theorem find_businesses_edges {location : Type}
    (geocode_address : string -> outcome (list location))
    (places_nearby : location -> Z -> string -> nearby_pages)
    (target_count : Z) (zip_code genre : string) :
  (forall e, geocode_address zip_code = Raise e ->
     find_businesses geocode_address places_nearby target_count zip_code genre = Raise e)
  /\ (geocode_address zip_code = Ok [] ->
      find_businesses geocode_address places_nearby target_count zip_code genre
      = Raise (RuntimeError ("Could not geocode " +:+ zip_code)))
  /\ (forall loc locs, geocode_address zip_code = Ok (loc :: locs) ->
        (target_count <= 0)%Z ->
        find_businesses geocode_address places_nearby target_count zip_code genre = Ok [])
  /\ (forall loc locs e, geocode_address zip_code = Ok (loc :: locs) ->
        (0 < target_count)%Z ->
        places_nearby loc 5000%Z genre = NearbyFails e ->
        find_businesses geocode_address places_nearby target_count zip_code genre
        = Raise e)
  /\ (forall gathered,
        gather geocode_address places_nearby target_count zip_code genre = Ok gathered ->
        (Z.of_nat (length gathered) <= Z.max 0 target_count)%Z).
Proof.
  unfold find_businesses, gather. repeat split.
  - intros e ->. reflexivity.
  - intros ->. reflexivity.
  - intros loc locs -> Ht.
    rewrite (search_rounds_no_target location places_nearby target_count loc genre
               6 5000 Ht).
    unfold slice_to. cbn [dedupe].
    destruct (0 <=? target_count)%Z; rewrite take_nil; reflexivity.
  - intros loc locs e -> Ht Hfail. cbn [search_rounds length].
    destruct (Z.ltb_spec (Z.of_nat 0) target_count) as [_|Hge]; [|lia].
    cbn [andb Z.leb Z.compare Pos.compare Pos.compare_cont].
    rewrite Hfail. reflexivity.
  - intros gathered.
    destruct (geocode_address zip_code) as [[|loc locs]|e]; try discriminate.
    apply search_rounds_bound. cbn [length]. lia.
Qed.

Lemma find_businesses_edges_witness :
  find_businesses (fun _ : string => Ok (@nil unit)) overlapping_pages 5 "00000" "dentist"
  = Raise (RuntimeError "Could not geocode 00000")
  /\ find_businesses one_location overlapping_pages 0 "78701" "dentist" = Ok [].
Proof.
  split.
  - apply (find_businesses_edges (fun _ : string => Ok (@nil unit)) overlapping_pages 5
             "00000" "dentist"). reflexivity.
  - apply (find_businesses_edges one_location overlapping_pages 0 "78701" "dentist")
      with (loc := tt) (locs := []); [reflexivity | lia].
Defined.

(** ** De-duplication loses no place *)

Lemma dedupe_fixed (seen : gset string) (bs : list place) :
  NoDup (place_id <$> bs) ->
  (forall b, b ∈ bs ->
     exists pid, place_id b = Some pid /\ pid <> EmptyString /\ pid ∉ seen) ->
  dedupe seen bs = bs.
Proof.
  revert seen. induction bs as [|x bs IH]; intros seen Hnd Hall; [reflexivity|].
  cbn [dedupe]. rewrite fmap_cons in Hnd. apply NoDup_cons in Hnd as [Hx Hnd].
  destruct (Hall x) as (pid & Hpid & Hne & Hseen); [left|].
  rewrite Hpid.
  assert (str_truthy pid = true) as -> by (apply str_truthy_true; exact Hne).
  rewrite bool_decide_eq_true_2 by exact Hseen. cbn [andb].
  f_equal. apply IH; [exact Hnd|].
  intros b Hb. destruct (Hall b) as (q & Hq & Hqne & Hqs); [right; exact Hb|].
  exists q. repeat split; [exact Hq | exact Hqne |].
  intros Hin. apply elem_of_union in Hin as [Hin|Hin]; [|contradiction].
  apply elem_of_singleton in Hin. subst q.
  apply Hx. apply list_elem_of_fmap. exists b. split; [congruence | exact Hb].
Qed.

(** X9.  De-duplication loses no place: every non-empty place id among the
    gathered entries is the id of an entry that is kept; and de-duplicating
    twice changes nothing. *)
Theorem dedupe_keeps_every_id (businesses : list place) :
  (forall b pid, b ∈ businesses -> place_id b = Some pid -> pid <> EmptyString ->
     exists b', b' ∈ dedupe ∅ businesses /\ place_id b' = Some pid)
  /\ dedupe ∅ (dedupe ∅ businesses) = dedupe ∅ businesses.
Proof.
  split.
  - intros b pid Hb Hpid Hne.
    apply (dedupe_complete ∅ businesses b pid Hb Hpid Hne). set_solver.
  - apply dedupe_fixed; [apply dedupe_NoDup|].
    intros b Hb. apply (dedupe_ids ∅ businesses b Hb).
Qed.

Lemma dedupe_keeps_every_id_witness :
  exists b', b' ∈ dedupe ∅ [shop "a"; unnamed_place; shop "b"; shop "a"]
             /\ place_id b' = Some "b".
Proof.
  apply (proj1 (dedupe_keeps_every_id [shop "a"; unnamed_place; shop "b"; shop "a"])
           (shop "b") "b").
  - right. right. left.
  - reflexivity.
  - discriminate.
Defined.

(** ** The JSON-LD document: errors and the slash before the fragment *)

Lemma rstrip_last (ch : ascii) (s : string) : str_last (rstrip ch s) <> Some ch.
Proof.
  induction s as [|c s IH]; [discriminate|].
  cbn [rstrip]. destruct (Ascii.eqb_spec c ch) as [->|Hc]; cbn [andb].
  - destruct (rstrip ch s) as [|d r] eqn:E; [discriminate|].
    cbn [str_is_empty str_last]. exact IH.
  - destruct (rstrip ch s) as [|d r] eqn:E.
    + cbn [str_last]. congruence.
    + cbn [str_last]. exact IH.
Qed.

Lemma str_length_app (a b : string) :
  String.length (a +:+ b) = String.length a + String.length b.
Proof.
  induction a as [|c a IH]; [reflexivity|].
  change (String c a +:+ b) with (String c (a +:+ b)). cbn [String.length].
  rewrite IH. reflexivity.
Qed.

(** A suffix that starts with [ch] can only end [base +:+ rest] past the end
    of [base] when [base] ends in [ch]. *)
Lemma str_endswith_cons_app (ch : ascii) (rest base : string) :
  str_last base <> Some ch ->
  str_endswith (String ch rest) rest = false ->
  str_endswith (String ch rest) (base +:+ rest) = false.
Proof.
  intros Hlast Hrest. induction base as [|c base IH]; [exact Hrest|].
  change (String c base +:+ rest) with (String c (base +:+ rest)).
  cbn [str_endswith]. apply orb_false_iff. split.
  - destruct (String.eqb_spec (String ch rest) (String c (base +:+ rest))) as [Heq|];
      [|reflexivity].
    exfalso. injection Heq as -> Hlen.
    destruct base as [|d base]; [apply Hlast; reflexivity|].
    apply (f_equal String.length) in Hlen. rewrite str_length_app in Hlen.
    cbn [String.length] in Hlen. lia.
  - destruct base as [|d base]; [exact Hrest|].
    apply IH. exact Hlast.
Qed.

Lemma org_id_no_slash (org : list (string * json)) (primary_url : option string)
    (ident : string) :
  org_id org primary_url = Ok ident -> str_endswith "/#organization" ident = false.
Proof.
  unfold org_id. destruct (opt_truthy primary_url).
  - destruct (default (JStr EmptyString) (dict_get org "url")) as [| | |url| |];
      try discriminate.
    intros [= <-]. apply (str_endswith_cons_app slash "#organization"); [|reflexivity].
    destruct (str_truthy (rstrip slash url)); apply rstrip_last.
  - intros [= <-]. reflexivity.
Qed.

(** X10.  Edge cases of the JSON-LD block.  An organization that is not an
    object, and a url that is not a string while a primary URL is present,
    raise [AttributeError].  Without a primary URL the [@id] is just
    ["#organization"], whatever url the profile gives.  And in no document
    does a slash stand right before ["#organization"]. *)
Theorem org_graph_edges (d : list (string * json)) (primary_url : option string) :
  (forall v, dict_get d "organization" = Some v -> is_obj v = false ->
     org_graph (JObj d) primary_url = Raise AttributeError)
  /\ (forall org v, dict_get d "organization" = Some (JObj org) ->
        opt_truthy primary_url = true ->
        dict_get org "url" = Some v -> is_str v = false ->
        org_graph (JObj d) primary_url = Raise AttributeError)
  /\ (forall org, dict_get d "organization" = Some (JObj org) ->
        opt_truthy primary_url = false ->
        org_graph (JObj d) primary_url
        = Ok (JObj [("@context", JStr "https://schema.org");
                    ("@graph", JArr [JObj (org_node org primary_url "#organization")])]))
  /\ (forall node ident,
        org_graph (JObj d) primary_url
        = Ok (JObj [("@context", JStr "https://schema.org");
                    ("@graph", JArr [JObj node])]) ->
        dict_get node "@id" = Some (JStr ident) ->
        str_endswith "/#organization" ident = false).
Proof.
  unfold org_graph, py_get_default. repeat split.
  - intros v -> Hv. cbn [from_option id]. destruct v; try reflexivity. discriminate.
  - intros org v -> Ht Hurl Hv. cbn [from_option id]. unfold org_id.
    rewrite Ht, Hurl. cbn [from_option id]. destruct v; try reflexivity. discriminate.
  - intros org -> Hf. cbn [from_option id]. unfold org_id. rewrite Hf. reflexivity.
  - intros node ident H Hid.
    destruct (default (JObj []) (dict_get d "organization")) as [| | | | |org];
      try discriminate.
    destruct (org_id org primary_url) as [i|e] eqn:Ho; [|discriminate].
    injection H as <-. cbn in Hid. injection Hid as <-.
    exact (org_id_no_slash org primary_url i Ho).
Qed.

Lemma org_graph_edges_witness :
  org_graph (JObj [("organization", JObj [("url", JStr "https://www.acme.com/")])]) None
  = Ok (JObj [("@context", JStr "https://schema.org");
              ("@graph",
               JArr [JObj (org_node [("url", JStr "https://www.acme.com/")] None
                             "#organization")])])
  /\ org_graph (JObj [("organization", JNull)]) None = Raise AttributeError.
Proof.
  split.
  - apply (org_graph_edges
             [("organization", JObj [("url", JStr "https://www.acme.com/")])] None);
      reflexivity.
  - apply (org_graph_edges [("organization", JNull)] None) with (v := JNull);
      reflexivity.
Defined.

(** ** [render_markdown_outputs]: what makes it raise *)

(** X11.  [render_markdown_outputs] raises [AttributeError] on a profile
    that is not an object and on a profile whose organization is not an
    object; when the organization is fine it raises [TypeError] on services
    that are null, a number or a boolean; and when organization, services
    and faqs are fine it raises [AttributeError] on a voice whose tone is
    present and not a string, null included. *)
Theorem render_markdown_errors (py_repr : json -> string) (py_title : string -> string)
    (d : list (string * json)) :
  (forall profile, is_obj profile = false ->
     render_markdown_outputs py_repr py_title profile = Raise AttributeError)
  /\ (forall v, dict_get d "organization" = Some v -> is_obj v = false ->
        render_markdown_outputs py_repr py_title (JObj d) = Raise AttributeError)
  /\ (forall v, field_ok d "organization" is_obj = true ->
        dict_get d "services" = Some v ->
        match v with JNull | JBool _ | JNum _ => True | _ => False end ->
        render_markdown_outputs py_repr py_title (JObj d) = Raise TypeError)
  /\ (forall voice tone,
        field_ok d "organization" is_obj = true ->
        field_ok d "services" (is_obj_list service_ok) = true ->
        field_ok d "faqs" (is_obj_list (fun _ => true)) = true ->
        dict_get d "voice" = Some (JObj voice) ->
        dict_get voice "tone" = Some tone -> is_str tone = false ->
        render_markdown_outputs py_repr py_title (JObj d) = Raise AttributeError).
Proof.
  repeat split.
  - intros profile H. destruct profile; try reflexivity. discriminate.
  - intros v Hv Hobj. unfold render_markdown_outputs.
    cbn [py_get_default bind_outcome]. rewrite Hv. cbn [from_option id].
    destruct v; try reflexivity. discriminate.
  - intros v Horg Hv Hbad. unfold render_markdown_outputs.
    cbn [py_get_default bind_outcome].
    pose proof (field_default_ok d "organization" is_obj (JObj []) Horg eq_refl) as Ho.
    destruct (default (JObj []) (dict_get d "organization")) as [| | | | |org];
      try discriminate Ho.
    cbn [py_get_default bind_outcome]. rewrite Hv. cbn [from_option id].
    destruct v; try contradiction; reflexivity.
  - intros voice tone Horg Hservices Hfaqs Hvoice Htone Hbad.
    unfold render_markdown_outputs. cbn [py_get_default bind_outcome].
    pose proof (field_default_ok d "organization" is_obj (JObj []) Horg eq_refl) as Ho.
    destruct (default (JObj []) (dict_get d "organization")) as [| | | | |org];
      try discriminate Ho.
    cbn [py_get_default bind_outcome].
    destruct (section_md_ok (cat ["# Services"; nl; nl]) (service_md py_repr) service_ok
                (default (JArr []) (dict_get d "services")))
      as [services_md ->];
      [apply service_md_ok | apply field_default_ok; [exact Hservices | reflexivity] |].
    cbn [bind_outcome].
    destruct (section_md_ok (cat ["# Frequently Asked Questions"; nl; nl])
                (faq_md py_repr) (fun _ => true)
                (default (JArr []) (dict_get d "faqs")))
      as [faqs_md ->];
      [intros; apply faq_md_ok | apply field_default_ok; [exact Hfaqs | reflexivity] |].
    cbn [bind_outcome]. rewrite Hvoice. cbn [from_option id py_get_default bind_outcome].
    rewrite Htone. cbn [from_option id].
    destruct tone; try reflexivity. discriminate.
Qed.

Lemma render_markdown_errors_witness :
  render_markdown_outputs repr_none title_id (JObj [("voice", JObj [("tone", JNull)])])
  = Raise AttributeError
  /\ render_markdown_outputs repr_none title_id (JObj [("services", JNull)])
     = Raise TypeError.
Proof.
  split.
  - apply (render_markdown_errors repr_none title_id
             [("voice", JObj [("tone", JNull)])]) with (voice := [("tone", JNull)])
                                                       (tone := JNull);
      reflexivity.
  - apply (render_markdown_errors repr_none title_id [("services", JNull)])
      with (v := JNull); [reflexivity | reflexivity | exact I].
Defined.

(** ** [truncate_sources]: cutting twice *)

Lemma vdict_get_set (fields : list (string * val)) (key : string) (v : val) :
  vdict_get (vdict_set fields key v) key = Some v.
Proof.
  induction fields as [|[k old] fields IH]; cbn [vdict_set vdict_get].
  - rewrite String.eqb_refl. reflexivity.
  - destruct (String.eqb k key) eqn:E; cbn [vdict_get]; rewrite E; [reflexivity | exact IH].
Qed.

Lemma vdict_set_set (fields : list (string * val)) (key : string) (v v' : val) :
  vdict_set (vdict_set fields key v) key v' = vdict_set fields key v'.
Proof.
  induction fields as [|[k old] fields IH]; cbn [vdict_set].
  - rewrite String.eqb_refl. reflexivity.
  - destruct (String.eqb k key) eqn:E; cbn [vdict_set]; rewrite E;
      [reflexivity | rewrite IH; reflexivity].
Qed.

Lemma str_take_length (n : nat) (s : string) :
  n <= String.length s -> String.length (str_take n s) = n.
Proof.
  revert s. induction n as [|n IH]; intros s Hn; [destruct s; reflexivity|].
  destruct s as [|c s]; cbn [String.length] in Hn; [lia|].
  cbn [str_take String.length]. rewrite IH by lia. reflexivity.
Qed.

Lemma str_take_app (n : nat) (s marker : string) :
  n <= String.length s -> str_take n (str_take n s +:+ marker) = str_take n s.
Proof.
  revert s. induction n as [|n IH]; intros s Hn.
  - reflexivity.
  - destruct s as [|c s]; cbn [String.length] in Hn; [lia|].
    cbn [str_take].
    change (String c (str_take n s) +:+ marker)
      with (String c (str_take n s +:+ marker)).
    cbn [str_take]. rewrite IH by lia. reflexivity.
Qed.

(** X12.  Cutting is stable.  When a page (or search result) holds a text
    longer than the limit, the loop body of [truncate_sources] leaves in it
    a text of exactly [limit] characters plus the marker, and running the
    body again on the same dictionary changes nothing more. *)
Theorem truncate_field_stable (h : heap) (l : loc) (fields : list (string * val))
    (key marker s : string) (limit : N) :
  store h !! l = Some (ODict fields) ->
  vdict_get fields key = Some (VStr s) ->
  (limit < N.of_nat (String.length s))%N ->
  exists h1 fields1 s1,
    truncate_field key limit marker (VRef l) h = (Ok tt, h1)
    /\ store h1 !! l = Some (ODict fields1)
    /\ vdict_get fields1 key = Some (VStr s1)
    /\ String.length s1 = N.to_nat limit + String.length marker
    /\ truncate_field key limit marker (VRef l) h1 = (Ok tt, h1).
Proof.
  intros Hl Hkey Hlen.
  set (s1 := str_take (N.to_nat limit) s +:+ marker).
  set (fields1 := vdict_set fields key (VStr s1)).
  set (h1 := {| store := <[l := ODict fields1]> (store h); next_loc := next_loc h |}).
  assert (Hs1 : String.length s1 = N.to_nat limit + String.length marker).
  { unfold s1. rewrite str_length_app, str_take_length by lia. reflexivity. }
  assert (Hl1 : store h1 !! l = Some (ODict fields1)) by apply lookup_insert_eq.
  assert (Hk1 : vdict_get fields1 key = Some (VStr s1)) by apply vdict_get_set.
  exists h1, fields1, s1.
  split; [exact (truncate_field_cuts h l fields key marker s limit Hl Hkey Hlen)|].
  split; [exact Hl1|]. split; [exact Hk1|]. split; [exact Hs1|].
  destruct (N.lt_ge_cases limit (N.of_nat (String.length s1))) as [Hlt|Hge].
  - rewrite (truncate_field_cuts h1 l fields1 key marker s1 limit Hl1 Hk1 Hlt).
    assert (Hsame : vdict_set fields1 key
                      (VStr (str_take (N.to_nat limit) s1 +:+ marker)) = fields1).
    { unfold fields1. rewrite vdict_set_set. unfold s1.
      rewrite str_take_app by lia. reflexivity. }
    rewrite Hsame. unfold h1. cbn [store next_loc].
    rewrite insert_insert_eq. reflexivity.
  - apply (truncate_field_keeps h1 l fields1 key marker limit Hl1).
    right. exists s1. split; [exact Hk1 | exact Hge].
Qed.

Lemma truncate_field_stable_witness :
  exists h1 fields1 s1,
    truncate_field "snippet" 500 "..." (VRef 3) bundle_heap = (Ok tt, h1)
    /\ store h1 !! 3 = Some (ODict fields1)
    /\ vdict_get fields1 "snippet" = Some (VStr s1)
    /\ String.length s1 = N.to_nat 500 + String.length "..."
    /\ truncate_field "snippet" 500 "..." (VRef 3) h1 = (Ok tt, h1).
Proof.
  apply (truncate_field_stable bundle_heap 3
           [("link", VStr "https://www.acme.com/"); ("snippet", VStr long_snippet)]
           "snippet" "..." long_snippet 500).
  - vm_compute. reflexivity.
  - reflexivity.
  - vm_compute. reflexivity.
Defined.

(** ** The output directory: never deeper than one level *)

Lemma split_slash_plain (cur s : string) :
  str_all (fun c => negb (Ascii.eqb c slash)) s = true ->
  split_slash cur s = [cur +:+ s].
Proof.
  revert cur. induction s as [|c s IH]; intros cur H.
  - cbn [split_slash]. rewrite append_empty_r. reflexivity.
  - cbn [str_all] in H. apply andb_true_iff in H as [Hc Hs].
    apply negb_true_iff in Hc. cbn [split_slash]. rewrite Hc, (IH _ Hs).
    f_equal. clear. induction cur as [|d cur IHc]; [reflexivity|].
    change (String d cur +:+ String c EmptyString) with
      (String d (cur +:+ String c EmptyString)).
    change (String d (cur +:+ String c EmptyString) +:+ s) with
      (String d ((cur +:+ String c EmptyString) +:+ s)).
    rewrite IHc. reflexivity.
Qed.

Lemma slug_char_plain (c : ascii) :
  is_az09 c || Ascii.eqb c hyphen = true ->
  Ascii.eqb c slash = false /\ Ascii.eqb c "."%char = false.
Proof. destruct c as [[] [] [] [] [] [] [] []]; vm_compute; intros; split; congruence. Qed.

Lemma slug_components (slug : string) :
  slug <> EmptyString ->
  str_all (fun c => is_az09 c || Ascii.eqb c hyphen) slug = true ->
  String.prefix "/" slug = false /\ components slug = [slug].
Proof.
  intros Hne Hall. destruct slug as [|c slug]; [congruence|].
  cbn [str_all] in Hall. apply andb_true_iff in Hall as [Hc Hs].
  destruct (slug_char_plain c Hc) as [Hslash Hdot].
  split.
  - cbn [String.prefix]. fold slash. rewrite Ascii.eqb_sym in Hslash.
    destruct (Ascii.ascii_dec slash c) as [Heq|_]; [|reflexivity].
    subst c. discriminate Hslash.
  - unfold components. rewrite split_slash_plain.
    + change (EmptyString +:+ String c slug) with (String c slug).
      cbn [List.filter String.eqb negb andb].
      destruct slug; cbn [String.eqb]; rewrite ?Hdot; reflexivity.
    + cbn [str_all]. rewrite Hslash. cbn [negb andb].
      clear -Hs. induction slug as [|d slug IH]; [reflexivity|].
      cbn [str_all] in *. apply andb_true_iff in Hs as [Hd Hs].
      destruct (slug_char_plain d Hd) as [-> _]. cbn [negb andb]. exact (IH Hs).
Qed.

(** X13.  Whatever the organization name or the query, the output base is
    the output directory itself or exactly one directory below it, named by
    a non-empty well-formed slug: a name cannot make the run write outside
    the output directory or deeper inside it. *)
Theorem output_base_one_level (out_dir query : string) (profile : json) (base : path) :
  output_base out_dir profile query = Ok base ->
  base = Path out_dir
  \/ exists slug, slug <> EmptyString /\ well_formed_slug slug = true
                  /\ base = Path out_dir ++ [slug].
Proof.
  unfold output_base. destruct (slug_source profile query) as [text|e]; [|discriminate].
  intros [= <-].
  destruct (slugify_shape text) as [Hempty | Hshape].
  - left. rewrite Hempty. apply path_div_empty.
  - right. exists (slugify text).
    assert (Hne : slugify text <> EmptyString).
    { intros Heq. rewrite Heq in Hshape. discriminate Hshape. }
    destruct (slug_components (slugify text) Hne (slug_tail_chars true _ Hshape))
      as [Hprefix Hcomp].
    split; [exact Hne|]. split.
    + unfold well_formed_slug. rewrite Hshape. apply orb_true_r.
    + unfold path_div. rewrite Hprefix, Hcomp. reflexivity.
Qed.

Lemma output_base_one_level_witness :
  ["outputs"; "acme-dental"] = Path "outputs"
  \/ exists slug, slug <> EmptyString /\ well_formed_slug slug = true
                  /\ ["outputs"; "acme-dental"] = Path "outputs" ++ [slug].
Proof.
  apply (output_base_one_level "outputs" "q"
           (JObj [("organization", JObj [("name", JStr "../Acme Dental/")])])).
  reflexivity.
Defined.

(** ** [extract_links] *)

Lemma fromkeys_elem (seen : gset string) (links : list string) (x : string) :
  x ∈ fromkeys seen links <-> x ∈ links /\ x ∉ seen.
Proof.
  revert seen. induction links as [|l links IH]; intros seen; cbn [fromkeys].
  - split; [intros H; apply elem_of_nil in H; contradiction|].
    intros [H _]. apply elem_of_nil in H. contradiction.
  - destruct (bool_decide_reflect (l ∈ seen)) as [Hl|Hl].
    + rewrite IH, elem_of_cons. split; [intros [? ?]; split; auto|].
      intros [[->|H] Hs]; [contradiction | split; assumption].
    + rewrite !elem_of_cons, IH. split.
      * intros [->|[H Hs]]; [split; [left; reflexivity | exact Hl]|].
        split; [right; exact H|]. intros Hx. apply Hs. apply elem_of_union. right; exact Hx.
      * intros [[->|H] Hs]; [left; reflexivity|].
        destruct (String.eqb_spec x l) as [->|Hne]; [left; reflexivity|].
        right. split; [exact H|].
        intros [Hx|Hx]%elem_of_union; [|contradiction].
        apply elem_of_singleton in Hx. contradiction.
Qed.

Lemma fromkeys_NoDup (seen : gset string) (links : list string) :
  NoDup (fromkeys seen links).
Proof.
  revert seen. induction links as [|l links IH]; intros seen; cbn [fromkeys].
  - constructor.
  - destruct (bool_decide (l ∈ seen)); [apply IH|].
    apply NoDup_cons. split; [|apply IH].
    intros [_ H]%fromkeys_elem. apply H. apply elem_of_union. left.
    apply elem_of_singleton. reflexivity.
Qed.

Lemma fromkeys_sublist (seen : gset string) (links : list string) :
  sublist (fromkeys seen links) links.
Proof.
  revert seen. induction links as [|l links IH]; intros seen; cbn [fromkeys].
  - constructor.
  - destruct (bool_decide (l ∈ seen)); [apply sublist_cons | apply sublist_skip];
      apply IH.
Qed.

Lemma first_at_shift (l : string) (links : list string) (j : nat) (x : string) :
  first_at links j x -> l <> x -> first_at (l :: links) (S j) x.
Proof.
  intros [Hj Hfirst] Hl. split; [exact Hj|].
  intros k Hk Hx. destruct k as [|k]; [injection Hx as <-; congruence|].
  apply (Hfirst k); [lia | exact Hx].
Qed.

(** What [fromkeys] does with the head of the list: it keeps it and
    records it, or drops it; either way the head does not come back
    later. *)
Lemma fromkeys_cons_cases (seen : gset string) (l : string) (links : list string) :
  (fromkeys seen (l :: links) = l :: fromkeys ({[l]} ∪ seen) links
   /\ forall x, x ∈ fromkeys ({[l]} ∪ seen) links -> l <> x)
  \/ (fromkeys seen (l :: links) = fromkeys seen links
      /\ forall x, x ∈ fromkeys seen links -> l <> x).
Proof.
  cbn [fromkeys]. destruct (bool_decide_reflect (l ∈ seen)) as [Hl|Hl].
  - right. split; [reflexivity|]. intros x [_ Hx]%fromkeys_elem. congruence.
  - left. split; [reflexivity|]. intros x [_ Hx]%fromkeys_elem <-.
    apply Hx. apply elem_of_union. left. apply elem_of_singleton. reflexivity.
Qed.

Lemma fromkeys_first_at (seen : gset string) (links : list string) (i : nat) (x : string) :
  fromkeys seen links !! i = Some x -> exists j, first_at links j x.
Proof.
  revert seen i. induction links as [|l links IH]; intros seen i Hx; [discriminate Hx|].
  destruct (fromkeys_cons_cases seen l links) as [[Heq Hd]|[Heq Hd]]; rewrite Heq in Hx.
  - destruct i as [|i].
    + injection Hx as <-. exists 0. split; [reflexivity|]. intros k Hk. lia.
    + change (fromkeys ({[l]} ∪ seen) links !! i = Some x) in Hx.
      destruct (IH _ _ Hx) as [j Hj]. exists (S j).
      apply first_at_shift; [exact Hj|].
      apply Hd. exact (list_elem_of_lookup_2 _ _ _ Hx).
  - destruct (IH _ _ Hx) as [j Hj]. exists (S j).
    apply first_at_shift; [exact Hj|].
    apply Hd. exact (list_elem_of_lookup_2 _ _ _ Hx).
Qed.

(** The links kept stand in the order of their first appearance. *)
Lemma fromkeys_order (seen : gset string) (links : list string) (i i' : nat)
    (x x' : string) :
  i < i' -> fromkeys seen links !! i = Some x -> fromkeys seen links !! i' = Some x' ->
  exists j j', j < j' /\ first_at links j x /\ first_at links j' x'.
Proof.
  revert seen i i'. induction links as [|l links IH]; intros seen i i' Hlt Hx Hx';
    [discriminate Hx|].
  destruct (fromkeys_cons_cases seen l links) as [[Heq Hd]|[Heq Hd]];
    rewrite Heq in Hx, Hx'.
  - destruct i' as [|i']; [lia|].
    change (fromkeys ({[l]} ∪ seen) links !! i' = Some x') in Hx'.
    pose proof (Hd x' (list_elem_of_lookup_2 _ _ _ Hx')) as Hl'.
    destruct i as [|i].
    + injection Hx as <-.
      destruct (fromkeys_first_at _ _ _ _ Hx') as [j' Hj'].
      exists 0, (S j'). split; [lia|]. split.
      * split; [reflexivity|]. intros k Hk. lia.
      * apply first_at_shift; assumption.
    + change (fromkeys ({[l]} ∪ seen) links !! i = Some x) in Hx.
      pose proof (Hd x (list_elem_of_lookup_2 _ _ _ Hx)) as Hl.
      destruct (IH _ i i' ltac:(lia) Hx Hx') as (j & j' & Hjj & Hj & Hj').
      exists (S j), (S j'). split; [lia|].
      split; apply first_at_shift; assumption.
  - pose proof (Hd x (list_elem_of_lookup_2 _ _ _ Hx)) as Hl.
    pose proof (Hd x' (list_elem_of_lookup_2 _ _ _ Hx')) as Hl'.
    destruct (IH _ i i' Hlt Hx Hx') as (j & j' & Hjj & Hj & Hj').
    exists (S j), (S j'). split; [lia|].
    split; apply first_at_shift; assumption.
Qed.

Lemma prefix_http_kept (href : string) :
  String.prefix "http" href = true ->
  String.prefix "#" href || String.prefix "mailto:" href || String.prefix "tel:" href
  = false.
Proof.
  destruct href as [|c href]; [discriminate|].
  cbn [String.prefix]. destruct (Ascii.ascii_dec "h" c) as [<-|]; [|discriminate].
  intros _. reflexivity.
Qed.

(** X14.  [extract_links] returns every link once, in the order of first
    appearance in the page: of two links returned, the one returned first
    is the one whose first anchor comes first.  A link is returned exactly
    when some anchor resolves to it; an [href] that starts with ["http"] is
    always kept, as it stands; and whatever is returned either starts with
    ["http"] or is the scheme and host of the page followed by a
    root-relative [href].  Other targets (fragments, [mailto:], [tel:],
    paths without a leading slash) never come back. *)
Theorem extract_links_sound (urlparse : string -> parsed_url)
    (anchor_hrefs : string -> list string) (html base_url : string) :
  NoDup (extract_links urlparse anchor_hrefs html base_url)
  /\ sublist (extract_links urlparse anchor_hrefs html base_url)
       (omap (resolve_href urlparse base_url) (anchor_hrefs html))
  /\ (forall i i' link link',
        i < i' ->
        extract_links urlparse anchor_hrefs html base_url !! i = Some link ->
        extract_links urlparse anchor_hrefs html base_url !! i' = Some link' ->
        exists j j',
          j < j'
          /\ first_at (omap (resolve_href urlparse base_url) (anchor_hrefs html)) j link
          /\ first_at (omap (resolve_href urlparse base_url) (anchor_hrefs html)) j' link')
  /\ (forall link,
        link ∈ extract_links urlparse anchor_hrefs html base_url
        <-> exists href, href ∈ anchor_hrefs html
                         /\ resolve_href urlparse base_url href = Some link)
  /\ (forall href, href ∈ anchor_hrefs html -> String.prefix "http" href = true ->
        href ∈ extract_links urlparse anchor_hrefs html base_url)
  /\ (forall link,
        link ∈ extract_links urlparse anchor_hrefs html base_url ->
        String.prefix "http" link = true
        \/ exists href,
             href ∈ anchor_hrefs html /\ String.prefix "/" href = true
             /\ link = url_scheme (urlparse base_url) +:+ "://"
                       +:+ url_netloc (urlparse base_url) +:+ href).
Proof.
  unfold extract_links.
  assert (Hiff : forall link,
             link ∈ fromkeys ∅ (omap (resolve_href urlparse base_url) (anchor_hrefs html))
             <-> exists href, href ∈ anchor_hrefs html
                              /\ resolve_href urlparse base_url href = Some link).
  { intros link. rewrite fromkeys_elem, list_elem_of_omap. split.
    - intros [H _]. exact H.
    - intros H. split; [exact H | apply not_elem_of_empty]. }
  split; [apply fromkeys_NoDup|]. split; [apply fromkeys_sublist|].
  split; [intros i i' link link'; apply fromkeys_order|].
  split; [exact Hiff|]. split.
  - intros href Hin Hhttp. apply Hiff. exists href. split; [exact Hin|].
    unfold resolve_href. rewrite (prefix_http_kept href Hhttp), Hhttp. reflexivity.
  - intros link Hlink. apply Hiff in Hlink as (href & Hin & Hres).
    unfold resolve_href in Hres.
    destruct (_ || _); [discriminate|].
    destruct (String.prefix "http" href) eqn:Hhttp.
    + injection Hres as <-. left. exact Hhttp.
    + destruct (String.prefix "/" href) eqn:Hroot; [|discriminate].
      injection Hres as <-. right. exists href. repeat split; assumption.
Qed.

Lemma extract_links_sound_witness :
  "https://www.acme.com/about"
  ∈ extract_links (fun _ => {| url_scheme := "https"; url_netloc := "www.acme.com";
                               url_path := EmptyString |})
      (fun _ => ["#top"; "https://www.acme.com/about"; "mailto:a@acme.com";
                 "https://www.acme.com/about"])
      "<html>" "https://www.acme.com".
Proof.
  apply (extract_links_sound
           (fun _ => {| url_scheme := "https"; url_netloc := "www.acme.com";
                        url_path := EmptyString |})
           (fun _ => ["#top"; "https://www.acme.com/about"; "mailto:a@acme.com";
                      "https://www.acme.com/about"])
           "<html>" "https://www.acme.com").
  - right. left.
  - reflexivity.
Defined.

(** ** The bulk query *)

Lemma split_bar_none (s before : string) :
  split_bar s = (before, None) ->
  before = s /\ str_all (fun c => negb (Ascii.eqb c bar)) s = true.
Proof.
  revert before. induction s as [|c s IH]; intros before; cbn [split_bar str_all].
  - intros [= <-]. split; reflexivity.
  - destruct (Ascii.eqb c bar); [discriminate|].
    destruct (split_bar s) as [b a]. intros [= <- ->].
    destruct (IH b eq_refl) as [-> Hs]. split; [reflexivity | exact Hs].
Qed.

Lemma split_bar_some (s before after : string) :
  split_bar s = (before, Some after) ->
  s = before +:+ String bar after
  /\ str_all (fun c => negb (Ascii.eqb c bar)) before = true.
Proof.
  revert before. induction s as [|c s IH]; intros before; cbn [split_bar].
  - discriminate.
  - destruct (Ascii.eqb_spec c bar) as [->|Hc].
    + intros [= <- <-]. split; reflexivity.
    + destruct (split_bar s) as [b a]. intros [= <- ->].
      destruct (IH b eq_refl) as [-> Hb]. split; [reflexivity|].
      cbn [str_all]. rewrite Hb.
      destruct (Ascii.eqb_spec c bar); [contradiction | reflexivity].
Qed.

Lemma split_bar_app (before after : string) :
  str_all (fun c => negb (Ascii.eqb c bar)) before = true ->
  split_bar (before +:+ String bar after) = (before, Some after).
Proof.
  induction before as [|c before IH]; intros H.
  - cbn. reflexivity.
  - cbn [str_all] in H. apply andb_true_iff in H as [Hc Hb].
    apply negb_true_iff in Hc.
    change (String c before +:+ String bar after)
      with (String c (before +:+ String bar after)).
    cbn [split_bar]. rewrite Hc, (IH Hb). reflexivity.
Qed.

Lemma lstrip_space_head (s : string) (c : ascii) (r : string) :
  lstrip_space s = String c r -> is_space c = false.
Proof.
  induction s as [|d s IH]; cbn [lstrip_space]; [discriminate|].
  destruct (is_space d) eqn:Hd; [exact IH|]. intros [= <- _]. exact Hd.
Qed.

Lemma rstrip_space_last (s : string) (c : ascii) :
  str_last (rstrip_space s) = Some c -> is_space c = false.
Proof.
  induction s as [|d s IH]; cbn [rstrip_space]; [discriminate|].
  destruct (is_space d) eqn:Hd; cbn [andb].
  - destruct (rstrip_space s) as [|e r]; [discriminate|].
    cbn [str_is_empty str_last]. exact IH.
  - destruct (rstrip_space s) as [|e r]; cbn [str_last].
    + intros [= <-]. exact Hd.
    + exact IH.
Qed.

Lemma rstrip_space_head (s : string) (c d : ascii) (r r' : string) :
  s = String c r -> is_space c = false -> rstrip_space s = String d r' -> d = c.
Proof.
  intros -> Hc. cbn [rstrip_space]. rewrite Hc. cbn [andb]. intros [= <- _].
  reflexivity.
Qed.

Lemma strip_space_clean (s : string) (c : ascii) :
  (exists r, strip_space s = String c r) \/ str_last (strip_space s) = Some c ->
  is_space c = false.
Proof.
  unfold strip_space. intros [[r Hr] | Hlast].
  - destruct (lstrip_space s) as [|d t] eqn:Hl; [discriminate Hr|].
    pose proof (lstrip_space_head s d t Hl) as Hd.
    rewrite (rstrip_space_head (String d t) d c t r eq_refl Hd Hr). exact Hd.
  - exact (rstrip_space_last _ c Hlast).
Qed.

(** X15.  The bulk query is cut at its first bar.  A query without a bar is
    refused; a query [zip|genre] whose ZIP part holds no bar gives the two
    parts, each stripped of surrounding white space, and later bars stay in
    the genre; and the parts that come back never begin or end with white
    space, nor does the ZIP part hold a bar. *)
Theorem parse_bulk_query_parts (query : string) :
  (parse_bulk_query query = None
   <-> str_all (fun c => negb (Ascii.eqb c bar)) query = true)
  /\ (forall zip genre,
        str_all (fun c => negb (Ascii.eqb c bar)) zip = true ->
        parse_bulk_query (zip +:+ String bar genre)
        = Some (strip_space zip, strip_space genre))
  /\ (forall zip genre c,
        parse_bulk_query query = Some (zip, genre) ->
        ((exists r, zip = String c r) \/ str_last zip = Some c
         \/ (exists r, genre = String c r) \/ str_last genre = Some c) ->
        is_space c = false).
Proof.
  unfold parse_bulk_query. split; [|split].
  - destruct (split_bar query) as [before [after|]] eqn:Hs.
    + split; [discriminate|]. intros Hall. exfalso.
      destruct (split_bar_some _ _ _ Hs) as [-> _].
      clear Hs. induction before as [|c before IH].
      * cbn in Hall. discriminate Hall.
      * change (String c before +:+ String bar after)
          with (String c (before +:+ String bar after)) in Hall.
        cbn [str_all] in Hall. apply andb_true_iff in Hall as [_ Hall]. exact (IH Hall).
    + split; [|reflexivity]. intros _. exact (proj2 (split_bar_none _ _ Hs)).
  - intros zip genre Hzip. rewrite (split_bar_app zip genre Hzip). reflexivity.
  - intros zip genre c. destruct (split_bar query) as [before [after|]]; [|discriminate].
    intros [= <- <-] [H|[H|[H|H]]];
      [apply (strip_space_clean before c); left; exact H
      |apply (strip_space_clean before c); right; exact H
      |apply (strip_space_clean after c); left; exact H
      |apply (strip_space_clean after c); right; exact H].
Qed.

Lemma parse_bulk_query_parts_witness :
  parse_bulk_query (" 78701 " +:+ String bar " dentist | kids ")
  = Some ("78701", "dentist | kids").
Proof.
  apply (proj1 (proj2 (parse_bulk_query_parts EmptyString)) " 78701 " " dentist | kids ").
  reflexivity.
Defined.

(** ** Configuration and request keys *)

Lemma key_or_spec (override : option string) (fallback : string) :
  fallback <> EmptyString -> key_or override fallback <> EmptyString.
Proof.
  intros Hf. unfold key_or. destruct override as [v|]; cbn [opt_truthy]; [|exact Hf].
  destruct (str_truthy v) eqn:Hv; [|exact Hf].
  cbn [from_option id]. apply str_truthy_true. exact Hv.
Qed.

(** X16.  [load_config] asks for the three required variables in the order
    OpenAI key, Google key, search-engine id, and an empty value counts as
    missing.  When it succeeds, the clients built from it never send a
    request with an empty key: the search uses the Google key, and the
    page-speed and places requests use their own variable when it is set and
    not empty, and the Google key otherwise. *)
Theorem load_config_keys (env : string -> option string) :
  (opt_truthy (env "OPENAI_API_KEY") = false ->
     load_config env = Raise (RuntimeError "OPENAI_API_KEY is required"))
  /\ (opt_truthy (env "OPENAI_API_KEY") = true ->
      opt_truthy (env "GOOGLE_API_KEY") = false ->
      load_config env = Raise (RuntimeError "GOOGLE_API_KEY is required"))
  /\ (opt_truthy (env "OPENAI_API_KEY") = true ->
      opt_truthy (env "GOOGLE_API_KEY") = true ->
      opt_truthy (env "GOOGLE_CSE_ID") = false ->
      load_config env = Raise (RuntimeError "GOOGLE_CSE_ID is required"))
  /\ (forall cfg, load_config env = Ok cfg ->
        exists google,
          env "GOOGLE_API_KEY" = Some google /\ google <> EmptyString
          /\ search_request_key (make_clients cfg) = google
          /\ pagespeed_request_key (make_clients cfg)
             = (if opt_truthy (env "GOOGLE_PAGESPEED_API_KEY")
                then default EmptyString (env "GOOGLE_PAGESPEED_API_KEY") else google)
          /\ places_request_key (make_clients cfg)
             = (if opt_truthy (env "GOOGLE_PLACES_API_KEY")
                then default EmptyString (env "GOOGLE_PLACES_API_KEY") else google)
          /\ pagespeed_request_key (make_clients cfg) <> EmptyString
          /\ places_request_key (make_clients cfg) <> EmptyString).
Proof.
  unfold load_config. repeat split.
  - intros ->. reflexivity.
  - intros -> ->. reflexivity.
  - intros -> -> ->. reflexivity.
  - intros cfg.
    destruct (opt_truthy (env "OPENAI_API_KEY")); [|discriminate].
    destruct (env "GOOGLE_API_KEY") as [google|] eqn:Hg; [|discriminate].
    cbn [opt_truthy]. destruct (str_truthy google) eqn:Hgt; [|discriminate].
    destruct (opt_truthy (env "GOOGLE_CSE_ID")); [|discriminate].
    cbn [negb from_option id]. intros [= <-].
    apply str_truthy_true in Hgt.
    assert (Hkey : forall name,
               key_or (getenv_default env name (Some google)) google
               = (if opt_truthy (env name) then default EmptyString (env name)
                  else google)).
    { intros name. unfold key_or, getenv_default.
      destruct (env name) as [v|]; cbn [opt_truthy from_option id]; [reflexivity|].
      destruct (str_truthy google); reflexivity. }
    exists google. unfold search_request_key, pagespeed_request_key,
      places_request_key, make_clients.
    cbn [api_key pagespeed_key places_key google_api_key pagespeed_api_key
         places_api_key].
    repeat split; try apply Hkey; try (apply key_or_spec; exact Hgt); exact Hgt.
Qed.

Lemma load_config_keys_witness :
  exists google,
    sample_env "GOOGLE_API_KEY" = Some google /\ google <> EmptyString
    /\ pagespeed_request_key
         (make_clients {| openai_api_key := "sk-test"; google_api_key := "g-key";
                          google_cse_id := "cse"; pagespeed_api_key := Some EmptyString;
                          places_api_key := Some "g-key" |}) = google.
Proof.
  destruct (proj2 (proj2 (proj2 (load_config_keys sample_env)))
              {| openai_api_key := "sk-test"; google_api_key := "g-key";
                 google_cse_id := "cse"; pagespeed_api_key := Some EmptyString;
                 places_api_key := Some "g-key" |} eq_refl)
    as (google & Hg & Hne & _ & Hps & _).
  exists google. split; [exact Hg|]. split; [exact Hne|]. exact Hps.
Defined.

(** ** The Places block *)

Lemma first_place_found (d : list (string * json)) (x : json) (rest : list json) :
  dict_get d "results" = Some (JArr (x :: rest)) -> first_place (JObj d) = Ok x.
Proof. intros H. unfold first_place, py_get. cbn [bind_outcome]. rewrite H. reflexivity. Qed.

Lemma first_place_missing (d : list (string * json)) :
  dict_get d "results" = None \/ dict_get d "results" = Some (JArr []) ->
  first_place (JObj d) = Ok JNull.
Proof.
  intros [H|H]; unfold first_place, py_get; cbn [bind_outcome]; rewrite H; reflexivity.
Qed.

Lemma place_id_found (place : list (string * json)) (pid : json) :
  dict_get place "place_id" = Some pid ->
  has_place_id (JObj place) = Ok true /\ json_getitem (JObj place) "place_id" = Ok pid.
Proof.
  intros H. unfold has_place_id, json_getitem, json_contains. rewrite H.
  destruct place; [discriminate H | split; reflexivity].
Qed.

(** X17.  The Places block never raises, and this is what it leaves behind.
    A failed text search leaves the error in [places] and [{}] in
    [placeDetails].  A search without results keeps the reply and asks for
    no details.  When the first result is an object with a place id, its
    details are requested: their reply is kept beside the search reply, but
    if that request fails the error replaces the search reply as well, and
    [placeDetails] stays [{}]. *)
Theorem places_block_outcomes {World : Type}
    (places_text_search : string -> M World json) (place_details : json -> M World json)
    (exn_text : exn -> string) (query : string) (w : World) :
  (forall e w',
      places_text_search query w = (Raise e, w') ->
      places_block places_text_search place_details exn_text query w
      = ((error_entry exn_text e, JObj []), w'))
  /\ (forall d w',
        places_text_search query w = (Ok (JObj d), w') ->
        dict_get d "results" = None \/ dict_get d "results" = Some (JArr []) ->
        places_block places_text_search place_details exn_text query w
        = ((JObj d, JObj []), w'))
  /\ (forall d place rest pid w',
        places_text_search query w = (Ok (JObj d), w') ->
        dict_get d "results" = Some (JArr (JObj place :: rest)) ->
        dict_get place "place_id" = Some pid ->
        (forall details w'',
            place_details pid w' = (Ok details, w'') ->
            places_block places_text_search place_details exn_text query w
            = ((JObj d, details), w''))
        /\ (forall e w'',
              place_details pid w' = (Raise e, w'') ->
              places_block places_text_search place_details exn_text query w
              = ((error_entry exn_text e, JObj []), w''))).
Proof.
  unfold places_block, places_try, bind, lift, ret, error_entry. split; [|split].
  - intros e w' ->. reflexivity.
  - intros d w' -> Hr. cbv beta iota. rewrite (first_place_missing d Hr). reflexivity.
  - intros d place rest pid w' -> Hr Hp.
    destruct (place_id_found place pid Hp) as [Hhas Hget].
    cbv beta iota. rewrite (first_place_found d _ _ Hr). cbv beta iota.
    rewrite Hhas. cbv beta iota. rewrite Hget. cbv beta iota.
    split; intros ? w'' ->; reflexivity.
Qed.

Lemma places_block_outcomes_witness :
  places_block
    (fun (_ : string) (n : nat) =>
       (Ok (JObj [("results", JArr [JObj [("place_id", JStr "p1")]])]), S n))
    (fun (_ : json) (n : nat) => (Raise RequestsConnectionError, S n))
    (fun _ => "connection failed") "acme" 0
  = ((JObj [("error", JStr "connection failed")], JObj []), 2).
Proof.
  destruct (places_block_outcomes
              (fun (_ : string) (n : nat) =>
                 (Ok (JObj [("results", JArr [JObj [("place_id", JStr "p1")]])]), S n))
              (fun (_ : json) (n : nat) => (Raise RequestsConnectionError, S n))
              (fun _ => "connection failed") "acme" 0) as (_ & _ & H).
  destruct (H [("results", JArr [JObj [("place_id", JStr "p1")]])]
              [("place_id", JStr "p1")] [] (JStr "p1") 1 eq_refl eq_refl eq_refl)
    as [_ Hfail].
  exact (Hfail RequestsConnectionError 2 eq_refl).
Defined.

(** ** [generate_training_data] *)

Lemma map_outcome_length {A B} (f : A -> outcome B) (l : list A) (ys : list B) :
  map_outcome f l = Ok ys -> length ys = length l.
Proof.
  revert ys. induction l as [|x l IH]; intros ys; cbn [map_outcome].
  - intros [= <-]. reflexivity.
  - intros H. apply bind_outcome_ok in H as (y & _ & H).
    apply bind_outcome_ok in H as (ys' & Hys & H). injection H as <-.
    cbn [length]. rewrite (IH ys' Hys). reflexivity.
Qed.

Section TrainingFacts.

Variable py_repr : json -> string.

Lemma service_pairs_two (ss : list json) (l : list (list json)) :
  map_outcome (service_pairs py_repr) ss = Ok l -> length (concat l) = 2 * length ss.
Proof.
  revert l. induction ss as [|s ss IH]; intros l; cbn [map_outcome].
  - intros [= <-]. reflexivity.
  - intros H. apply bind_outcome_ok in H as (y & Hy & H).
    apply bind_outcome_ok in H as (ys & Hys & H). injection H as <-.
    cbn [concat length]. rewrite length_app, (IH ys Hys).
    destruct s; try discriminate Hy. unfold service_pairs in Hy.
    apply bind_outcome_ok in Hy as (b & _ & Hy). injection Hy as <-.
    cbn [length]. lia.
Qed.

Lemma member_pairs_count (ts : list json) (l : list (list json)) :
  map_outcome (member_pairs py_repr) ts = Ok l ->
  length (concat l) = members_with_bio ts.
Proof.
  unfold members_with_bio.
  revert l. induction ts as [|t ts IH]; intros l; cbn [map_outcome].
  - intros [= <-]. reflexivity.
  - intros H. apply bind_outcome_ok in H as (y & Hy & H).
    apply bind_outcome_ok in H as (ys & Hys & H). injection H as <-.
    cbn [concat List.filter]. rewrite length_app, (IH ys Hys).
    destruct t; try discriminate Hy. injection Hy as <-.
    destruct (has_name_and_bio fields); reflexivity.
Qed.

Lemma contact_pairs_count (org : list (string * json)) :
  length (contact_pairs py_repr org)
  = bool_count (json_truthy (opt_json (dict_get org "phone")))
    + bool_count (json_truthy (opt_json (dict_get org "address"))).
Proof.
  unfold contact_pairs. rewrite length_app.
  destruct (json_truthy (opt_json (dict_get org "phone")));
    destruct (json_truthy (opt_json (dict_get org "address"))); reflexivity.
Qed.

Lemma py_join_raises (sep : string) (v : json) (e : exn) :
  py_join sep v = Raise e -> e = TypeError.
Proof.
  unfold py_join. destruct (py_iter v) as [items|e'] eqn:Hi; cbn [bind_outcome].
  - destruct (map_outcome _ items) as [strs|e'] eqn:Hm; cbn [bind_outcome];
      [discriminate|].
    intros [= <-]. revert Hm. clear. induction items as [|x items IH];
      cbn [map_outcome]; [discriminate|].
    destruct x; cbn [bind_outcome]; try (intros [= <-]; reflexivity).
    destruct (map_outcome _ items); cbn [bind_outcome]; [discriminate|].
    intros [= <-]. apply IH. reflexivity.
  - intros [= <-]. destruct v; try discriminate Hi; injection Hi as <-; reflexivity.
Qed.

(** The service loop stops with [TypeError] when every service is an object
    and one of them has benefits that cannot be joined. *)
Lemma service_pairs_type_error (ss : list json) :
  Forall (fun s => is_obj s = true) ss ->
  Exists (fun s => exists e, service_pairs py_repr s = Raise e) ss ->
  map_outcome (service_pairs py_repr) ss = Raise TypeError.
Proof.
  intros Hobj Hbad. induction Hobj as [|s ss Hs Hobj IH].
  - inversion Hbad.
  - cbn [map_outcome].
    destruct s as [| | | | |d]; try discriminate Hs.
    destruct (service_pairs py_repr (JObj d)) as [y|e] eqn:Hy; cbn [bind_outcome].
    + rewrite IH; [reflexivity|].
      inversion Hbad as [? ? [e He]|]; subst; [congruence | assumption].
    + unfold service_pairs in Hy.
      destruct (py_join ". " (default (JArr []) (dict_get d "benefits"))) as [b|e']
        eqn:Hj; cbn [bind_outcome] in Hy; [discriminate|].
      injection Hy as <-. rewrite (py_join_raises _ _ _ Hj). reflexivity.
Qed.

Lemma map_outcome_objects {B} (f : json -> outcome B) (l : list json) :
  (forall d, exists y, f (JObj d) = Ok y) ->
  Forall (fun s => is_obj s = true) l -> exists ys, map_outcome f l = Ok ys.
Proof.
  intros Hf Hl. apply map_outcome_ok. eapply Forall_impl; [exact Hl|].
  intros x Hx. destruct x; try discriminate Hx. apply Hf.
Qed.

End TrainingFacts.

(** X18.  When [generate_training_data] returns for a profile whose
    services, FAQs and team are lists, it holds one pair per FAQ, two per
    service, one more when the organization has a phone, one more when it has
    an address, and one per team member that has both a name and a bio; and
    it holds one embedding candidate for the organization, one per service
    and one per FAQ. *)
Theorem training_data_counts (py_repr : json -> string) (d : list (string * json))
    (sources result : json) (org : list (string * json)) (ss fs ts : list json) :
  default (JObj []) (dict_get d "organization") = JObj org ->
  default (JArr []) (dict_get d "services") = JArr ss ->
  default (JArr []) (dict_get d "faqs") = JArr fs ->
  default (JArr []) (dict_get d "team") = JArr ts ->
  generate_training_data py_repr (JObj d) sources = Ok result ->
  field_length "qa_pairs" result
  = Some (length fs + 2 * length ss
          + bool_count (json_truthy (opt_json (dict_get org "phone")))
          + bool_count (json_truthy (opt_json (dict_get org "address")))
          + members_with_bio ts)
  /\ training_qa_count result = field_length "qa_pairs" result
  /\ field_length "embeddings_data" result = Some (1 + length ss + length fs).
Proof.
  intros Horg Hss Hfs Hts H.
  unfold generate_training_data in H. cbn [py_get_default bind_outcome] in H.
  rewrite Horg, Hss, Hfs, Hts in H. cbn [py_iter bind_outcome] in H.
  apply bind_outcome_ok in H as (names & _ & H).
  apply bind_outcome_ok in H as (stats & _ & H).
  apply bind_outcome_ok in H as (pages & _ & H).
  apply bind_outcome_ok in H as (qa & Hqa & H).
  apply bind_outcome_ok in H as (texts & Htexts & H).
  apply bind_outcome_ok in H as (ftexts & Hftexts & H).
  injection H as <-.
  unfold qa_pairs_of in Hqa. cbn [py_iter bind_outcome] in Hqa.
  apply bind_outcome_ok in Hqa as (from_faqs & Hf & Hqa).
  apply bind_outcome_ok in Hqa as (from_services & Hs & Hqa).
  apply bind_outcome_ok in Hqa as (from_team & Ht & Hqa).
  injection Hqa as <-.
  assert (Hcount : length (from_faqs ++ concat from_services
                           ++ contact_pairs py_repr org ++ concat from_team)
                   = length fs + 2 * length ss
                     + bool_count (json_truthy (opt_json (dict_get org "phone")))
                     + bool_count (json_truthy (opt_json (dict_get org "address")))
                     + members_with_bio ts).
  { rewrite !length_app, (map_outcome_length _ _ _ Hf),
      (service_pairs_two py_repr _ _ Hs), contact_pairs_count,
      (member_pairs_count py_repr _ _ Ht). lia. }
  split; [|split].
  - cbn. rewrite Hcount. reflexivity.
  - reflexivity.
  - cbn. rewrite length_app, (map_outcome_length _ _ _ Htexts),
      (map_outcome_length _ _ _ Hftexts). reflexivity.
Qed.

Lemma training_data_counts_witness :
  field_length "qa_pairs"
    (match generate_training_data repr_none
             (JObj [("organization", JObj [("phone", JStr "555")]);
                    ("services", JArr [JObj [("name", JStr "Cleaning")]]);
                    ("faqs", JArr [JObj [("q", JStr "Open?"); ("a", JStr "Yes")]])])
             (JObj []) with
     | Ok result => result
     | Raise _ => JNull
     end) = Some 4.
Proof.
  destruct (generate_training_data repr_none
              (JObj [("organization", JObj [("phone", JStr "555")]);
                     ("services", JArr [JObj [("name", JStr "Cleaning")]]);
                     ("faqs", JArr [JObj [("q", JStr "Open?"); ("a", JStr "Yes")]])])
              (JObj [])) as [result|e] eqn:E; [|vm_compute in E; discriminate E].
  apply (training_data_counts repr_none
           [("organization", JObj [("phone", JStr "555")]);
            ("services", JArr [JObj [("name", JStr "Cleaning")]]);
            ("faqs", JArr [JObj [("q", JStr "Open?"); ("a", JStr "Yes")]])]
           (JObj []) result
           [("phone", JStr "555")] [JObj [("name", JStr "Cleaning")]]
           [JObj [("q", JStr "Open?"); ("a", JStr "Yes")]] []
           eq_refl eq_refl eq_refl eq_refl E).
Defined.

(** X19.  A null is not treated alike by the two derivations.  A service
    whose benefits are null is rendered by [service_md], the benefits part
    being left out, but it makes [generate_training_data] raise [TypeError]
    on a profile whose organization is an object and whose services and FAQs
    are lists of objects. *)
Theorem null_benefits_break_training (py_repr : json -> string)
    (d sd : list (string * json)) (org : list (string * json))
    (ss fs : list json) (service : list (string * json)) :
  default (JObj []) (dict_get d "organization") = JObj org ->
  default (JArr []) (dict_get d "services") = JArr ss ->
  default (JArr []) (dict_get d "faqs") = JArr fs ->
  Forall (fun s => is_obj s = true) ss ->
  Forall (fun f => is_obj f = true) fs ->
  field_ok sd "scrapingStats" is_obj = true ->
  JObj service ∈ ss ->
  dict_get service "benefits" = Some JNull ->
  field_ok service "bullets" (falsy_or is_str_list) = true ->
  generate_training_data py_repr (JObj d) (JObj sd) = Raise TypeError
  /\ exists text, service_md py_repr (JObj service) = Ok text.
Proof.
  intros Horg Hss Hfs Hobj Hfobj Hstats Hin Hnull Hbullets. split.
  - unfold generate_training_data. cbn [py_get_default bind_outcome].
    rewrite Horg, Hss, Hfs. cbn [py_iter bind_outcome].
    destruct (map_outcome_objects service_name ss) as [names ->];
      [intros; eexists; reflexivity | exact Hobj |].
    cbn [bind_outcome].
    pose proof (field_default_ok sd "scrapingStats" is_obj (JObj []) Hstats eq_refl) as Hst.
    destruct (default (JObj []) (dict_get sd "scrapingStats")) as [| | | | |stats];
      try discriminate Hst.
    cbn [py_get_default bind_outcome].
    unfold qa_pairs_of. cbn [py_iter bind_outcome].
    destruct (map_outcome_objects (faq_pair) fs) as [from_faqs ->];
      [intros; eexists; reflexivity | exact Hfobj |].
    cbn [bind_outcome].
    rewrite (service_pairs_type_error py_repr ss Hobj); [reflexivity|].
    apply Exists_exists. exists (JObj service). split; [exact Hin|].
    exists TypeError. unfold service_pairs. rewrite Hnull. reflexivity.
  - apply service_md_ok. unfold service_ok. rewrite Hbullets.
    unfold field_ok. rewrite Hnull. reflexivity.
Qed.

Lemma null_benefits_break_training_witness :
  generate_training_data repr_none
    (JObj [("services", JArr [JObj [("name", JStr "Cleaning"); ("benefits", JNull)]])])
    (JObj []) = Raise TypeError.
Proof.
  apply (null_benefits_break_training repr_none
           [("services", JArr [JObj [("name", JStr "Cleaning"); ("benefits", JNull)]])]
           [] [] [JObj [("name", JStr "Cleaning"); ("benefits", JNull)]] []
           [("name", JStr "Cleaning"); ("benefits", JNull)]);
    try reflexivity.
  - repeat constructor.
  - constructor.
  - left.
Defined.

(** ** [normalize_url] *)

Lemma str_last_app (a b : string) :
  b <> EmptyString -> str_last (a +:+ b) = str_last b.
Proof.
  intros Hb. induction a as [|c a IH]; [reflexivity|].
  change (String c a +:+ b) with (String c (a +:+ b)). cbn [str_last].
  destruct (a +:+ b) eqn:E; [|exact IH].
  destruct a as [|c' a']; [change (b = EmptyString) in E; congruence|].
  change (String c' (a' +:+ b) = EmptyString) in E. discriminate E.
Qed.

Lemma append_not_empty (a b : string) : b <> EmptyString -> a +:+ b <> EmptyString.
Proof.
  intros Hb. destruct a as [|c a]; [exact Hb|].
  change (String c a +:+ b) with (String c (a +:+ b)). discriminate.
Qed.

Lemma str_endswith_after (a b suffix : string) :
  str_endswith suffix b = true -> str_endswith suffix (a +:+ b) = true.
Proof.
  intros H. induction a as [|c a IH]; [exact H|].
  change (String c a +:+ b) with (String c (a +:+ b)).
  cbn [str_endswith]. rewrite IH. apply orb_true_r.
Qed.

(** X20.  When the path of a URL is more than slashes, the normalized URL
    ends with that path without its trailing slashes, so it does not end in
    a slash, whatever the scheme and the host are. *)
Theorem normalize_url_shape (urlparse : string -> parsed_url) (url : string) :
  rstrip slash (url_path (urlparse url)) <> EmptyString ->
  str_endswith (rstrip slash (url_path (urlparse url))) (normalize_url urlparse url) = true
  /\ str_last (normalize_url urlparse url) <> Some slash.
Proof.
  intros Hpath. unfold normalize_url. split.
  - do 2 apply str_endswith_after. apply str_endswith_app.
  - rewrite str_last_app by (apply append_not_empty, append_not_empty, Hpath).
    rewrite str_last_app by (apply append_not_empty, Hpath).
    rewrite str_last_app by exact Hpath.
    apply rstrip_last.
Qed.

Lemma normalize_url_shape_witness :
  str_last (normalize_url
              (fun _ => {| url_scheme := EmptyString; url_netloc := "www.acme.com";
                           url_path := "/about/" |}) "www.acme.com/about/")
  <> Some slash.
Proof.
  apply (normalize_url_shape
           (fun _ => {| url_scheme := EmptyString; url_netloc := "www.acme.com";
                        url_path := "/about/" |}) "www.acme.com/about/").
  discriminate.
Defined.
